(** * Accountability client: retry helper, TTL cache, record normalisation,
      activity filtering and sorting, chart data preparers, points API.

    A shallow embedding of the utility functions of the client and the
    properties the specification states about them.  The functions are
    those of src/services/points-api.ts (points API, and the activities
    API with its cache and [withRetry]), src/app/(tabs)/logging.tsx
    (activity log and journal screens), src/services/dashboard.ts (the
    colour scheme hook), the filter bar and the activity form
    (src/unnamed/part_002, part_001) and the reward and exercise forms
    (src/components).

    Part I holds the definitions, Part II the lemmas and theorems. *)

From Stdlib Require Import ZArith QArith String Ascii List Bool Lia DecimalString.
From Stdlib Require Import Permutation Sorted.
From Stdlib Require OrderedTypeEx.
From stdpp Require Import gmap strings list fin_maps.

Close Scope Q_scope.
Local Open Scope string_scope.
Local Open Scope list_scope.
Local Open Scope Z_scope.

(* ===================================================================== *)
(** * Part I: definitions                                                 *)
(* ===================================================================== *)

(** ** JavaScript values *)

(** A JavaScript number: NaN, an infinity, or a finite value.  Finite
    doubles are rationals; the code below only compares them and tests
    them against zero, which is exact on Q. *)
Inductive number : Type :=
| NaN : number
| Inf (positive : bool) : number
| Fin (q : Q) : number.

(** A scalar JavaScript value, as a record field received from JSON can
    hold it ([VUndefined] is what reading an absent key gives). *)
Inductive value : Type :=
| VUndefined : value
| VNull : value
| VBool (b : bool) : value
| VNum (n : number) : value
| VStr (s : string) : value.

(** [isNaN] on a number. *)
Definition isNaN (n : number) : bool :=
  match n with NaN => true | _ => false end.

(** ToBoolean on numbers: 0 and NaN are falsy. *)
Definition truthy_number (n : number) : bool :=
  match n with
  | NaN => false
  | Inf _ => true
  | Fin q => negb (Qeq_bool q 0)
  end.

(** ToBoolean on strings: only the empty string is falsy. *)
Definition truthy_string (s : string) : bool := negb (String.eqb s "").

(** ToBoolean on scalar values. *)
Definition truthy (v : value) : bool :=
  match v with
  | VUndefined | VNull => false
  | VBool b => b
  | VNum n => truthy_number n
  | VStr s => truthy_string s
  end.

(** [a || b] on scalar values. *)
Definition js_or (a b : value) : value := if truthy a then a else b.

(** A field typed [string] that may be absent, undefined or null: the
    three are told apart nowhere in the code, which only tests such a
    field for truthiness, so all of them are [None]. *)
Definition truthy_opt (o : option string) : bool :=
  match o with Some s => truthy_string s | None => false end.

(** [a || b] on optional strings. *)
Definition or_str (a b : option string) : option string :=
  if truthy_opt a then a else b.

(** [a || ''] on an optional string. *)
Definition or_empty (a : option string) : string :=
  match a with Some s => if truthy_string s then s else "" | None => "" end.

(** A timestamp as [Date.prototype.getTime] returns it: milliseconds
    since the epoch, or [None] for the NaN of an invalid date. *)
Definition time : Type := option Z.

(** [a < b] on two time values: false as soon as one of them is NaN. *)
Definition time_lt (a b : time) : bool :=
  match a, b with
  | Some x, Some y => x <? y
  | _, _ => false
  end.

(** [a < b] on numbers (IEEE comparison, false on NaN). *)
Definition number_lt (a b : number) : bool :=
  match a, b with
  | NaN, _ | _, NaN => false
  | Inf pa, Inf pb => negb pa && pb
  | Inf pa, Fin _ => negb pa
  | Fin _, Inf pb => pb
  | Fin x, Fin y => match Qcompare x y with Lt => true | _ => false end
  end.

(** What an async call or a try block ends with. *)
Inductive Completion (T E : Type) : Type :=
| Return (v : T) : Completion T E
| Throw (e : E) : Completion T E.
Arguments Return {T E} v.
Arguments Throw {T E} e.

(** ** The retry helper ([withRetry], src/services/points-api.ts 1697-1715)

    [maxRetries] and [delay] are whole numbers.  [delay * 2^(attempt-1)]
    is exact on them, as it is on doubles short of overflow. *)

(** One invocation of the wrapped operation settles its promise. *)
Inductive Outcome (T Err : Type) : Type :=
| Resolve (v : T) : Outcome T Err
| Reject (e : Err) : Outcome T Err.
Arguments Resolve {T Err} v.
Arguments Reject {T Err} e.

(** The effects [withRetry] has on the world: it invokes [fn] and it
    arms a timer and waits for it.  ([console.warn] is left out.) *)
Inductive event : Type :=
| Invoke : event
| SetTimeout (ms : Z) : event.

(** The world threaded through a run: how often [fn] has been invoked
    so far, and the effects in the order they happened. *)
Record World : Type := mkWorld {
  invocations : nat;
  events : list event
}.

Definition world0 : World := mkWorld 0 [].

(** [await fn()]: the operation is given by the outcome of each of its
    invocations, numbered from 0. *)
Definition call {T Err} (fn : nat -> Outcome T Err) (w : World)
  : Outcome T Err * World :=
  (fn (invocations w),
   mkWorld (S (invocations w)) (events w ++ [Invoke])).

(** [await new Promise(resolve => setTimeout(resolve, ms))]. *)
Definition sleep (ms : Z) (w : World) : World :=
  mkWorld (invocations w) (events w ++ [SetTimeout ms]).

(** The body of the [for] loop, run for the attempt numbers still to
    come.  [lastError] starts as [undefined], which is [None]. *)
Fixpoint retry_over {T Err} (fn : nat -> Outcome T Err)
    (maxRetries delay : Z) (attempts : list Z)
    (lastError : option Err) (w : World)
  : Completion T (option Err) * World :=
  match attempts with
  | [] => (Throw lastError, w)
  | attempt :: rest =>
      match call fn w with
      | (Resolve v, w1) => (Return v, w1)
      | (Reject error, w1) =>
          let w2 :=
            if attempt <? maxRetries
            then sleep (delay * 2 ^ (attempt - 1)) w1
            else w1 in
          retry_over fn maxRetries delay rest (Some error) w2
      end
  end.

(** [for (let attempt = 1; attempt <= maxRetries; attempt++)] visits
    1, 2, ..., maxRetries, and nothing when [maxRetries < 1]. *)
Definition withRetry {T Err} (fn : nat -> Outcome T Err)
    (maxRetries delay : Z) (w : World)
  : Completion T (option Err) * World :=
  retry_over fn maxRetries delay (seqZ 1 maxRetries) None w.

(** The effects of [m] failed attempts, each followed by its wait. *)
Definition backoff (delay : Z) (m : Z) : list event :=
  flat_map (fun attempt => [Invoke; SetTimeout (delay * 2 ^ (attempt - 1))])
           (seqZ 1 m).

(** [fn] fails exactly [k] times, with the errors [errs], and then
    succeeds with [v]. *)
Definition fails_then_succeeds {T Err} (fn : nat -> Outcome T Err)
    (k : nat) (errs : nat -> Err) (v : T) : Prop :=
  (forall i, (i < k)%nat -> fn i = Reject (errs i)) /\ fn k = Resolve v.

(** The exhaustion half of the retry property in the specification's
    words: [fn] was invoked exactly [n] times and what is thrown is the
    error of the last invocation. *)
Definition exhausted_as_specified {T Err} (fn : nat -> Outcome T Err)
    (n : Z) (r : Completion T (option Err) * World) : Prop :=
  Z.of_nat (invocations (snd r)) = n /\
  exists i e, Z.of_nat i + 1 = n /\ fn i = Reject e /\ fst r = Throw (Some e).

(** ** The activities cache ([saveToCache] and [getFromCache],
    src/services/points-api.ts 1304-1345) *)

Definition CACHE_KEY : string := "activities_cache".
Definition CACHE_EXPIRY : Z := 2 * 60 * 1000.

(** What is written under [CACHE_KEY]: [{ timestamp, data }]. *)
Record CacheEntry (Payload : Type) : Type := mkEntry {
  timestamp : Z;
  data : Payload
}.
Arguments mkEntry {Payload} timestamp data.
Arguments timestamp {Payload} c.
Arguments data {Payload} c.

(** [JSON.stringify] and [JSON.parse] at the type of cache entries.
    [JSON_parse] gives [None] where [JSON.parse] throws, and also where
    it yields something that is not an entry: reading [timestamp] off
    [null] throws, and without a timestamp the age is NaN and the
    comparison false, so the read ends in the same [null]. *)
Class JsonCodec (Payload : Type) : Type := {
  JSON_stringify : CacheEntry Payload -> string;
  JSON_parse : string -> option (CacheEntry Payload)
}.

(** [AsyncStorage] is a map from keys to strings; [setItem] is taken to
    succeed.  [now] is the value of [Date.now()] at the call. *)
Definition saveToCache {Payload} `{JsonCodec Payload}
    (now : Z) (activities : Payload) (storage : gmap string string)
  : gmap string string :=
  <[CACHE_KEY := JSON_stringify (mkEntry now activities)]> storage.

(** [getFromCache]; [None] is the [null] of a miss. *)
Definition getFromCache {Payload} `{JsonCodec Payload}
    (now : Z) (storage : gmap string string) : option Payload :=
  match storage !! CACHE_KEY with
  | None => None
  | Some cachedData =>
      if negb (truthy_string cachedData) then None
      else
        match JSON_parse cachedData with
        | None => None
        | Some parsed =>
            if now - timestamp parsed <? CACHE_EXPIRY / 2
            then Some (data parsed)
            else None
        end
  end.

(** ** Record normalisation ([normalizedData] in [loadActivities],
    src/app/(tabs)/logging.tsx 95-111) *)

(** An item of the response is a JavaScript object used as a map from
    property names to values.  [prop k item] is [item.k]. *)
Definition prop (k : string) (item : gmap string value) : value :=
  default VUndefined (item !! k).

(** The properties written out in the object literal, before the spread. *)
Definition uppercase_properties (item : gmap string value)
  : list (string * value) :=
  [ ("Activity", js_or (prop "Activity" item) (prop "activity" item));
    ("Category", js_or (prop "Category" item) (prop "category" item));
    ("Date", js_or (prop "Date" item) (prop "date" item));
    ("Start_Time", js_or (prop "Start_Time" item) (prop "start_time" item));
    ("End_Time", js_or (prop "End_Time" item) (prop "end_time" item));
    ("Notes", js_or (prop "Notes" item) (prop "notes" item));
    ("Points", js_or (prop "Points" item) (prop "points" item));
    ("Tags", js_or (prop "Tags" item) (prop "tags" item));
    ("activity_id", prop "activity_id" item) ].

(** [{ Activity: ..., ..., activity_id: ..., ...item }]: the spread comes
    last, so every property the item has overwrites the one written out. *)
Definition normalize (item : gmap string value) : gmap string value :=
  item ∪ list_to_map (uppercase_properties item).

Definition normalizedData (data : list (gmap string value))
  : list (gmap string value) :=
  List.map normalize data.

(** The two casing forms of each field the normalisation looks at. *)
Definition casing_pairs : list (string * string) :=
  [ ("Activity", "activity"); ("Category", "category"); ("Date", "date");
    ("Start_Time", "start_time"); ("End_Time", "end_time");
    ("Notes", "notes"); ("Points", "points"); ("Tags", "tags") ].

(** The specification's words: the record exposes both casing forms of
    each field. *)
Definition exposes_both_forms (item : gmap string value) : Prop :=
  forall upper lower, In (upper, lower) casing_pairs ->
    is_Some (item !! upper) /\ is_Some (item !! lower).

(** ** The colour scheme hook ([useColorScheme], src/services/dashboard.ts
    17-24) *)

Inductive ColorSchemeName : Type := light | dark.

(** [native] is what React Native's [useColorScheme] returns: a scheme,
    or [None] for null/undefined. *)
Definition useColorScheme (native : option ColorSchemeName) : ColorSchemeName :=
  let colorScheme := default light native in
  light.

(** ** The points API ([getTotalPoints], [purchaseReward],
    [getAvailableRewards], src/services/points-api.ts 104-288) *)

(** A parsed JSON document. *)
#[warnings="-register-all"]
Inductive json : Type :=
| JNull : json
| JBool (b : bool) : json
| JNum (q : Q) : json
| JStr (s : string) : json
| JArr (items : list json) : json
| JObj (fields : list (string * json)) : json.

(** An error value: its name and its message. *)
Record error : Type := Error { name : string; message : string }.

(** A response as the three functions below use it: the status line and
    what [response.json()] settles to (a rejection is a parse failure). *)
Record Response : Type := mkResponse {
  status : Z;
  json_body : Outcome json error
}.

(** [response.ok] *)
Definition ok (response : Response) : bool :=
  (200 <=? status response) && (status response <=? 299).

(** Sequencing inside a [try] block, and [try ... catch]. *)
Definition bind {A B E} (c : Completion A E) (k : A -> Completion B E)
  : Completion B E :=
  match c with Return a => k a | Throw e => Throw e end.

Definition try_catch {A E E'} (body : Completion A E)
    (handler : E -> Completion A E') : Completion A E' :=
  match body with Return a => Return a | Throw e => handler e end.

(** [await p] *)
Definition await {A E} (p : Outcome A E) : Completion A E :=
  match p with Resolve a => Return a | Reject e => Throw e end.

Notation "'do' x <- c ; k" := (bind c (fun x => k))
  (at level 10, x name, c at level 100, k at level 200).

(** [data.key] on a parsed document; [None] is [undefined].  Reading a
    property of [null] throws; the keys read below exist on no
    primitive and on no array.  (A parsed object has each key once.) *)
Definition get_property (key : string) (doc : json)
  : Completion (option json) error :=
  match doc with
  | JNull => Throw (Error "TypeError" "Cannot read properties of null")
  | JObj fields =>
      Return (snd <$> List.find (fun kv => String.eqb (fst kv) key) fields)
  | _ => Return None
  end.

(** [getTotalPoints]; [fetched] is what [fetch(...)] settles to. *)
Definition getTotalPoints (fetched : Outcome Response error)
  : Completion (option json) error :=
  try_catch
    (do response <- await fetched;
     do data <- await (json_body response);
     do total_points <- get_property "total_points" data;
     Return total_points)
    (fun _ => Return (Some (JNum 1250))).

Definition reward (id : Z) (name description : string) (points_cost : Z) : json :=
  JObj [ ("id", JNum (inject_Z id)); ("name", JStr name);
         ("points_cost", JNum (inject_Z points_cost));
         ("description", JStr description) ].

(** The mock list both fallbacks of [getAvailableRewards] return. *)
Definition mockRewards : json :=
  JArr [ reward 1 "Netflix movie night" "Two hours of Netflix with snacks" 300;
         reward 2 "Sleep in" "Sleep in an extra hour on a weekday" 500;
         reward 3 "Restaurant dinner" "Dinner at a restaurant of your choice" 1000;
         reward 4 "Video game session" "One hour of guilt-free gaming" 200 ].

(** [Array.isArray] *)
Definition isArray (v : option json) : bool :=
  match v with Some (JArr _) => true | _ => false end.

(** [getAvailableRewards] *)
Definition getAvailableRewards (fetched : Outcome Response error)
  : Completion (option json) error :=
  try_catch
    (do response <- await fetched;
     do data <- await (json_body response);
     do rewards <- get_property "rewards" data;
     if isArray rewards then Return rewards else Return (Some mockRewards))
    (fun _ => Return (Some mockRewards)).

(** [purchaseReward]: the handler throws what it caught. *)
Definition purchaseReward (fetched : Outcome Response error)
  : Completion json error :=
  try_catch
    (do response <- await fetched;
     do result <- await (json_body response);
     Return result)
    (fun e => Throw e).

(** The failures of the specification's taxonomy. *)
Definition network_failure (fetched : Outcome Response error) : Prop :=
  exists e, fetched = Reject e.

Definition non_2xx (fetched : Outcome Response error) : Prop :=
  exists response, fetched = Resolve response /\ ok response = false.

Definition parse_failure (fetched : Outcome Response error) : Prop :=
  exists response e, fetched = Resolve response /\ json_body response = Reject e.

(** The response parsed, but the expected key is missing. *)
Definition shape_mismatch (key : string) (fetched : Outcome Response error) : Prop :=
  exists response fields,
    fetched = Resolve response /\
    json_body response = Resolve (JObj fields) /\
    List.find (fun kv => String.eqb (fst kv) key) fields = None.

(** ** The runtime's builtins *)

(** The library functions the screens call.  They are not code of this
    repository; the definitions below take them as they are, and the
    theorems hold for every engine unless they say otherwise. *)
Class Engine : Type := {
  (** [s.toLowerCase()] *)
  toLowerCase : string -> string;
  (** [s.trim()] *)
  trim : string -> string;
  (** [a.localeCompare(b)]: negative, zero or positive *)
  localeCompare : string -> string -> Z;
  (** [new Date(v).getTime()], NaN for an invalid date *)
  Date_getTime : value -> time;
  (** [d.setHours(23, 59, 59, 999)] on a valid date: the end of its
      local day *)
  setHours_endOfDay : Z -> Z;
  (** [d.toLocaleDateString(undefined, { year: 'numeric', month: 'long',
      day: 'numeric' })] *)
  toLocaleDateString : time -> string;
  (** [String(v)] *)
  ToString : value -> string;
  (** [Number(s)] on a string *)
  StringToNumber : string -> number
}.

(** ** Strings and arrays *)

(** Is [p] a prefix of [s]? *)
Fixpoint startsWith (s p : string) {struct p} : bool :=
  match p, s with
  | EmptyString, _ => true
  | String c p', String d s' => Ascii.eqb c d && startsWith s' p'
  | String _ _, EmptyString => false
  end.

(** [s.includes(sub)]: [sub] occurs somewhere in [s]. *)
Fixpoint includes (s sub : string) : bool :=
  startsWith s sub ||
  match s with
  | EmptyString => false
  | String _ s' => includes s' sub
  end.

(** [s.split(sep)] for a one-character separator; [''.split(',')] is
    [['']]. *)
Fixpoint split (sep : ascii) (s : string) : list string :=
  match s with
  | EmptyString => [""]
  | String c s' =>
      if Ascii.eqb c sep then "" :: split sep s'
      else match split sep s' with
           | [] => [String c ""]
           | piece :: pieces => String c piece :: pieces
           end
  end.

(** [array.includes(x)] on an array of strings. *)
Definition array_includes (l : list string) (x : string) : bool :=
  existsb (String.eqb x) l.

(** The comparator's numeric result as [Array.prototype.sort] reads it:
    NaN counts as +0. *)
Definition comparator_result (c : option Z) : Z := default 0 c.

(** [Array.prototype.sort(cmp)].  ECMAScript asks for a stable sort; for
    a consistent comparator every conforming engine returns the same
    array, the one built here by stable insertion (an element goes in
    front of the first one it does not compare greater than).  For an
    inconsistent comparator engines may differ in the order; all of them
    return a permutation. *)
Fixpoint sort_insert {A} (cmp : A -> A -> option Z) (x : A) (l : list A)
  : list A :=
  match l with
  | [] => [x]
  | y :: l' =>
      if comparator_result (cmp x y) <=? 0 then x :: y :: l'
      else y :: sort_insert cmp x l'
  end.

Definition Array_sort {A} (cmp : A -> A -> option Z) (l : list A) : list A :=
  fold_right (sort_insert cmp) [] l.

(** For the comparator, [x] may stand before [y]: it does not compare
    greater. *)
Definition may_precede {A} (cmp : A -> A -> option Z) (x y : A) : Prop :=
  comparator_result (cmp x y) <= 0.

(** ** Activities (the [Activity] type of components/ActivityForm.tsx) *)

(** The fields the type declares, and the lower-case forms the screen
    also reads.  String fields are optional strings, [Points] an
    optional number, the times [number | string]. *)
Record Activity : Type := mkActivity {
  a_Activity : option string;
  a_Category : option string;
  a_Category_Points_Lambda : option number;
  a_Date : option string;
  a_End_Time : value;
  a_Notes : option string;
  a_Points : option number;
  a_Start_Time : value;
  a_Tags : option string;
  a_activity_id : option Z;
  a_activity : option string;
  a_category : option string;
  a_date : option string;
  a_notes : option string;
  a_points : option number;
  a_tags : option string
}.

(** The [DateRange] and [ActivityFilters] of components/FilterBar.tsx. *)
Record DateRange : Type := mkDateRange {
  startDate : option string;
  endDate : option string
}.

Record ActivityFilters : Type := mkFilters {
  categories : option (list string);
  activities : option (list string);
  tags : option (list string);
  dateRange : option DateRange;
  minPoints : option number
}.

(** [{}] *)
Definition noFilters : ActivityFilters := mkFilters None None None None None.

(** ** Filtering ([filteredActivities], src/app/(tabs)/logging.tsx 277-364) *)

Definition activityName (activity : Activity) : option string :=
  or_str (a_Activity activity) (a_activity activity).

Definition categoryName (activity : Activity) : option string :=
  or_str (a_Category activity) (a_category activity).

Definition tagsValue (activity : Activity) : string :=
  or_empty (or_str (a_Tags activity) (a_tags activity)).

Definition notesValue (activity : Activity) : string :=
  or_empty (or_str (a_Notes activity) (a_notes activity)).

Definition dateValue (activity : Activity) : option string :=
  or_str (a_Date activity) (a_date activity).

(** ToBoolean on an optional number. *)
Definition truthy_optnum (o : option number) : bool :=
  match o with Some n => truthy_number n | None => false end.

(** [activity.Points || activity.points || 0] *)
Definition pointsValue (activity : Activity) : number :=
  if truthy_optnum (a_Points activity) then default (Fin 0) (a_Points activity)
  else if truthy_optnum (a_points activity)
       then default (Fin 0) (a_points activity)
  else Fin 0.

(** [!activity || !activityName || !categoryName] is false. *)
Definition hasRequiredFields (activity : Activity) : bool :=
  truthy_opt (activityName activity) && truthy_opt (categoryName activity).

(** A string known to be truthy, as a string. *)
Definition str (o : option string) : string := default "" o.

(** The text search block: true unless it returns false. *)
Definition search_ok `{Engine} (searchQuery : string) (activity : Activity)
  : bool :=
  if truthy_string searchQuery then
    let searchLower := toLowerCase searchQuery in
    let matchesActivity :=
      includes (toLowerCase (str (activityName activity))) searchLower in
    let matchesCategory :=
      includes (toLowerCase (str (categoryName activity))) searchLower in
    let matchesTags := includes (toLowerCase (tagsValue activity)) searchLower in
    let matchesNotes := includes (toLowerCase (notesValue activity)) searchLower in
    matchesActivity || matchesCategory || matchesTags || matchesNotes
  else true.

(** [selection && selection.length > 0] *)
Definition selected (selection : option (list string)) : bool :=
  match selection with
  | Some (_ :: _) => true
  | _ => false
  end.

(** The categories block. *)
Definition categories_ok (filters : ActivityFilters) (activity : Activity)
  : bool :=
  if selected (categories filters) then
    array_includes (default [] (categories filters)) (str (categoryName activity))
  else true.

(** The activities block. *)
Definition activities_ok (filters : ActivityFilters) (activity : Activity)
  : bool :=
  if selected (activities filters) then
    array_includes (default [] (activities filters)) (str (activityName activity))
  else true.

(** [filters.dateRange?.startDate] *)
Definition range_start (filters : ActivityFilters) : option string :=
  match dateRange filters with
  | Some range => startDate range
  | None => None
  end.

(** [filters.dateRange.endDate], read once the start date is known to be
    there. *)
Definition range_end (filters : ActivityFilters) : option string :=
  match dateRange filters with
  | Some range => endDate range
  | None => None
  end.

(** [new Date(s)] followed by [setHours(23, 59, 59, 999)]; an invalid
    date stays invalid. *)
Definition endOfDay `{Engine} (s : string) : time :=
  setHours_endOfDay <$> Date_getTime (VStr s).

(** The date range block.  [activityDate] is [None] for the [null] of a
    record without a date; a [Date] object is always truthy, also an
    invalid one. *)
Definition dateRange_ok `{Engine} (filters : ActivityFilters)
    (activity : Activity) : bool :=
  if truthy_opt (range_start filters) then
    let activityDate : option time :=
      if truthy_opt (dateValue activity)
      then Some (Date_getTime (VStr (str (dateValue activity))))
      else None in
    let startDate := Date_getTime (VStr (str (range_start filters))) in
    match activityDate with
    | None => false
    | Some activityDate =>
        if time_lt activityDate startDate then false
        else if truthy_opt (range_end filters) then
          negb (time_lt (endOfDay (str (range_end filters))) activityDate)
        else true
    end
  else true.

(** [filters.minPoints] is truthy. *)
Definition minPoints_set (filters : ActivityFilters) : bool :=
  match minPoints filters with
  | Some n => truthy_number n
  | None => false
  end.

(** The points block. *)
Definition minPoints_ok (filters : ActivityFilters) (activity : Activity)
  : bool :=
  if minPoints_set filters then
    negb (number_lt (pointsValue activity)
                    (default NaN (minPoints filters)))
  else true.

(** [tagsValue.split(',').map(tag => tag.trim())] *)
Definition activityTags `{Engine} (activity : Activity) : list string :=
  List.map trim (split "," (tagsValue activity)).

(** The tags block. *)
Definition tags_ok `{Engine} (filters : ActivityFilters) (activity : Activity)
  : bool :=
  if selected (tags filters) then
    if negb (truthy_string (tagsValue activity)) then false
    else existsb (fun filterTag => array_includes (activityTags activity) filterTag)
                 (default [] (tags filters))
  else true.

(** The callback of [activities.filter]. *)
Definition keepActivity `{Engine} (searchQuery : string)
    (filters : ActivityFilters) (activity : Activity) : bool :=
  if negb (hasRequiredFields activity) then false
  else if negb (search_ok searchQuery activity) then false
  else if negb (categories_ok filters activity) then false
  else if negb (activities_ok filters activity) then false
  else if negb (dateRange_ok filters activity) then false
  else if negb (minPoints_ok filters activity) then false
  else if negb (tags_ok filters activity) then false
  else true.

Definition filteredActivities `{Engine} (activities : list Activity)
    (searchQuery : string) (filters : ActivityFilters) : list Activity :=
  List.filter (keepActivity searchQuery filters) activities.

(** *** What the filter dimensions ask of a record *)

(** [sub] occurs in [s]. *)
Definition occurs_in (sub s : string) : Prop :=
  exists before after, s = (before ++ sub ++ after)%string.

(** No dimension of the filter set is active: no multi-select has a
    value, no start date is set, no minimum is set. *)
Definition no_active_filter (filters : ActivityFilters) : Prop :=
  (categories filters = None \/ categories filters = Some []) /\
  (activities filters = None \/ activities filters = Some []) /\
  (tags filters = None \/ tags filters = Some []) /\
  truthy_opt (range_start filters) = false /\
  minPoints_set filters = false.

(** The text query, when there is one, occurs in the name, the category,
    the tags or the notes, letter case aside. *)
Definition satisfies_query `{Engine} (searchQuery : string)
    (activity : Activity) : Prop :=
  searchQuery <> "" ->
  exists field,
    In field [ str (activityName activity); str (categoryName activity);
               tagsValue activity; notesValue activity ] /\
    occurs_in (toLowerCase searchQuery) (toLowerCase field).

(** A multi-select with values chosen is satisfied by a record whose
    key is one of them. *)
Definition satisfies_selection (selection : option (list string))
    (key : option string) : Prop :=
  forall chosen, selection = Some chosen -> chosen <> [] ->
  exists c, In c chosen /\ key = Some c.

(** The tags multi-select is satisfied by a record that has tags, one of
    which is among the chosen ones. *)
Definition satisfies_tags `{Engine} (filters : ActivityFilters)
    (activity : Activity) : Prop :=
  forall chosen, tags filters = Some chosen -> chosen <> [] ->
  tagsValue activity <> "" /\
  exists t, In t chosen /\ In t (activityTags activity).

(** What the date block lets through, read off the block: nothing is
    asked without a start date; with one, the record has a date whose
    timestamp does not compare below that of the start nor, when an end
    date is set too, above the end of that day.  Timestamps compare as
    JavaScript numbers do, so an invalid date compares neither below
    nor above anything and passes.  This is the block, not the
    specification: see [within_dateRange]. *)
Definition passes_dateRange `{Engine} (filters : ActivityFilters)
    (activity : Activity) : Prop :=
  forall start, range_start filters = Some start -> start <> "" ->
  exists d, dateValue activity = Some d /\ d <> "" /\
    time_lt (Date_getTime (VStr d)) (Date_getTime (VStr start)) = false /\
    (forall finish, range_end filters = Some finish -> finish <> "" ->
       time_lt (endOfDay finish) (Date_getTime (VStr d)) = false).

(** The minimum, when set, is not above the record's points. *)
Definition satisfies_minPoints (filters : ActivityFilters)
    (activity : Activity) : Prop :=
  forall m, minPoints filters = Some m -> truthy_number m = true ->
  number_lt (pointsValue activity) m = false.

(** The date range in the specification's words: a record satisfies the
    chosen range when its date is a valid one that lies on or after the
    start date and on or before the end of the end date, for whichever
    of the two bounds the range gives.  (A bound that is empty or not a
    date asks nothing.) *)
Definition within_dateRange `{Engine} (filters : ActivityFilters)
    (activity : Activity) : Prop :=
  forall range, dateRange filters = Some range ->
    (forall start ts,
       startDate range = Some start -> start <> "" ->
       Date_getTime (VStr start) = Some ts ->
       exists d td, dateValue activity = Some d /\
                    Date_getTime (VStr d) = Some td /\ ts <= td)
    /\ (forall finish tf,
          endDate range = Some finish -> finish <> "" ->
          Date_getTime (VStr finish) = Some tf ->
          exists d td, dateValue activity = Some d /\
                       Date_getTime (VStr d) = Some td /\
                       td <= setHours_endOfDay tf).


(** ** Sorting ([sortActivities], src/app/(tabs)/logging.tsx 192-212) *)

(** [a?.Date ? new Date(a.Date).getTime() : 0] *)
Definition dateKey `{Engine} (a : Activity) : time :=
  if truthy_opt (a_Date a) then Date_getTime (VStr (str (a_Date a)))
  else Some 0.

(** [a?.Start_Time ? (typeof a.Start_Time === 'string' ? a.Start_Time
    : String(a.Start_Time)) : ''] *)
Definition timeKey `{Engine} (a : Activity) : string :=
  if truthy (a_Start_Time a) then
    match a_Start_Time a with
    | VStr s => s
    | other => ToString other
    end
  else "".

(** [x - y] on timestamps; NaN as soon as one of them is. *)
Definition time_sub (x y : time) : option Z :=
  match x, y with
  | Some x, Some y => Some (x - y)
  | _, _ => None
  end.

(** The comparator handed to [sort]. *)
Definition compareActivities `{Engine} (a b : Activity) : option Z :=
  let dateA := dateKey a in
  let dateB := dateKey b in
  let dateComparison := time_sub dateB dateA in
  match dateComparison with
  | Some 0 => Some (localeCompare (timeKey a) (timeKey b))
  | _ => dateComparison
  end.

(** [[...data].sort(...)]; the argument is an array. *)
Definition sortActivities `{Engine} (data : list Activity) : list Activity :=
  Array_sort compareActivities data.

(** [localeCompare] is a consistent comparator: swapping the arguments
    swaps the sign, and "not after" is transitive. *)
Class ConsistentCollation (E : Engine) : Prop := {
  localeCompare_swap : forall s t,
    Z.sgn (localeCompare t s) = - Z.sgn (localeCompare s t);
  localeCompare_trans : forall s t u,
    localeCompare s t <= 0 -> localeCompare t u <= 0 -> localeCompare s u <= 0
}.

(** Every date the list holds is a valid one. *)
Definition dates_valid `{Engine} (l : list Activity) : Prop :=
  Forall (fun a => dateKey a <> None) l.

(** [a] may stand before [b]: its date is later, or the dates are the
    same and its start time does not collate after that of [b]. *)
Definition in_order `{Engine} (a b : Activity) : Prop :=
  exists da db, dateKey a = Some da /\ dateKey b = Some db /\
    (db < da \/ (da = db /\ localeCompare (timeKey a) (timeKey b) <= 0)).

(** Descending by date, ascending by start time within a date. *)
Definition sorted_by_date_then_time `{Engine} (l : list Activity) : Prop :=
  StronglySorted in_order l.

(** [s] does not come after [t] in the lexicographic order of their
    code units. *)
Definition lex_le (s t : string) : Prop := String.compare s t <> Gt.


(** On the start times of the list, [localeCompare] orders as the
    lexicographic order does. *)
Definition lexicographic_on `{Engine} (l : list Activity) : Prop :=
  forall a b, In a l -> In b l ->
    (localeCompare (timeKey a) (timeKey b) <= 0
     <-> lex_le (timeKey a) (timeKey b)).


(** ** Chart data preparers ([prepareMoodData], [prepareSleepMoodData],
    [prepareSleepHoursData], src/app/(tabs)/logging.tsx 1346-1442) *)

(** A mood log is read by property name ([log[property]]), so it is an
    object used as a map; [prop] reads it. *)

(** [Number(v)] on a scalar value. *)
Definition ToNumber `{Engine} (v : value) : number :=
  match v with
  | VUndefined => NaN
  | VNull => Fin 0
  | VBool true => Fin 1
  | VBool false => Fin 0
  | VNum n => n
  | VStr s => StringToNumber s
  end.

(** [v !== undefined] and [v !== null] *)
Definition not_undefined (v : value) : bool :=
  match v with VUndefined => false | _ => true end.

Definition not_null (v : value) : bool :=
  match v with VNull => false | _ => true end.

(** [formatDate]: [toLocaleDateString] does not throw, so the [catch]
    never runs. *)
Definition formatDate `{Engine} (dateString : value) : string :=
  toLocaleDateString (Date_getTime dateString).

(** A point of a line chart: [{ x, y, date }]. *)
Record DatedPoint : Type := mkDatedPoint {
  pt_x : value;
  pt_y : number;
  pt_date : string
}.

(** A point of the sleep/mood scatter chart: [{ x, y, date }]. *)
Record ScatterPoint : Type := mkScatterPoint {
  sc_x : number;
  sc_y : number;
  sc_date : string
}.

(** [isNaN(value) ? 0 : value] *)
Definition zero_if_NaN (n : number) : number :=
  if isNaN n then Fin 0 else n.

(** The comparator of the two date-sorted preparers:
    [isNaN(dateA) || isNaN(dateB) ? 0 : dateA - dateB]. *)
Definition compareLogDates `{Engine} (a b : gmap string value) : option Z :=
  let dateA := Date_getTime (prop "date" a) in
  let dateB := Date_getTime (prop "date" b) in
  match dateA, dateB with
  | Some x, Some y => Some (x - y)
  | _, _ => Some 0
  end.

(** The filter callback of [prepareMoodData] and [prepareSleepHoursData]. *)
Definition field_is_number `{Engine} (property : string)
    (log : gmap string value) : bool :=
  let value := prop property log in
  not_undefined value && not_null value && negb (isNaN (ToNumber value)).

Definition datedPoint `{Engine} (property : string) (log : gmap string value)
  : DatedPoint :=
  let value := ToNumber (prop property log) in
  mkDatedPoint (prop "date" log) (zero_if_NaN value) (formatDate (prop "date" log)).

(** [!logs || logs.length === 0] *)
Definition no_logs (logs : list (gmap string value)) : bool :=
  match logs with [] => true | _ => false end.

Definition prepareMoodData `{Engine} (logs : list (gmap string value))
    (property : string) : list DatedPoint :=
  if no_logs logs then []
  else List.map (datedPoint property)
         (Array_sort compareLogDates
            (List.filter (field_is_number property) logs)).

Definition prepareSleepHoursData `{Engine} (logs : list (gmap string value))
  : list DatedPoint :=
  if no_logs logs then []
  else List.map (datedPoint "sleep_hours")
         (Array_sort compareLogDates
            (List.filter (field_is_number "sleep_hours") logs)).

(** The filter callback of [prepareSleepMoodData]. *)
Definition sleep_and_mood_are_numbers `{Engine} (log : gmap string value)
  : bool :=
  not_undefined (prop "sleep_hours" log) &&
  not_undefined (prop "mood_score" log) &&
  negb (isNaN (ToNumber (prop "sleep_hours" log))) &&
  negb (isNaN (ToNumber (prop "mood_score" log))).

Definition scatterPoint `{Engine} (log : gmap string value) : ScatterPoint :=
  let sleepHours := ToNumber (prop "sleep_hours" log) in
  let moodScore := ToNumber (prop "mood_score" log) in
  mkScatterPoint (zero_if_NaN sleepHours) (zero_if_NaN moodScore)
                 (formatDate (prop "date" log)).

Definition prepareSleepMoodData `{Engine} (logs : list (gmap string value))
  : list ScatterPoint :=
  if no_logs logs then []
  else List.map scatterPoint (List.filter sleep_and_mood_are_numbers logs).

(** The target field of a log is unusable: the key is missing or holds
    [undefined], it holds [null], or it does not convert to a number. *)
Definition field_unusable `{Engine} (property : string)
    (log : gmap string value) : Prop :=
  log !! property = None \/
  log !! property = Some VUndefined \/
  log !! property = Some VNull \/
  ToNumber (prop property log) = NaN.

(** ** An engine to run the definitions on *)

(** A small engine for ASCII text and ISO dates in UTC, used to evaluate
    the definitions on concrete inputs.  On the inputs it accepts it
    agrees with what a JavaScript engine computes in the en-US locale
    and the UTC time zone; what it does not know it rejects (an
    unknown date format is an invalid date, an unknown numeral NaN). *)

Definition ascii_toLowerCase (c : ascii) : ascii :=
  let n := nat_of_ascii c in
  if ((65 <=? n) && (n <=? 90))%nat then ascii_of_nat (n + 32) else c.

Fixpoint ascii_lower (s : string) : string :=
  match s with
  | EmptyString => EmptyString
  | String c s' => String (ascii_toLowerCase c) (ascii_lower s')
  end.

Definition is_space (c : ascii) : bool :=
  let n := nat_of_ascii c in
  ((9 <=? n) && (n <=? 13) || (n =? 32))%nat.

Fixpoint trimStart (s : string) : string :=
  match s with
  | EmptyString => EmptyString
  | String c s' => if is_space c then trimStart s' else s
  end.

Fixpoint trimEnd (s : string) : string :=
  match s with
  | EmptyString => EmptyString
  | String c s' =>
      let rest := trimEnd s' in
      if is_space c && negb (truthy_string rest) then EmptyString
      else String c rest
  end.

Definition ascii_trim (s : string) : string := trimEnd (trimStart s).

(** Comparison by code unit, as a number. *)
Definition codeunit_compare (s t : string) : Z :=
  match String.compare s t with
  | Lt => -1
  | Eq => 0
  | Gt => 1
  end.

Definition digit_of (c : ascii) : option Z :=
  let n := nat_of_ascii c in
  if ((48 <=? n) && (n <=? 57))%nat then Some (Z.of_nat n - 48) else None.

Definition is_digit (c : ascii) : bool :=
  match digit_of c with Some _ => true | None => false end.

Fixpoint digits_from (acc : Z) (s : string) : option Z :=
  match s with
  | EmptyString => Some acc
  | String c s' =>
      match digit_of c with
      | Some d => digits_from (acc * 10 + d) s'
      | None => None
      end
  end.

(** A non-empty run of decimal digits. *)
Definition parse_digits (s : string) : option Z :=
  if truthy_string s then digits_from 0 s else None.

Definition is_leap (y : Z) : bool :=
  (y mod 4 =? 0) && (negb (y mod 100 =? 0) || (y mod 400 =? 0)).

Definition days_in_month (y m : Z) : Z :=
  if m =? 2 then (if is_leap y then 29 else 28)
  else if (m =? 4) || (m =? 6) || (m =? 9) || (m =? 11) then 30
  else 31.

(** Days from 1970-01-01 to the given day of the Gregorian calendar. *)
Definition days_from_civil (y m d : Z) : Z :=
  let y' := if m <=? 2 then y - 1 else y in
  let era := y' / 400 in
  let yoe := y' - era * 400 in
  let mp := (m + 9) mod 12 in
  let doy := (153 * mp + 2) / 5 + d - 1 in
  let doe := yoe * 365 + yoe / 4 - yoe / 100 + doy in
  era * 146097 + doe - 719468.

(** The day of the Gregorian calendar, given the days from 1970-01-01. *)
Definition civil_from_days (z : Z) : Z * Z * Z :=
  let z' := z + 719468 in
  let era := z' / 146097 in
  let doe := z' - era * 146097 in
  let yoe := (doe - doe / 1460 + doe / 36524 - doe / 146096) / 365 in
  let doy := doe - (365 * yoe + yoe / 4 - yoe / 100) in
  let mp := (5 * doy + 2) / 153 in
  let d := doy - (153 * mp + 2) / 5 + 1 in
  let m := if mp <? 10 then mp + 3 else mp - 9 in
  let y := yoe + era * 400 in
  (if m <=? 2 then y + 1 else y, m, d).

Definition msPerDay : Z := 86400000.

(** The date-only form [YYYY-MM-DD] of the ECMAScript date-time string
    format, read as UTC midnight. *)
Definition parse_iso_date (s : string) : time :=
  if (String.length s =? 10)%nat
     && String.eqb (substring 4 1 s) "-" && String.eqb (substring 7 1 s) "-"
  then
    match parse_digits (substring 0 4 s),
          parse_digits (substring 5 2 s),
          parse_digits (substring 8 2 s) with
    | Some y, Some m, Some d =>
        if (1 <=? m) && (m <=? 12) && (1 <=? d) && (d <=? days_in_month y m)
        then Some (days_from_civil y m d * msPerDay)
        else None
    | _, _, _ => None
    end
  else None.

(** [new Date(v).getTime()] *)
Definition ascii_Date_getTime (v : value) : time :=
  match v with
  | VStr s => parse_iso_date s
  | VNum (Fin q) =>
      let t := Z.quot (Qnum q) (Zpos (Qden q)) in
      if Z.abs t <=? 8640000000000000 then Some t else None
  | VNum _ => None
  | VNull => Some 0
  | VBool true => Some 1
  | VBool false => Some 0
  | VUndefined => None
  end.

Definition utc_endOfDay (t : Z) : Z := t - t mod msPerDay + (msPerDay - 1).

Definition month_name (m : Z) : string :=
  nth (Z.to_nat (m - 1))
      [ "January"; "February"; "March"; "April"; "May"; "June"; "July";
        "August"; "September"; "October"; "November"; "December" ] "".

Definition decimal (z : Z) : string := NilZero.string_of_int (Z.to_int z).

Definition enUS_long_date (t : time) : string :=
  match t with
  | None => "Invalid Date"
  | Some t =>
      let '(y, m, d) := civil_from_days (t / msPerDay) in
      (month_name m ++ " " ++ decimal d ++ ", " ++ decimal y)%string
  end.

(** The digits after the decimal point of [num / den], [num < den]. *)
Fixpoint fraction_digits (fuel : nat) (num den : Z) : string :=
  match fuel with
  | O => EmptyString
  | S fuel' =>
      if num =? 0 then EmptyString
      else (decimal (num * 10 / den)
            ++ fraction_digits fuel' (num * 10 mod den) den)%string
  end.

Definition decimal_of_Q (q : Q) : string :=
  let den := Zpos (Qden q) in
  let whole := Z.quot (Qnum q) den in
  let rest := Z.abs (Z.rem (Qnum q) den) in
  let sign := if (Qnum q <? 0) && (whole =? 0) then "-" else "" in
  if rest =? 0 then decimal whole
  else (sign ++ decimal whole ++ "." ++ fraction_digits 20 rest den)%string.

(** [String(v)] *)
Definition ascii_ToString (v : value) : string :=
  match v with
  | VUndefined => "undefined"
  | VNull => "null"
  | VBool true => "true"
  | VBool false => "false"
  | VNum NaN => "NaN"
  | VNum (Inf true) => "Infinity"
  | VNum (Inf false) => "-Infinity"
  | VNum (Fin q) => decimal_of_Q q
  | VStr s => s
  end.

(** [Number(s)]: blank is 0; an optional sign and decimal digits. *)
Definition ascii_StringToNumber (s : string) : number :=
  let t := ascii_trim s in
  if negb (truthy_string t) then Fin 0
  else
    match t with
    | String "-" digits =>
        match parse_digits digits with
        | Some z => Fin (inject_Z (- z))
        | None => NaN
        end
    | _ =>
        match parse_digits t with
        | Some z => Fin (inject_Z z)
        | None => NaN
        end
    end.

Definition ascii_engine : Engine := {|
  toLowerCase := ascii_lower;
  trim := ascii_trim;
  localeCompare := codeunit_compare;
  Date_getTime := ascii_Date_getTime;
  setHours_endOfDay := utc_endOfDay;
  toLocaleDateString := enUS_long_date;
  ToString := ascii_ToString;
  StringToNumber := ascii_StringToNumber
|}.






(** A codec to run the cache on: the payload is a text, an entry is
    written as its timestamp in decimal, a colon, and the text. *)
Definition text_stringify (e : CacheEntry string) : string :=
  (decimal (timestamp e) ++ ":" ++ data e)%string.

Definition text_parse (s : string) : option (CacheEntry string) :=
  match index 0 ":" s with
  | Some i =>
      match NilZero.int_of_string (substring 0 i s) with
      | Some t =>
          Some (mkEntry (Z.of_int t)
                        (substring (S i) (String.length s - S i) s))
      | None => None
      end
  | None => None
  end.

Definition text_codec : JsonCodec string := {|
  JSON_stringify := text_stringify;
  JSON_parse := text_parse
|}.

(** The failure policy in the specification's words: on any failure the
    two reads return their fallback and the purchase throws. *)
Definition any_failure (fetched : Outcome Response error) : Prop :=
  network_failure fetched \/ non_2xx fetched \/ parse_failure fetched \/
  shape_mismatch "total_points" fetched.

Definition failure_policy_as_specified (fetched : Outcome Response error)
  : Prop :=
  any_failure fetched ->
  getTotalPoints fetched = Return (Some (JNum 1250)) /\
  getAvailableRewards fetched = Return (Some mockRewards) /\
  exists e, purchaseReward fetched = Throw e.

(** ** Sample data *)

Definition morningRun : Activity := {|
  a_Activity := Some "Morning run";
  a_Category := Some "Exercise";
  a_Category_Points_Lambda := None;
  a_Date := Some "2025-04-02";
  a_End_Time := VStr "08:00";
  a_Notes := Some "5k along the river";
  a_Points := Some (Fin 50);
  a_Start_Time := VStr "07:30";
  a_Tags := Some "cardio, outdoors";
  a_activity_id := Some 1;
  a_activity := None; a_category := None; a_date := None;
  a_notes := None; a_points := None; a_tags := None
|}.

Definition eveningRead : Activity := {|
  a_Activity := Some "Reading";
  a_Category := Some "Learning";
  a_Category_Points_Lambda := None;
  a_Date := Some "2025-04-02";
  a_End_Time := VStr "21:30";
  a_Notes := Some "";
  a_Points := Some (Fin 20);
  a_Start_Time := VStr "21:00";
  a_Tags := Some "books";
  a_activity_id := Some 2;
  a_activity := None; a_category := None; a_date := None;
  a_notes := None; a_points := None; a_tags := None
|}.

(** A record the server sent without a category. *)
Definition uncategorised : Activity := {|
  a_Activity := Some "Stretching";
  a_Category := None;
  a_Category_Points_Lambda := None;
  a_Date := Some "2025-04-03";
  a_End_Time := VStr "07:10";
  a_Notes := None;
  a_Points := Some (Fin 5);
  a_Start_Time := VStr "07:00";
  a_Tags := None;
  a_activity_id := Some 3;
  a_activity := None; a_category := None; a_date := None;
  a_notes := None; a_points := None; a_tags := None
|}.





(** A record whose identifier is 2^53. *)
Definition hugeId : Activity := {|
  a_Activity := Some "Import";
  a_Category := Some "Admin";
  a_Category_Points_Lambda := None;
  a_Date := Some "2025-04-02";
  a_End_Time := VStr "12:30";
  a_Notes := None;
  a_Points := None;
  a_Start_Time := VStr "12:00";
  a_Tags := None;
  a_activity_id := Some 9007199254740992;
  a_activity := None; a_category := None; a_date := None;
  a_notes := None; a_points := None; a_tags := None
|}.




Definition exerciseCardio : ActivityFilters := {|
  categories := Some ["Exercise"; "Health"];
  activities := None;
  tags := Some ["cardio"];
  dateRange := Some (mkDateRange (Some "2025-04-01") (Some "2025-04-02"));
  minPoints := Some (Fin 10)
|}.

(** A mood log as the server sends it when no sleep was recorded. *)
Definition nullSleepLog : gmap string value :=
  {[ "date" := VStr "2025-04-01";
     "mood_score" := VNum (Fin 7);
     "sleep_hours" := VNull ]}.

Definition fullLog : gmap string value :=
  {[ "date" := VStr "2025-03-31";
     "mood_score" := VNum (Fin 6);
     "sleep_hours" := VNum (Fin (15 # 2)) ]}.

(* ===================================================================== *)
(** * Further functions of the same files                                 *)
(* ===================================================================== *)

(** ** The activities API ([fetchActivities], [createActivity],
    src/services/points-api.ts 1347-1626) *)

(** A response whose body is read as text: status line and what
    [response.text()] settles to. *)
Record RawResponse : Type := mkRaw {
  raw_status : Z;
  raw_statusText : string;
  raw_text : Outcome string error
}.

(** [response.ok], and [xhr.status >= 200 && xhr.status < 300] *)
Definition raw_ok (response : RawResponse) : bool :=
  (200 <=? raw_status response) && (raw_status response <=? 299).

(** What the activities API takes from the runtime: the codec of the
    cache, [JSON.parse] on a response text (it throws on bad input),
    the day of a timestamp as [new Date(t).toISOString().split('T')[0]]
    gives it, and [String(v)] on a parsed value. *)
Class ActivitiesRuntime : Type := {
  activities_codec : JsonCodec (list json);
  JSON_parse_text : string -> Completion json error;
  toISODate : Z -> string;
  String_of_json : json -> string
}.
#[global] Existing Instance activities_codec.

(** [array.length > 0] *)
Definition nonempty {A} (l : list A) : bool :=
  match l with [] => false | _ => true end.

(** [Error.prototype.toString], as a template literal prints an error. *)
Definition error_toString (e : error) : string :=
  if negb (truthy_string (name e)) then message e
  else if negb (truthy_string (message e)) then name e
  else (name e ++ ": " ++ message e)%string.

(** The record [fetchActivities] makes up when the request failed and
    the cache has nothing. *)
Definition testData `{ActivitiesRuntime} (now : Z) : list json :=
  [ JObj [ ("Activity", JStr "Test Activity");
           ("Category", JStr "Test Category");
           ("Date", JStr (toISODate now));
           ("Start_Time", JStr "09:00");
           ("End_Time", JStr "10:00");
           ("Points", JNum 10);
           ("Notes",
            JStr "This is a test activity created when the API call failed");
           ("Tags", JStr "test,debug");
           ("activity_id", JNum 9999) ] ].

(** The inner [try] block of [fetchActivities]: request, status check,
    parse, and the reading of the parsed document.  Only a non-empty
    array is written to the cache. *)
Definition fetchFromServer `{ActivitiesRuntime} (later : Z)
    (fetched : Outcome RawResponse error) (storage : gmap string string)
  : Completion (list json * gmap string string) error :=
  do response <- await fetched;
  if negb (raw_ok response) then
    Throw (Error "Error"
             ("API returned status " ++ decimal (raw_status response)
              ++ ": " ++ raw_statusText response))
  else
    do text <- await (raw_text response);
    do data <- JSON_parse_text text;
    match data with
    | JArr items =>
        Return (items,
                if nonempty items then saveToCache later items storage
                else storage)
    | JObj fields =>
        match List.find (fun kv => String.eqb (fst kv) "activities") fields with
        | Some (_, JArr items) => Return (items, storage)
        | _ => Return ([], storage)
        end
    | _ => Return ([], storage)
    end.

(** The [catch] of the inner block: the cache once more, then the test
    record. *)
Definition fetchFallback `{ActivitiesRuntime} (later : Z)
    (storage : gmap string string)
  : Completion (list json * gmap string string) error :=
  match getFromCache later storage with
  | Some cachedData =>
      if nonempty cachedData then Return (cachedData, storage)
      else Return (testData later, storage)
  | None => Return (testData later, storage)
  end.

(** [fetchActivities(forceRefresh, limit, offset)].  [now] is the clock
    at the first look into the cache, [later] the clock once the
    request has settled; [fetched] is what [fetchWithTimeout] settles
    to.  The result comes with the storage as the call leaves it.
    ([limit] and [offset] only go into the URL.) *)
Definition fetchActivities `{ActivitiesRuntime} (forceRefresh : bool)
    (now later : Z) (fetched : Outcome RawResponse error)
    (storage : gmap string string)
  : Completion (list json) error * gmap string string :=
  let body : Completion (list json * gmap string string) error :=
    match (if forceRefresh then None else getFromCache now storage) with
    | Some cachedData => Return (cachedData, storage)
    | None =>
        try_catch (fetchFromServer later fetched storage)
                  (fun fetchError => fetchFallback later storage)
    end in
  match try_catch body (fun _ => Return ([], storage)) with
  | Return (activities, storage') => (Return activities, storage')
  | Throw e => (Throw e, storage)
  end.

(** The request of [fetchActivities] failed: no response, a status
    outside 2xx, no text, or a text that is not JSON. *)
Definition fetch_failed `{ActivitiesRuntime}
    (fetched : Outcome RawResponse error) : Prop :=
  match fetched with
  | Reject _ => True
  | Resolve response =>
      raw_ok response = false \/
      match raw_text response with
      | Reject _ => True
      | Resolve text => exists e, JSON_parse_text text = Throw e
      end
  end.

(** The server answered 2xx with the JSON array [items]. *)
Definition fetched_array `{ActivitiesRuntime}
    (fetched : Outcome RawResponse error) (items : list json) : Prop :=
  exists response text,
    fetched = Resolve response /\ raw_ok response = true /\
    raw_text response = Resolve text /\
    JSON_parse_text text = Return (JArr items).

(** A call as the screens make it, [() => fetchActivities(...)], seen
    as the operation [withRetry] is given: the [i]-th invocation meets
    the [i]-th environment. *)
Record FetchEnv : Type := mkFetchEnv {
  env_now : Z;
  env_later : Z;
  env_fetched : Outcome RawResponse error;
  env_storage : gmap string string
}.

Definition settle {T E} (c : Completion T E) : Outcome T E :=
  match c with Return v => Resolve v | Throw e => Reject e end.

Definition fetchActivities_call `{ActivitiesRuntime} (forceRefresh : bool)
    (envs : nat -> FetchEnv) (i : nat) : Outcome (list json) error :=
  settle (fst (fetchActivities forceRefresh (env_now (envs i))
                 (env_later (envs i)) (env_fetched (envs i))
                 (env_storage (envs i)))).

(** [createActivity] *)

Definition requiredFields : list string :=
  [ "Activity"; "Category"; "Date"; "Start_Time"; "End_Time" ].

(** [requiredFields.filter(field => !activity[field])] *)
Definition missingFields (activity : gmap string value) : list string :=
  List.filter (fun field => negb (truthy (prop field activity))) requiredFields.

(** [array.join(sep)] on strings *)
Fixpoint join (sep : string) (l : list string) : string :=
  match l with
  | [] => ""
  | [s] => s
  | s :: rest => (s ++ sep ++ join sep rest)%string
  end.

(** ToBoolean on a parsed document. *)
Definition truthy_json (v : json) : bool :=
  match v with
  | JNull => false
  | JBool b => b
  | JNum q => negb (Qeq_bool q 0)
  | JStr s => truthy_string s
  | JArr _ | JObj _ => true
  end.

(** [data.key] where [data] is known not to be null or undefined. *)
Definition field_of (key : string) (data : json) : option json :=
  match data with
  | JObj fields =>
      snd <$> List.find (fun kv => String.eqb (fst kv) key) fields
  | _ => None
  end.

(** [data && data.activity], as the activity it yields. *)
Definition returned_activity (data : json) : option json :=
  if truthy_json data then
    match field_of "activity" data with
    | Some a => if truthy_json a then Some a else None
    | None => None
    end
  else None.

(** The message of [new Error(data?.message || `API error: ${status}`)]. *)
Definition api_error_message `{ActivitiesRuntime} (data : json) (status : Z)
  : string :=
  match field_of "message" data with
  | Some m =>
      if truthy_json m then
        match m with JStr s => s | other => String_of_json other end
      else ("API error: " ++ decimal status)%string
  | None => ("API error: " ++ decimal status)%string
  end.

(** How the request of [createActivity] goes: on the web through an
    [XMLHttpRequest], whose events are a timeout, an error or a load;
    elsewhere through [fetch]. *)
Inductive XhrEvent : Type :=
| XhrTimeout : XhrEvent
| XhrError : XhrEvent
| XhrLoad (xhr_status : Z) (responseText : string) : XhrEvent.

Inductive Transport : Type :=
| ViaXhr (ev : XhrEvent) : Transport
| ViaFetch (fetched : Outcome RawResponse error) : Transport.

(** What [createActivity] resolves to: the activity of the response, or
    the submitted one with [status] and [message] added. *)
Inductive Created : Type :=
| ServerActivity (activity : json) : Created
| FallbackActivity (activity : gmap string value) : Created.

(** From the response text on, both paths do the same: parse, then look
    at the status, then invalidate the cache and resolve. *)
Definition afterResponse `{ActivitiesRuntime} (activity : gmap string value)
    (status : Z) (text : string) (storage : gmap string string)
  : Completion Created error * gmap string string :=
  match JSON_parse_text text with
  | Throw e =>
      (Throw (Error "Error"
                ("Failed to parse response: " ++ error_toString e)), storage)
  | Return data =>
      if (200 <=? status) && (status <? 300) then
        match returned_activity data with
        | Some newActivity =>
            (Return (ServerActivity newActivity), delete CACHE_KEY storage)
        | None =>
            (Return (FallbackActivity
                       (<["message" :=
                            VStr "Activity added (server response was empty)"]>
                          (<["status" := VStr "success"]> activity))),
             delete CACHE_KEY storage)
        end
      else (Throw (Error "Error" (api_error_message data status)), storage)
  end.

Definition createActivity `{ActivitiesRuntime} (activity : gmap string value)
    (transport : Transport) (storage : gmap string string)
  : Completion Created error * gmap string string :=
  if nonempty (missingFields activity) then
    (Throw (Error "Error"
              ("Missing required fields: "
               ++ join ", " (missingFields activity))), storage)
  else
    match transport with
    | ViaXhr XhrTimeout =>
        (Throw (Error "Error" "Request timed out after 10 seconds"), storage)
    | ViaXhr XhrError =>
        (Throw (Error "Error" "Network error - check if the server is running"),
         storage)
    | ViaXhr (XhrLoad status responseText) =>
        afterResponse activity status responseText storage
    | ViaFetch (Reject e) => (Throw e, storage)
    | ViaFetch (Resolve response) =>
        match raw_text response with
        | Reject e => (Throw e, storage)
        | Resolve responseText =>
            afterResponse activity (raw_status response) responseText storage
        end
    end.

(** [() => createActivity(newActivity)] as [withRetry] is given it. *)
Definition createActivity_call `{ActivitiesRuntime}
    (activity : gmap string value)
    (envs : nat -> Transport * gmap string string) (i : nat)
  : Outcome Created error :=
  settle (fst (createActivity activity (fst (envs i)) (snd (envs i)))).

(** A runtime to run the activities API on: its documents are arrays of
    strings without quotes or commas inside, written as JSON writes
    them; a cache entry is the timestamp, a colon, and the array. *)

Definition quote : string := String (ascii_of_nat 34) EmptyString.

Definition print_strings (l : list string) : string :=
  ("[" ++ join "," (List.map (fun s => quote ++ s ++ quote) l) ++ "]")%string.

(** A piece between two commas: a text inside quotes. *)
Definition unquote (piece : string) : option string :=
  let n := String.length piece in
  if (2 <=? n)%nat && String.eqb (substring 0 1 piece) quote
     && String.eqb (substring (n - 1) 1 piece) quote
  then Some (substring 1 (n - 2) piece)
  else None.

Definition parse_strings (text : string) : option (list string) :=
  let n := String.length text in
  if (2 <=? n)%nat && String.eqb (substring 0 1 text) "["
     && String.eqb (substring (n - 1) 1 text) "]"
  then
    let inner := substring 1 (n - 2) text in
    if negb (truthy_string inner) then Some []
    else mapM unquote (split "," inner)
  else None.

Definition strings_of (items : list json) : list string :=
  omap (fun item => match item with JStr s => Some s | _ => None end) items.

Definition strings_stringify (e : CacheEntry (list json)) : string :=
  (decimal (timestamp e) ++ ":" ++ print_strings (strings_of (data e)))%string.

Definition strings_parse (s : string) : option (CacheEntry (list json)) :=
  match index 0 ":" s with
  | Some i =>
      match NilZero.int_of_string (substring 0 i s),
            parse_strings (substring (S i) (String.length s - S i) s) with
      | Some t, Some l => Some (mkEntry (Z.of_int t) (List.map JStr l))
      | _, _ => None
      end
  | None => None
  end.

Definition strings_runtime : ActivitiesRuntime := {|
  activities_codec := {| JSON_stringify := strings_stringify;
                         JSON_parse := strings_parse |};
  JSON_parse_text := fun text =>
    match parse_strings text with
    | Some l => Return (JArr (List.map JStr l))
    | None => Throw (Error "SyntaxError" "Unexpected token")
    end;
  toISODate := fun t =>
    let '(y, m, d) := civil_from_days (t / msPerDay) in
    let pad := fun z => if z <? 10 then ("0" ++ decimal z)%string
                        else decimal z in
    (decimal y ++ "-" ++ pad m ++ "-" ++ pad d)%string;
  String_of_json := fun v =>
    match v with
    | JStr s => s
    | JNull => "null"
    | JBool true => "true"
    | JBool false => "false"
    | JNum q => decimal_of_Q q
    | JArr items => join "," (strings_of items)
    | JObj _ => "[object Object]"
    end
|}.

(** A response carrying two activity names, and an activity the form
    sent without a category and with empty times. *)
Definition twoNames : Outcome RawResponse error :=
  Resolve (mkRaw 200 "OK"
             (Resolve (print_strings ["Morning run"; "Reading"]))).

Definition incompleteActivity : gmap string value :=
  {[ "Activity" := VStr "Reading"; "Date" := VStr "2025-04-02";
     "Start_Time" := VStr "" ]}.

(** ** The activity list in the screen's state (logging.tsx 214-274,
    366-529) *)

(** [id] is truthy: there, and not zero. *)
Definition truthy_id (id : option Z) : bool :=
  match id with Some z => negb (z =? 0) | None => false end.

(** [a === b] on two identifiers (two [undefined] are equal). *)
Definition same_id (a b : option Z) : bool :=
  match a, b with
  | Some x, Some y => x =? y
  | None, None => true
  | _, _ => false
  end.

(** [activities.reduce((max, act) => (act.activity_id && act.activity_id
    > max ? act.activity_id : max), 0)]; the same 0 for an empty list. *)
Definition maxId (activities : list Activity) : Z :=
  fold_left
    (fun max act =>
       match a_activity_id act with
       | Some id => if truthy_id (Some id) && (max <? id) then id else max
       | None => max
       end)
    activities 0.

(** The double nearest to an integer, ties to the even significand:
    what an arithmetic result is rounded to.  Every integer of at most
    53 bits is a double; above, the doubles are the multiples of the
    unit in the last place, [2 ^ (Z.log2 z - 52)]. *)
Definition round_to_double (z : Z) : Z :=
  let e := Z.log2 (Z.abs z) - 52 in
  if e <=? 0 then z
  else
    let ulp := 2 ^ e in
    let q := Z.abs z / ulp in
    let r := Z.abs z mod ulp in
    let q' :=
      if 2 * r <? ulp then q
      else if ulp <? 2 * r then q + 1
      else if Z.even q then q else q + 1 in
    Z.sgn z * (q' * ulp).

(** The identifier [handleAddActivity] gives the new activity,
    [maxId + 1] on JavaScript numbers. *)
Definition nextActivityId (activities : list Activity) : Z :=
  round_to_double (maxId activities + 1).

(** The state update of [handleAddActivity]: replace the records that
    carry the identifier of the added one, or put it in front; then
    sort. *)
Definition addToState `{Engine} (addedActivity : Activity)
    (prev : list Activity) : list Activity :=
  let exists_ :=
    existsb (fun a => same_id (a_activity_id a) (a_activity_id addedActivity))
            prev in
  if exists_ then
    sortActivities
      (List.map (fun a => if same_id (a_activity_id a)
                                     (a_activity_id addedActivity)
                          then addedActivity else a) prev)
  else sortActivities (addedActivity :: prev).

(** The state update of [handleDeleteActivity]:
    [prev.filter(activity => activity.activity_id !== activityId)]. *)
Definition removeFromState (activityId : Z) (prev : list Activity)
  : list Activity :=
  List.filter (fun activity =>
                 negb (same_id (a_activity_id activity) (Some activityId)))
              prev.

Definition itemsPerPage : nat := 10.

(** [newItems.filter(item => item.activity_id &&
    !existingIds.has(item.activity_id))] *)
Definition uniqueNewItems (prev newItems : list Activity) : list Activity :=
  List.filter
    (fun item =>
       truthy_id (a_activity_id item) &&
       negb (existsb (fun a => same_id (a_activity_id a) (a_activity_id item))
                     prev))
    newItems.

(** The state update of [loadMoreActivities], for the page [allData] the
    server sent: the first [itemsPerPage] items, less those already
    there.  With nothing to add the state is not touched. *)
Definition mergeMore `{Engine} (allData prev : list Activity)
  : list Activity :=
  let newItems := firstn itemsPerPage allData in
  if negb (nonempty newItems) then prev
  else
    let unique := uniqueNewItems prev newItems in
    if negb (nonempty unique) then prev
    else sortActivities (prev ++ unique).

(** ** The edit diff ([handleUpdateActivity], logging.tsx 448-494) *)

(** [a !== b] is false: strict equality of two scalar values. *)
Definition strict_eq (a b : value) : bool :=
  match a, b with
  | VUndefined, VUndefined => true
  | VNull, VNull => true
  | VBool x, VBool y => Bool.eqb x y
  | VNum (Fin x), VNum (Fin y) => Qeq_bool x y
  | VNum (Inf x), VNum (Inf y) => Bool.eqb x y
  | VStr x, VStr y => String.eqb x y
  | _, _ => false
  end.

(** The [fields] object: every key of the edited activity other than
    [activity_id] whose value differs from the selected activity's. *)
Definition changedFields (selectedActivity updatedActivity : gmap string value)
  : gmap string value :=
  filter (fun kv => fst kv <> "activity_id" /\
                    strict_eq (prop (fst kv) selectedActivity) (snd kv) = false)
         updatedActivity.

(** [hasChanges] *)
Definition hasChanges (selectedActivity updatedActivity : gmap string value)
  : bool :=
  bool_decide (changedFields selectedActivity updatedActivity <> ∅).

(** Two values a reader cannot tell apart. *)
Definition same_value (a b : value) : Prop :=
  a = b \/ strict_eq a b = true.

(** ** The filter bar (components/FilterBar.tsx, [AdvancedFilterBar]) *)

Inductive SelectionKind : Type := Categories | Activities | Tags.

(** [filters[type]] *)
Definition selection_of (type : SelectionKind) (filters : ActivityFilters)
  : option (list string) :=
  match type with
  | Categories => categories filters
  | Activities => activities filters
  | Tags => tags filters
  end.

(** [{ ...prev, [type]: updated }] *)
Definition set_selection (type : SelectionKind) (updated : list string)
    (prev : ActivityFilters) : ActivityFilters :=
  match type with
  | Categories =>
      mkFilters (Some updated) (activities prev) (tags prev)
                (dateRange prev) (minPoints prev)
  | Activities =>
      mkFilters (categories prev) (Some updated) (tags prev)
                (dateRange prev) (minPoints prev)
  | Tags =>
      mkFilters (categories prev) (activities prev) (Some updated)
                (dateRange prev) (minPoints prev)
  end.

(** [toggleSelection]: the state update. *)
Definition toggleSelection (type : SelectionKind) (value : string)
    (prev : ActivityFilters) : ActivityFilters :=
  let current := default [] (selection_of type prev) in
  let updated :=
    if array_includes current value
    then List.filter (fun item => negb (String.eqb item value)) current
    else current ++ [value] in
  set_selection type updated prev.

(** [filters.selection?.length || 0] *)
Definition selection_length (selection : option (list string)) : nat :=
  length (default [] selection).

(** [activeFilterCount], the number on the badge. *)
Definition activeFilterCount (filters : ActivityFilters) : nat :=
  (selection_length (categories filters)
   + selection_length (activities filters)
   + selection_length (tags filters)
   + (match dateRange filters with Some _ => 1 | None => 0 end)
   + (if minPoints_set filters then 1 else 0))%nat.

(** ** The values offered to the filter bar ([extractCategoriesAndTags],
    logging.tsx 167-189) *)

(** [[...new Set(l)]]: each value once, where it first occurs. *)
Fixpoint unique_after (seen l : list string) : list string :=
  match l with
  | [] => []
  | s :: l' =>
      if array_includes seen s then unique_after seen l'
      else s :: unique_after (s :: seen) l'
  end.

Definition unique (l : list string) : list string := unique_after [] l.

(** [l.filter(Boolean)] on optional strings. *)
Definition filter_Boolean (l : list (option string)) : list string :=
  omap (fun o => if truthy_opt o then o else None) l.

Definition availableCategories (data : list Activity) : list string :=
  unique (filter_Boolean (List.map categoryName data)).

Definition availableActivities (data : list Activity) : list string :=
  unique (filter_Boolean (List.map activityName data)).

(** The tags of one item: [tags ? tags.split(',').map(tag =>
    tag.trim()).filter(tag => tag) : []]. *)
Definition itemTags `{Engine} (item : Activity) : list string :=
  let tags := or_str (a_Tags item) (a_tags item) in
  if truthy_opt tags
  then List.filter truthy_string (List.map trim (split "," (str tags)))
  else [].

Definition availableTags `{Engine} (data : list Activity) : list string :=
  unique (flat_map itemTags data).

(** A filter set with a single tag, or a single category, chosen. *)
Definition onlyTag (t : string) : ActivityFilters :=
  mkFilters None None (Some [t]) None None.

Definition onlyCategory (c : string) : ActivityFilters :=
  mkFilters (Some [c]) None None None None.

(** What [handleUpdateActivity] does with an edit: nothing when no
    activity with an identifier is selected, no request when no field
    changed, and else one update with the changed fields. *)
Inductive UpdateDecision : Type :=
| NotSelected : UpdateDecision
| NoChanges : UpdateDecision
| SendUpdate (activity_id : value) (fields : gmap string value)
  : UpdateDecision.

Definition updateDecision (selectedActivity : option (gmap string value))
    (updatedActivity : gmap string value) : UpdateDecision :=
  match selectedActivity with
  | None => NotSelected
  | Some selected =>
      if negb (truthy (prop "activity_id" selected)) then NotSelected
      else if hasChanges selected updatedActivity
           then SendUpdate (prop "activity_id" selected)
                           (changedFields selected updatedActivity)
      else NoChanges
  end.

(** ** Reads that check the status ([fetchExerciseActivities],
    [getExerciseTypes], [getMoodOptions], src/services/points-api.ts
    297-330, 434-461, 504-526; [handleApiError], 9-16; [getRewards],
    154-169) *)

(** [handleApiError(endpoint, error, mockData)]: the mock data when
    there is some, and else the error again. *)
Definition handleApiError {T} (endpoint : string) (e : error)
    (mockData : option T) : Completion T error :=
  match mockData with
  | Some mock => Return mock
  | None => Throw e
  end.

(** The [try] block the three reads share: the status is checked before
    the body is read. *)
Definition checked_json (fetched : Outcome Response error)
  : Completion json error :=
  do response <- await fetched;
  if negb (ok response)
  then Throw (Error "Error" ("API error: " ++ decimal (status response)))
  else await (json_body response).

Definition fetchExerciseActivities (fetched : Outcome Response error)
  : Completion json error :=
  try_catch (checked_json fetched) (fun _ => Return (JArr [])).

Definition defaultExerciseTypes : json :=
  JArr (List.map JStr
          [ "Running"; "Walking"; "Cycling"; "Swimming"; "Weightlifting";
            "HIIT"; "Yoga"; "Pilates"; "Calisthenics"; "Team Sports" ]).

Definition getExerciseTypes (fetched : Outcome Response error)
  : Completion json error :=
  try_catch (checked_json fetched) (fun _ => Return defaultExerciseTypes).

Definition moodOption (score : Z) (label color : string) : json :=
  JObj [ ("score", JNum (inject_Z score)); ("label", JStr label);
         ("color", JStr color) ].

Definition mockMoodOptions : json :=
  JArr [ moodOption 1 "Terrible" "#d32f2f"; moodOption 2 "Bad" "#f44336";
         moodOption 3 "Poor" "#ff9800"; moodOption 4 "Mediocre" "#fbc02d";
         moodOption 5 "Neutral" "#ffeb3b"; moodOption 6 "Fair" "#c0ca33";
         moodOption 7 "Good" "#8bc34a"; moodOption 8 "Very Good" "#4caf50";
         moodOption 9 "Great" "#009688"; moodOption 10 "Excellent" "#2196f3" ].

Definition getMoodOptions (fetched : Outcome Response error)
  : Completion json error :=
  try_catch (checked_json fetched)
            (fun e => handleApiError "getMoodOptions" e (Some mockMoodOptions)).

(** [getRewards]: [data.rewards || []], and [[]] from the [catch]. *)
Definition getRewards (fetched : Outcome Response error)
  : Completion json error :=
  try_catch
    (do response <- await fetched;
     do data <- await (json_body response);
     do rewards <- get_property "rewards" data;
     match rewards with
     | Some r => if truthy_json r then Return r else Return (JArr [])
     | None => Return (JArr [])
     end)
    (fun _ => Return (JArr [])).

(** The body of the response parsed to a document whose [rewards]
    are the truthy [rewards]. *)
Definition carries_rewards (fetched : Outcome Response error)
    (rewards : json) : Prop :=
  exists response data,
    fetched = Resolve response /\ json_body response = Resolve data /\
    field_of "rewards" data = Some rewards /\ truthy_json rewards = true.

(** The server answered 2xx with a body that parsed to [data]. *)
Definition answered (fetched : Outcome Response error) (data : json) : Prop :=
  exists response,
    fetched = Resolve response /\ ok response = true /\
    json_body response = Resolve data.

(** ** Forms (components/CreateRewardForm.tsx, [handleSubmit], 21-50;
    ActivityForm, [handleSubmit]; components/ExerciseForm.tsx,
    [handleSubmit], 137-163) *)

(** [parseInt(s)]: an integer, or [None] for NaN. *)
Class NumberParsing : Type := {
  parseInt : string -> option Z
}.

(** What a run of the reward form's handler does: the arguments of the
    one call of [purchaseReward], if it is made, and the alerts shown,
    each a title and a message. *)
Record RewardSubmission : Type := mkSubmission {
  request : option (string * Z * string);
  alerts : list (string * json)
}.

Definition creationFailed : string * json :=
  ("Error", JStr "An error occurred while creating the reward").

(** [handleSubmit] of the reward form.  [name], [pointsCost] and
    [description] are the texts of the three inputs, [fetched] is what
    the request of [purchaseReward] settles to, and [onSuccess] is what
    calling the callback does ([Return tt] also when there is none). *)
Definition createRewardSubmit `{Engine} `{NumberParsing}
    (name pointsCost description : string)
    (fetched : Outcome Response error) (onSuccess : Completion unit error)
  : RewardSubmission :=
  if negb (truthy_string (trim name)) then
    mkSubmission None [("Error", JStr "Please enter a reward name")]
  else
    let invalid :=
      mkSubmission None
        [("Error", JStr "Please enter a valid positive number for points")] in
    match parseInt pointsCost with
    | None => invalid
    | Some cost =>
        if cost <=? 0 then invalid
        else
          mkSubmission (Some (name, - cost, description))
            match purchaseReward fetched with
            | Throw _ => [creationFailed]
            | Return result =>
                match get_property "success" result with
                | Throw _ => [creationFailed]
                | Return success =>
                    if truthy_json (default JNull success) then
                      ("Success", JStr "Reward created successfully!")
                      :: match onSuccess with
                         | Return _ => []
                         | Throw _ => [creationFailed]
                         end
                    else
                      [("Error",
                        match field_of "message" result with
                        | Some m =>
                            if truthy_json m then m
                            else JStr "Failed to create reward"
                        | None => JStr "Failed to create reward"
                        end)]
                end
            end
    end.

(** [handleSubmit] of the activity form: the alert shown, or the
    activity handed to [onSubmit], with [Points] defaulting to 10.
    [onSubmit_given] is [typeof onSubmit === 'function']. *)
Definition activityFormSubmit (onSubmit_given : bool)
    (activity : gmap string value)
  : string * string + gmap string value :=
  if negb (truthy (prop "Activity" activity))
     || negb (truthy (prop "Category" activity))
     || negb (truthy (prop "Date" activity))
     || negb (truthy (prop "Start_Time" activity))
     || negb (truthy (prop "End_Time" activity))
  then inl ("Missing Information", "Please fill in all required fields")
  else
    let activityWithPoints :=
      <["Points" := js_or (prop "Points" activity) (VNum (Fin 10))]> activity in
    if negb onSubmit_given
    then inl ("Error", "Internal error: onSubmit handler is not available")
    else inr activityWithPoints.

(** The switches of the exercise form. *)
Record Tracking : Type := mkTracking {
  trackDistance : bool;
  trackWeight : bool;
  trackSetsReps : bool;
  trackCalories : bool;
  trackHeartRate : bool
}.

(** The keys [handleSubmit] of the exercise form writes. *)
Definition exerciseMetrics : list string :=
  [ "intensity"; "distance"; "weight"; "sets"; "reps"; "calories";
    "heart_rate" ].

(** [handleSubmit] of the exercise form: the alert for a missing type,
    or the details handed to [onSubmit]. *)
Definition exerciseFormSubmit `{Engine} (tracking : Tracking)
    (details : gmap string value)
  : string * string + gmap string value :=
  if negb (truthy (prop "exercise_type" details))
  then inl ("Missing Information", "Please select an exercise type")
  else
    let number_of := fun key => VNum (ToNumber (prop key details)) in
    let tracked := fun (on : bool) key =>
      if on then number_of key else VNum (Fin 0) in
    inr (<["heart_rate" := tracked (trackHeartRate tracking) "heart_rate"]>
         (<["calories" := tracked (trackCalories tracking) "calories"]>
         (<["reps" := tracked (trackSetsReps tracking) "reps"]>
         (<["sets" := tracked (trackSetsReps tracking) "sets"]>
         (<["weight" := tracked (trackWeight tracking) "weight"]>
         (<["distance" := tracked (trackDistance tracking) "distance"]>
         (<["intensity" := number_of "intensity"]> details))))))).

(** ** Adding ([handleAddActivity], logging.tsx 367-445) *)

(** [s.match(/^\d{4}-\d{2}-\d{2}$/)] finds something. *)
Definition matches_date_pattern (s : string) : bool :=
  match list_ascii_of_string s with
  | [y1; y2; y3; y4; h1; m1; m2; h2; d1; d2] =>
      is_digit y1 && is_digit y2 && is_digit y3 && is_digit y4
      && Ascii.eqb h1 "-" && is_digit m1 && is_digit m2
      && Ascii.eqb h2 "-" && is_digit d1 && is_digit d2
  | _ => false
  end.

(** The copy of the activity with its date formatted: a [Date] that is
    a string of another shape is parsed and written as the day of
    [toISOString], which throws on an invalid date; [rangeError] is the
    RangeError the engine throws there (its message differs between
    engines). *)
Definition formattedActivity `{Engine} `{ActivitiesRuntime}
    (rangeError : error) (activity : gmap string value)
  : Completion (gmap string value) error :=
  match prop "Date" activity with
  | VStr s =>
      if negb (matches_date_pattern s) then
        match Date_getTime (VStr s) with
        | Some t => Return (<["Date" := VStr (toISODate t)]> activity)
        | None => Throw rangeError
        end
      else Return activity
  | _ => Return activity
  end.

(** [err.message || 'Failed to add activity. Please try again.'] *)
Definition or_add_message (m : string) : string :=
  if truthy_string m then m
  else "Failed to add activity. Please try again.".

(** What a run of [handleAddActivity] comes to: the alert it shows, the
    result of [createActivity] when there is one, and the calls and
    waits of [withRetry].  (With a result the handler goes on to put
    the added activity into the list, see [addToState], and to reload
    with [forceRefresh]; a result is an object, so the warning for a
    falsy one is never shown.) *)
Record Added : Type := mkAdded {
  add_alert : string * string;
  add_result : option Created;
  add_world : World
}.

(** [handleAddActivity(activity)] with [activities] the list of the
    screen; [envs i] is what the [i]-th call of [createActivity]
    meets.  [err.message] on the [undefined] that [withRetry] throws
    without an attempt is a TypeError of the handler itself. *)
Definition handleAddActivity `{Engine} `{ActivitiesRuntime}
    (rangeError : error)
    (activities : list Activity) (activity : gmap string value)
    (envs : nat -> Transport * gmap string string)
  : Completion Added error :=
  match formattedActivity rangeError activity with
  | Throw err =>
      Return (mkAdded ("Error", or_add_message (message err)) None world0)
  | Return formatted =>
      let newActivity :=
        <["activity_id" :=
            VNum (Fin (inject_Z (nextActivityId activities)))]> formatted in
      match withRetry (createActivity_call newActivity envs) 3 1000 world0 with
      | (Return result, w) =>
          Return (mkAdded ("Success", "Activity added successfully!")
                          (Some result) w)
      | (Throw (Some err), w) =>
          Return (mkAdded ("Error", or_add_message (message err)) None w)
      | (Throw None, w) =>
          Throw (Error "TypeError" "Cannot read properties of undefined")
      end
  end.

(** ** Deleting ([deleteActivity], src/services/points-api.ts 1667-1694;
    the [onPress] of [handleDeleteActivity], logging.tsx 506-525) *)

(** [deleteActivity]: the body is read before the status is looked at,
    and [data.message] is read without a guard. *)
Definition deleteActivity `{ActivitiesRuntime}
    (fetched : Outcome Response error) : Completion json error :=
  try_catch
    (do response <- await fetched;
     do data <- await (json_body response);
     if negb (ok response) then
       do message <- get_property "message" data;
       Throw (Error "Error"
                match message with
                | Some (JStr s) =>
                    if truthy_string s then s
                    else ("API error: " ++ decimal (status response))%string
                | Some m =>
                    if truthy_json m then String_of_json m
                    else ("API error: " ++ decimal (status response))%string
                | None => ("API error: " ++ decimal (status response))%string
                end)
     else Return data)
    (fun e => Throw e).

(** [err.message || 'Failed to delete activity. Please try again.'] *)
Definition or_empty_message (m : string) : string :=
  if truthy_string m then m
  else "Failed to delete activity. Please try again.".

(** The fetch of [loadActivities(forceRefresh)]:
    [withRetry(() => fetchActivities(forceRefresh, itemsPerPage), 3,
    800)].  What it returns, normalised and sorted, becomes the list
    of the screen. *)
Definition loadActivities_fetch `{ActivitiesRuntime} (forceRefresh : bool)
    (envs : nat -> FetchEnv)
  : Completion (list json) (option error) * World :=
  withRetry (fetchActivities_call forceRefresh envs) 3 800 world0.

(** What pressing [Delete] comes to: the alerts shown, the list as the
    state update leaves it for the time being, the fetch of the reload
    that follows, when [loadActivities()] is called, and the effects of
    [withRetry] around [deleteActivity]. *)
Record Pressed : Type := mkPressed {
  shown : list (string * string);
  updated_list : list Activity;
  reload : option (Completion (list json) (option error) * World);
  pressed_world : World
}.

(** The [onPress] of the confirmation; [replies i] is what the request
    of the [i]-th call of [deleteActivity] settles to, [envs i] what
    the [i]-th call of [fetchActivities] in the reload meets.  The
    reload is [loadActivities()], without [forceRefresh].
    [err.message] on the [undefined] that [withRetry] throws without
    an attempt is a TypeError of the handler itself. *)
Definition deletePressed `{ActivitiesRuntime} (activityId : Z)
    (replies : nat -> Outcome Response error) (envs : nat -> FetchEnv)
    (prev : list Activity)
  : Completion Pressed error :=
  match withRetry (fun i => settle (deleteActivity (replies i))) 3 1000 world0
  with
  | (Return result, w) =>
      if truthy_json result
         && truthy_json (default JNull (field_of "message" result))
      then Return (mkPressed [("Success", "Activity deleted successfully.")]
                             (removeFromState activityId prev)
                             (Some (loadActivities_fetch false envs)) w)
      else Return (mkPressed [] prev None w)
  | (Throw (Some err), w) =>
      Return (mkPressed [("Error", or_empty_message (message err))]
                        prev None w)
  | (Throw None, w) =>
      Throw (Error "TypeError" "Cannot read properties of undefined")
  end.

(** [parseInt] on decimal texts: leading blanks, a sign, then the
    digits up to the first other character (a [0x] prefix is not
    read). *)
Fixpoint leading_digits (acc : option Z) (s : string) : option Z :=
  match s with
  | EmptyString => acc
  | String c s' =>
      match digit_of c with
      | Some d => leading_digits (Some (10 * default 0 acc + d)) s'
      | None => acc
      end
  end.

Definition decimal_parseInt (s : string) : option Z :=
  match trimStart s with
  | String "-" rest => Z.opp <$> leading_digits None rest
  | String "+" rest => leading_digits None rest
  | rest => leading_digits None rest
  end.

Definition decimal_parsing : NumberParsing :=
  {| parseInt := decimal_parseInt |}.

(** The RangeError of V8. *)
Definition invalidTime : error := Error "RangeError" "Invalid time value".

(** An activity the form sent with an empty date. *)
Definition blankDate : gmap string value :=
  {[ "Activity" := VStr "Reading"; "Category" := VStr "Learning";
     "Date" := VStr "" ]}.

(** The reload meets a list of two names cached at 1500, half a
    second before, and a server that would answer with one. *)
Definition cachedTwoNames : FetchEnv :=
  mkFetchEnv 2000 2100
    (Resolve (mkRaw 200 "OK" (Resolve (print_strings ["Reading"]))))
    (saveToCache (H := activities_codec (ActivitiesRuntime := strings_runtime))
       1500 [JStr "Morning run"; JStr "Reading"] ∅).

(** A 2xx reply to a deletion. *)
Definition deleted : Outcome Response error :=
  Resolve (mkResponse 200 (Resolve (JObj [("message", JStr "Row deleted")]))).

(** A 500 response that still carries a list of rewards. *)
Definition rewardsWithError : Outcome Response error :=
  Resolve (mkResponse 500
             (Resolve (JObj [("rewards", JArr [JStr "Sleep in"])]))).

(** A 500 response whose body parses. *)
Definition serverError : Outcome Response error :=
  Resolve (mkResponse 500 (Resolve (JObj [("error", JStr "Internal Server Error")]))).

(** An activity form filled in but for the points. *)
Definition filledForm : gmap string value :=
  list_to_map [ ("Activity", VStr "Run"); ("Category", VStr "Exercise");
                ("Date", VStr "2025-04-01"); ("Start_Time", VStr "07:00");
                ("End_Time", VStr "07:30") ].

(** Exercise details with a distance typed in. *)
Definition runDetails : gmap string value :=
  list_to_map [ ("exercise_type", VStr "Running"); ("intensity", VStr "3");
                ("distance", VStr "5"); ("notes", VStr "easy") ].

(** Replies to [fetchActivities]: no network, and an empty array. *)
Definition offline : Outcome RawResponse error :=
  Reject (Error "TypeError" "Network request failed").

Definition emptyArray : Outcome RawResponse error :=
  Resolve (mkRaw 200 "OK" (Resolve "[]")).

(* ===================================================================== *)
(** * Part II: lemmas and theorems                                        *)
(* ===================================================================== *)

(** ** The retry helper *)

(** Two failures and then success, within three attempts. *)
Example withRetry_two_failures :
  withRetry (fun i => if (i <? 2)%nat then Reject i else Resolve "ok") 3 1000 world0
  = (Return "ok", mkWorld 3 [Invoke; SetTimeout 1000; Invoke; SetTimeout 2000; Invoke]).
Proof. reflexivity. Qed.

(** Five failures ahead, three attempts allowed. *)
Example withRetry_exhausted :
  withRetry (fun i => if (i <? 5)%nat then Reject i else Resolve "ok") 3 1000 world0
  = (Throw (Some 2%nat), mkWorld 3 [Invoke; SetTimeout 1000; Invoke; SetTimeout 2000; Invoke]).
Proof. reflexivity. Qed.

Lemma world_eta (w : World) : mkWorld (invocations w) (events w) = w.
Proof. destruct w; reflexivity. Qed.

(** A run of [m] failing attempts, none of them the last one allowed:
    each invokes [fn] once and waits, and the loop goes on. *)
Lemma retry_over_failures {T Err} (fn : nat -> Outcome T Err) n delay errs :
  forall (m : nat) a (lastError : option Err) w rest,
    (forall i, (i < m)%nat ->
       fn (invocations w + i)%nat = Reject (errs (invocations w + i)%nat)) ->
    a + Z.of_nat m <= n ->
    retry_over fn n delay (seqZ a (Z.of_nat m) ++ rest) lastError w =
    retry_over fn n delay rest
      (match m with
       | O => lastError
       | S m' => Some (errs (invocations w + m')%nat)
       end)
      (mkWorld (invocations w + m)
         (events w ++
          flat_map (fun attempt => [Invoke; SetTimeout (delay * 2 ^ (attempt - 1))])
                   (seqZ a (Z.of_nat m)))).
Proof.
  induction m as [|m IH]; intros a lastError w rest Hfail Hle.
  - rewrite seqZ_nil by lia. simpl.
    rewrite Nat.add_0_r, app_nil_r, world_eta. reflexivity.
  - rewrite seqZ_cons by lia.
    replace (Z.pred (Z.of_nat (S m))) with (Z.of_nat m) by lia.
    simpl. unfold call.
    rewrite <- (Nat.add_0_r (invocations w)) at 1.
    rewrite (Hfail 0%nat) by lia.
    replace (a <? n) with true by (symmetry; apply Z.ltb_lt; lia).
    rewrite IH.
    + simpl. f_equal.
      * destruct m as [|m']; f_equal; f_equal; lia.
      * f_equal; [lia|]. rewrite <- !app_assoc. reflexivity.
    + intros i Hi. simpl.
      replace (S (invocations w + i)) with (invocations w + S i)%nat by lia.
      apply Hfail. lia.
    + lia.
Qed.

(** C1 (as amended): for an operation that fails exactly [k] times and
    then succeeds, [withRetry fn n delay] with [n >= k+1] returns the
    success value after exactly [k+1] invocations; with [1 <= n <= k] it
    invokes [fn] exactly [n] times and throws the error of the [n]-th
    invocation.  In both cases every failed attempt but the last allowed
    one is followed by a wait of [delay * 2^(attempt-1)] before the next
    invocation, and nothing else happens. *)
Theorem withRetry_backoff {T Err} (fn : nat -> Outcome T Err)
    (k : nat) (errs : nat -> Err) (v : T) (n delay : Z) :
  fails_then_succeeds fn k errs v ->
  (Z.of_nat k + 1 <= n ->
     withRetry fn n delay world0 =
     (Return v, mkWorld (S k) (backoff delay (Z.of_nat k) ++ [Invoke])))
  /\
  (1 <= n <= Z.of_nat k ->
     withRetry fn n delay world0 =
     (Throw (Some (errs (Z.to_nat (n - 1)))),
      mkWorld (Z.to_nat n) (backoff delay (n - 1) ++ [Invoke]))).
Proof.
  intros [Hfail Hok]. split; intros Hn; unfold withRetry, backoff.
  - replace n with (Z.of_nat k + (n - Z.of_nat k)) at 2 by lia.
    rewrite seqZ_app by lia.
    rewrite (retry_over_failures fn n delay errs k 1 None world0)
      by (simpl; intros; first [apply Hfail; lia | lia]).
    rewrite (seqZ_cons (1 + Z.of_nat k)) by lia.
    simpl. unfold call. simpl. rewrite Hok. reflexivity.
  - set (m := Z.to_nat (n - 1)).
    replace n with (Z.of_nat m + 1) at 2 by lia.
    rewrite seqZ_app by lia.
    rewrite (retry_over_failures fn n delay errs m 1 None world0)
      by (simpl; intros; first [apply Hfail; lia | lia]).
    rewrite (seqZ_cons (1 + Z.of_nat m)) by lia.
    rewrite (seqZ_nil _ (Z.pred 1)) by lia.
    simpl. unfold call. simpl. rewrite (Hfail m) by lia.
    replace (1 + Z.of_nat m <? n) with false
      by (symmetry; apply Z.ltb_ge; lia).
    simpl. replace (n - 1) with (Z.of_nat m) by lia.
    repeat f_equal. lia.
Qed.

(** The theorem at work: two failures, then success; three attempts
    allowed in the first run, two in the second. *)
Lemma withRetry_backoff_witness :
  let fn := fun i : nat => if (i <? 2)%nat then Reject i else Resolve "ok" in
  withRetry fn 3 800 world0 =
    (Return "ok", mkWorld 3 [Invoke; SetTimeout 800; Invoke; SetTimeout 1600; Invoke])
  /\ withRetry fn 2 800 world0 =
    (Throw (Some 1%nat), mkWorld 2 [Invoke; SetTimeout 800; Invoke]).
Proof.
  intros fn.
  assert (H : fails_then_succeeds fn 2 (fun i => i) "ok").
  { split; [|reflexivity].
    intros [|[|i]] Hi; [reflexivity | reflexivity | lia]. }
  destruct (withRetry_backoff fn 2 (fun i => i) "ok" 3 800 H) as [H3 _].
  destruct (withRetry_backoff fn 2 (fun i => i) "ok" 2 800 H) as [_ H2].
  split; [apply H3; lia | apply H2; lia].
Defined.

(** C1, counterexample: an operation that succeeds at once ([k = 0]),
    run with [n = 0 <= k].  Nothing is invoked, so there is no last
    error to throw; what is thrown is [undefined]. *)
Lemma withRetry_exhaustion_counterexample :
  let fn := fun _ : nat => @Resolve string string "ok" in
  fails_then_succeeds fn 0 (fun _ => "unused") "ok" /\
  0 <= Z.of_nat 0 /\
  withRetry fn 0 1000 world0 = (Throw None, world0) /\
  ~ exhausted_as_specified fn 0 (withRetry fn 0 1000 world0).
Proof.
  intros fn. split; [split; [intros i Hi; lia | reflexivity]|].
  split; [lia|]. split; [reflexivity|].
  intros [_ (i & e & Hi & _)]. lia.
Qed.

(** C10: with [maxRetries <= 0] the loop body never runs: [fn] is not
    invoked, no timer is armed, and the initial [undefined] of
    [lastError] is thrown. *)
Theorem withRetry_nonpositive {T Err} (fn : nat -> Outcome T Err)
    (maxRetries delay : Z) (w : World) :
  maxRetries <= 0 ->
  withRetry fn maxRetries delay w = (Throw None, w).
Proof.
  intros H. unfold withRetry. rewrite seqZ_nil by lia. reflexivity.
Qed.

Lemma withRetry_nonpositive_witness :
  withRetry (fun _ : nat => @Resolve string string "ok") (-2) 1000 world0
  = (Throw None, world0).
Proof. apply withRetry_nonpositive. lia. Defined.

(** ** The activities cache *)

Lemma CACHE_EXPIRY_half : CACHE_EXPIRY / 2 = 60000.
Proof. reflexivity. Qed.

(** C3: after [saveToCache] at time [t0], a read at time [now] returns
    the stored payload unchanged exactly when the age [now - t0] is
    under half of [CACHE_EXPIRY], that is under one minute; every other
    read, and so every read after expiry, gives [null].  The codec is
    any pair that reads back the entry it wrote and rejects the empty
    text, as [JSON.stringify] and [JSON.parse] do. *)
Theorem getFromCache_after_save {Payload} `{JsonCodec Payload}
    (storage : gmap string string) (t0 now : Z) (activities : Payload) :
  JSON_parse (JSON_stringify (mkEntry t0 activities))
    = Some (mkEntry t0 activities) ->
  JSON_parse "" = None ->
  (now - t0 < CACHE_EXPIRY / 2 <->
     getFromCache now (saveToCache t0 activities storage) = Some activities)
  /\ (CACHE_EXPIRY / 2 <= now - t0 ->
        getFromCache now (saveToCache t0 activities storage) = None)
  /\ (CACHE_EXPIRY <= now - t0 ->
        getFromCache now (saveToCache t0 activities storage) = None)
  /\ CACHE_EXPIRY / 2 = 60 * 1000.
Proof.
  intros Hround Hempty.
  assert (Hne : truthy_string (JSON_stringify (mkEntry t0 activities)) = true).
  { unfold truthy_string.
    destruct (String.eqb_spec (JSON_stringify (mkEntry t0 activities)) "")
      as [Heq|]; [|reflexivity].
    rewrite Heq in Hround. congruence. }
  assert (Hget : getFromCache now (saveToCache t0 activities storage) =
                 if now - t0 <? CACHE_EXPIRY / 2 then Some activities else None).
  { unfold getFromCache, saveToCache.
    rewrite lookup_insert_eq, Hne, Hround. reflexivity. }
  rewrite Hget, CACHE_EXPIRY_half.
  assert (CACHE_EXPIRY = 120000) as -> by reflexivity.
  destruct (Z.ltb_spec (now - t0) 60000); repeat split; intros;
    try reflexivity; try congruence; try lia.
Qed.

(** The theorem at work: a list saved at second 1000 is still served 59
    seconds later and no longer a second after that. *)
Lemma getFromCache_after_save_witness :
  getFromCache (H := text_codec) 1059999
    (saveToCache (H := text_codec) 1000000 "[]" ∅) = Some "[]"
  /\ getFromCache (H := text_codec) 1060000
    (saveToCache (H := text_codec) 1000000 "[]" ∅) = None.
Proof.
  split.
  - apply (getFromCache_after_save (H := text_codec) ∅ 1000000 1059999 "[]"
             eq_refl eq_refl).
    reflexivity.
  - destruct (getFromCache_after_save (H := text_codec) ∅ 1000000 1060000 "[]"
                eq_refl eq_refl) as (_ & Hmiss & _).
    apply Hmiss. vm_compute. intros Hc. discriminate Hc.
Defined.

(** A read of storage nobody wrote to is a miss. *)
Lemma getFromCache_empty {Payload} `{JsonCodec Payload} (now : Z) :
  getFromCache now ∅ = None.
Proof. unfold getFromCache. rewrite lookup_empty. reflexivity. Qed.

(** ** The colour scheme hook *)

(** C9: [useColorScheme] returns ['light'] whatever the device reports. *)
Theorem useColorScheme_always_light (native : option ColorSchemeName) :
  useColorScheme native = light.
Proof. reflexivity. Qed.

(** The result does not depend on the device setting. *)
Lemma useColorScheme_ignores_device (n1 n2 : option ColorSchemeName) :
  useColorScheme n1 = useColorScheme n2.
Proof. reflexivity. Qed.

(** ** Record normalisation *)

(** The keys written out in the object literal do not depend on the item. *)
Lemma uppercase_keys (item : gmap string value) :
  (uppercase_properties item).*1 =
  [ "Activity"; "Category"; "Date"; "Start_Time"; "End_Time"; "Notes";
    "Points"; "Tags"; "activity_id" ].
Proof. reflexivity. Qed.

(** Every property of the item survives with its value. *)
Lemma normalize_keeps (item : gmap string value) k v :
  item !! k = Some v -> normalize item !! k = Some v.
Proof. intros Hk. unfold normalize. apply lookup_union_Some_l, Hk. Qed.

(** A key the item lacks is read from the object literal. *)
Lemma normalize_fills (item : gmap string value) k :
  item !! k = None ->
  normalize item !! k =
  (list_to_map (uppercase_properties item) : gmap string value) !! k.
Proof. intros Hk. unfold normalize. apply lookup_union_r, Hk. Qed.

(** A key that is not written out is there only if the item had it. *)
Lemma normalize_other_key (item : gmap string value) k :
  k ∉ (uppercase_properties item).*1 ->
  normalize item !! k = item !! k.
Proof.
  intros Hk. unfold normalize. rewrite lookup_union.
  rewrite (not_elem_of_list_to_map_1 _ k Hk).
  destruct (item !! k); reflexivity.
Qed.

(** The keys written out are all there after normalisation. *)
Lemma normalize_has_written_keys (item : gmap string value) k :
  k ∈ (uppercase_properties item).*1 -> is_Some (normalize item !! k).
Proof.
  intros Hk. unfold normalize. rewrite lookup_union.
  destruct ((list_to_map (uppercase_properties item) : gmap string value) !! k)
    as [v|] eqn:Hl.
  - destruct (item !! k); eauto.
  - apply not_elem_of_list_to_map in Hl. contradiction.
Qed.

Lemma normalize_idempotent (item : gmap string value) :
  normalize (normalize item) = normalize item.
Proof.
  apply map_eq. intros k.
  destruct (normalize item !! k) as [v|] eqn:Hk.
  - apply normalize_keeps, Hk.
  - rewrite normalize_fills by exact Hk.
    apply not_elem_of_list_to_map. rewrite uppercase_keys.
    intros Hin.
    assert (Hsome : is_Some (normalize item !! k)).
    { apply normalize_has_written_keys. rewrite uppercase_keys. exact Hin. }
    rewrite Hk in Hsome. destruct Hsome; discriminate.
Qed.

Lemma js_or_undefined (v : value) : js_or VUndefined v = v.
Proof. reflexivity. Qed.

Ltac each_casing_pair H :=
  repeat (destruct H as [H|H]; [inversion H; subst; clear H|]);
  try contradiction.

(** What the normalisation does guarantee: it is idempotent; a
    normalised record has the upper-case form of every field, filled
    from the lower-case one where the input lacked it; it keeps every
    property of the input; and it has the lower-case form of a field
    exactly when the input had it. *)
Lemma normalize_idempotent_uppercase (item : gmap string value) :
  normalize (normalize item) = normalize item
  /\ (forall k v, item !! k = Some v -> normalize item !! k = Some v)
  /\ (forall upper lower, In (upper, lower) casing_pairs ->
        is_Some (normalize item !! upper)
        /\ (item !! upper = None ->
              normalize item !! upper = Some (prop lower item))
        /\ normalize item !! lower = item !! lower).
Proof.
  split; [apply normalize_idempotent|].
  split; [apply normalize_keeps|].
  intros upper lower Hin. simpl in Hin.
  each_casing_pair Hin.
  all: split; [apply normalize_has_written_keys; rewrite uppercase_keys;
               apply list_elem_of_In; simpl; tauto|].
  all: split; [intros Hnone; rewrite normalize_fills by exact Hnone;
               simpl;
               repeat first [rewrite lookup_insert_eq
                            | rewrite lookup_insert_ne by discriminate];
               unfold prop at 1; rewrite Hnone; reflexivity|].
  all: apply normalize_other_key; rewrite uppercase_keys;
       rewrite list_elem_of_In; simpl; intuition discriminate.
Qed.

(** A record in lower case gets its upper-case forms. *)
Example normalize_lowercase_record :
  let item : gmap string value :=
    {[ "activity" := VStr "Reading"; "category" := VStr "Learning" ]} in
  normalize item !! "Activity" = Some (VStr "Reading")
  /\ normalize item !! "activity" = Some (VStr "Reading").
Proof. split; reflexivity. Qed.

(** C6, the divergence: the object literal writes the upper-case keys
    only, and the spread adds what the item has, so the normalisation
    never creates a lower-case key.  A record that lacks the lower-case
    form of a field still lacks it after normalisation and does not
    expose both forms, against the comment on the literal and the
    claim. *)
Theorem normalize_writes_no_lowercase (item : gmap string value)
    (upper lower : string) :
  In (upper, lower) casing_pairs ->
  item !! lower = None ->
  normalize item !! lower = None /\ ~ exposes_both_forms (normalize item).
Proof.
  intros Hin Hnone.
  assert (Hlow : normalize item !! lower = None).
  { rewrite <- Hnone. pose proof Hin as Hpair. simpl in Hpair.
    each_casing_pair Hpair.
    all: apply normalize_other_key; rewrite uppercase_keys;
         rewrite list_elem_of_In; simpl; intuition discriminate. }
  split; [exact Hlow|].
  intros Hboth. destruct (Hboth upper lower Hin) as [_ [v Hv]].
  rewrite Hlow in Hv. discriminate.
Qed.

(** At the failing input, a record in upper case only, as the [Activity]
    type declares it: its normal form has the upper-case name and no
    lower-case one. *)
Lemma normalize_writes_no_lowercase_witness :
  let item : gmap string value :=
    {[ "Activity" := VStr "Reading"; "Category" := VStr "Learning" ]} in
  normalize item !! "Activity" = Some (VStr "Reading")
  /\ normalize item !! "activity" = None
  /\ ~ exposes_both_forms (normalize item).
Proof.
  intros item. split; [reflexivity|].
  apply (normalize_writes_no_lowercase item "Activity" "activity").
  - simpl. auto.
  - reflexivity.
Defined.

(** An upper-case property that is present but falsy is kept as it is,
    whatever the lower-case one holds: the spread overwrites the value
    the object literal had chosen. *)
Example normalize_keeps_empty_uppercase :
  normalize {[ "Activity" := VStr ""; "activity" := VStr "Reading" ]}
    !! "Activity" = Some (VStr "").
Proof. reflexivity. Qed.

(** ** The points API *)

(** The two reads never throw. *)
Lemma getTotalPoints_returns (fetched : Outcome Response error) :
  exists v, getTotalPoints fetched = Return v.
Proof.
  unfold getTotalPoints.
  destruct fetched as [response|e]; simpl; eauto.
  destruct (json_body response) as [doc|e]; simpl; eauto.
  destruct (get_property "total_points" doc); simpl; eauto.
Qed.

Lemma getAvailableRewards_returns (fetched : Outcome Response error) :
  exists v, getAvailableRewards fetched = Return v.
Proof.
  unfold getAvailableRewards.
  destruct fetched as [response|e]; simpl; eauto.
  destruct (json_body response) as [doc|e]; simpl; eauto.
  destruct (get_property "rewards" doc) as [rewards|]; simpl; eauto.
  destruct (isArray rewards); simpl; eauto.
Qed.

(** What [getAvailableRewards] returns is an array. *)
Lemma getAvailableRewards_array (fetched : Outcome Response error) v :
  getAvailableRewards fetched = Return v -> isArray v = true.
Proof.
  unfold getAvailableRewards.
  destruct fetched as [response|e]; simpl; [|intros [= <-]; reflexivity].
  destruct (json_body response) as [doc|e]; simpl;
    [|intros [= <-]; reflexivity].
  destruct (get_property "rewards" doc) as [rewards|]; simpl;
    [|intros [= <-]; reflexivity].
  destruct (isArray rewards) eqn:Harr; simpl; intros [= <-];
    [exact Harr | reflexivity].
Qed.

(** [purchaseReward] hands on the parsed body of any response, whatever
    its status. *)
Lemma purchaseReward_parsed (response : Response) (result : json) :
  json_body response = Resolve result ->
  purchaseReward (Resolve response) = Return result.
Proof. intros Hbody. unfold purchaseReward. simpl. rewrite Hbody. reflexivity. Qed.

(** C8 (as amended): the two reads never throw.  When the request fails
    on the network or the body does not parse, [getTotalPoints] returns
    1250, [getAvailableRewards] returns the mock list, and
    [purchaseReward] throws the very error to its caller;
    [getAvailableRewards] also returns the mock list when the body has
    no [rewards] or one that is not an array.  [purchaseReward] does
    not look at the status: it returns the parsed body of any
    response. *)
Theorem points_api_failure_policy (fetched : Outcome Response error) :
  (exists v, getTotalPoints fetched = Return v)
  /\ (exists v, getAvailableRewards fetched = Return v)
  /\ (forall e, fetched = Reject e ->
        getTotalPoints fetched = Return (Some (JNum 1250))
        /\ getAvailableRewards fetched = Return (Some mockRewards)
        /\ purchaseReward fetched = Throw e)
  /\ (forall response e,
        fetched = Resolve response -> json_body response = Reject e ->
        getTotalPoints fetched = Return (Some (JNum 1250))
        /\ getAvailableRewards fetched = Return (Some mockRewards)
        /\ purchaseReward fetched = Throw e)
  /\ (forall response,
        fetched = Resolve response -> json_body response = Resolve JNull ->
        getTotalPoints fetched = Return (Some (JNum 1250))
        /\ getAvailableRewards fetched = Return (Some mockRewards))
  /\ (shape_mismatch "rewards" fetched ->
        getAvailableRewards fetched = Return (Some mockRewards))
  /\ (forall response data rewards,
        fetched = Resolve response -> json_body response = Resolve data ->
        get_property "rewards" data = Return rewards ->
        isArray rewards = false ->
        getAvailableRewards fetched = Return (Some mockRewards))
  /\ (forall response result,
        fetched = Resolve response -> json_body response = Resolve result ->
        purchaseReward fetched = Return result).
Proof.
  split; [apply getTotalPoints_returns|].
  split; [apply getAvailableRewards_returns|].
  split; [intros e ->; repeat split|].
  split.
  { intros response e -> Hbody.
    unfold getTotalPoints, getAvailableRewards, purchaseReward. simpl.
    rewrite Hbody. repeat split. }
  split.
  { intros response -> Hbody.
    unfold getTotalPoints, getAvailableRewards. simpl.
    rewrite Hbody. split; reflexivity. }
  split.
  { intros (response & fields & -> & Hbody & Hfind).
    unfold getAvailableRewards. simpl. rewrite Hbody. simpl.
    rewrite Hfind. reflexivity. }
  split.
  { intros response data rewards -> Hbody Hget Harr.
    unfold getAvailableRewards. simpl. rewrite Hbody. simpl.
    rewrite Hget. simpl. rewrite Harr. reflexivity. }
  intros response result -> Hbody. apply purchaseReward_parsed, Hbody.
Qed.

(** The theorem at work: a request that fails on the network, and a
    body that is not JSON. *)
Lemma points_api_failure_policy_witness :
  let offline := Error "TypeError" "Network request failed" in
  let garbled := Error "SyntaxError" "Unexpected token < in JSON" in
  (getTotalPoints (Reject offline) = Return (Some (JNum 1250))
   /\ purchaseReward (Reject offline) = Throw offline)
  /\ (getAvailableRewards (Resolve (mkResponse 502 (Reject garbled)))
        = Return (Some mockRewards)
      /\ purchaseReward (Resolve (mkResponse 502 (Reject garbled)))
        = Throw garbled).
Proof.
  intros offline garbled. split.
  - destruct (points_api_failure_policy (Reject offline))
      as (_ & _ & Hnet & _).
    destruct (Hnet offline eq_refl) as (Htotal & _ & Hbuy).
    split; assumption.
  - destruct (points_api_failure_policy
                (Resolve (mkResponse 502 (Reject garbled))))
      as (_ & _ & _ & Hparse & _).
    destruct (Hparse _ garbled eq_refl eq_refl) as (_ & Hrewards & Hbuy).
    split; assumption.
Defined.

(** C8, counterexample: a 500 response whose body is a JSON object.
    This is a failure (non-2xx, and no [total_points]), yet
    [getTotalPoints] returns [undefined], not 1250, and
    [purchaseReward] returns the body instead of throwing. *)
Lemma points_api_non_2xx_counterexample :
  let body := JObj [ ("error", JStr "Internal Server Error") ] in
  let fetched := Resolve (mkResponse 500 (Resolve body)) in
  non_2xx fetched
  /\ shape_mismatch "total_points" fetched
  /\ getTotalPoints fetched = Return None
  /\ purchaseReward fetched = Return body
  /\ ~ failure_policy_as_specified fetched.
Proof.
  intros body fetched.
  assert (Hnon : non_2xx fetched) by (eexists; split; reflexivity).
  split; [exact Hnon|].
  split; [do 2 eexists; repeat split|].
  split; [reflexivity|].
  split; [reflexivity|].
  intros Hpolicy.
  destruct Hpolicy as (Htotal & _); [right; left; exact Hnon|].
  discriminate Htotal.
Qed.

(** ** Strings and arrays *)

Lemma truthy_string_true (s : string) : truthy_string s = true <-> s <> "".
Proof.
  unfold truthy_string. destruct (String.eqb_spec s ""); simpl; split;
    congruence.
Qed.

Lemma truthy_string_false (s : string) : truthy_string s = false <-> s = "".
Proof.
  unfold truthy_string. destruct (String.eqb_spec s ""); simpl; split;
    congruence.
Qed.

Lemma truthy_opt_true (o : option string) :
  truthy_opt o = true <-> exists s, o = Some s /\ s <> "".
Proof.
  destruct o as [s|]; simpl.
  - rewrite truthy_string_true. split.
    + intros Hs. exists s. auto.
    + intros (s' & [= <-] & Hs). exact Hs.
  - split; [discriminate | intros (s & Hs & _); discriminate].
Qed.

Lemma startsWith_spec (s p : string) :
  startsWith s p = true <-> exists rest, s = (p ++ rest)%string.
Proof.
  revert s. induction p as [|c p IH]; intros s; simpl.
  - split; [intros _; exists s; reflexivity | reflexivity].
  - destruct s as [|d s].
    + split; [discriminate | intros [rest Hrest]; discriminate].
    + rewrite andb_true_iff, IH. split.
      * intros [Hc [rest ->]]. apply Ascii.eqb_eq in Hc. subst d.
        exists rest. reflexivity.
      * intros [rest [= -> ->]]. split; [apply Ascii.eqb_refl|].
        exists rest. reflexivity.
Qed.

Lemma includes_spec (s sub : string) :
  includes s sub = true <-> occurs_in sub s.
Proof.
  unfold occurs_in. induction s as [|c s IH].
  - simpl. rewrite orb_false_r, startsWith_spec. split.
    + intros [rest Hrest]. exists "", rest. exact Hrest.
    + intros (before & after & Hs).
      destruct before; [|discriminate]. exists after. exact Hs.
  - cbn [includes]. rewrite orb_true_iff, startsWith_spec, IH. split.
    + intros [[rest Hrest] | (before & after & ->)].
      * exists "", rest. exact Hrest.
      * exists (String c before), after. reflexivity.
    + intros (before & after & Hs). destruct before as [|d before].
      * left. exists after. exact Hs.
      * right. injection Hs as _ ->. exists before, after. reflexivity.
Qed.

Lemma array_includes_spec (l : list string) (x : string) :
  array_includes l x = true <-> In x l.
Proof.
  unfold array_includes. rewrite existsb_exists. split.
  - intros (y & Hy & Heq). apply String.eqb_eq in Heq. subst. exact Hy.
  - intros Hx. exists x. split; [exact Hx | apply String.eqb_refl].
Qed.

Lemma selected_true (selection : option (list string)) :
  selected selection = true <->
  exists chosen, selection = Some chosen /\ chosen <> [].
Proof.
  destruct selection as [[|c l]|]; simpl.
  - split; [discriminate | intros (chosen & [= <-] & Hne); contradiction].
  - split; [|reflexivity].
    intros _. eexists. split; [reflexivity | discriminate].
  - split; [discriminate | intros (chosen & Hc & _); discriminate].
Qed.

Lemma selected_false (selection : option (list string)) :
  selected selection = false <-> selection = None \/ selection = Some [].
Proof.
  destruct selection as [[|c l]|]; simpl.
  - split; auto.
  - split; [discriminate | intros [Hs|Hs]; discriminate].
  - split; auto.
Qed.

Lemma filter_sublist {A} (f : A -> bool) (l : list A) :
  sublist (List.filter f l) l.
Proof.
  induction l as [|x l IH]; simpl.
  - constructor.
  - destruct (f x); [apply sublist_skip | apply sublist_cons]; exact IH.
Qed.

(** ** Filtering *)

Section Filtering.
Context `{Engine}.

(** The callback keeps a record exactly when no block rejects it. *)
Lemma keepActivity_true searchQuery filters activity :
  keepActivity searchQuery filters activity = true <->
  hasRequiredFields activity = true /\
  search_ok searchQuery activity = true /\
  categories_ok filters activity = true /\
  activities_ok filters activity = true /\
  dateRange_ok filters activity = true /\
  minPoints_ok filters activity = true /\
  tags_ok filters activity = true.
Proof.
  unfold keepActivity.
  destruct (hasRequiredFields activity), (search_ok searchQuery activity),
    (categories_ok filters activity), (activities_ok filters activity),
    (dateRange_ok filters activity), (minPoints_ok filters activity),
    (tags_ok filters activity); simpl; intuition discriminate.
Qed.

Lemma search_ok_spec searchQuery activity :
  search_ok searchQuery activity = true <->
  satisfies_query searchQuery activity.
Proof.
  unfold search_ok, satisfies_query.
  destruct (truthy_string searchQuery) eqn:Hq.
  - apply truthy_string_true in Hq.
    rewrite !orb_true_iff, !includes_spec. split.
    + intros Hmatch _.
      destruct Hmatch as [[[Hm|Hm]|Hm]|Hm]; eexists;
        (split; [|exact Hm]); simpl; auto.
    + intros Hsat. destruct (Hsat Hq) as (field & Hin & Hocc).
      simpl in Hin. destruct Hin as [<-|[<-|[<-|[<-|[]]]]]; auto.
  - apply truthy_string_false in Hq. split; [|reflexivity].
    intros _ Hne. contradiction.
Qed.

(** A multi-select block against a key known to be there. *)
Lemma selection_ok_spec selection key :
  truthy_opt key = true ->
  (if selected selection
   then array_includes (default [] selection) (str key)
   else true) = true <->
  satisfies_selection selection key.
Proof.
  intros Hkey. apply truthy_opt_true in Hkey as (k & -> & Hk).
  unfold satisfies_selection. simpl.
  destruct (selected selection) eqn:Hsel.
  - apply selected_true in Hsel as (chosen & -> & Hne). simpl.
    rewrite array_includes_spec. split.
    + intros Hin chosen' [= <-] _. exists k. auto.
    + intros Hsat. destruct (Hsat chosen eq_refl Hne) as (c & Hc & [= ->]).
      exact Hc.
  - apply selected_false in Hsel. split; [|reflexivity].
    intros _ chosen Hchosen Hne.
    destruct Hsel as [Hs|Hs]; rewrite Hs in Hchosen; congruence.
Qed.

Lemma tags_ok_spec filters activity :
  tags_ok filters activity = true <-> satisfies_tags filters activity.
Proof.
  unfold tags_ok, satisfies_tags.
  destruct (selected (tags filters)) eqn:Hsel.
  - apply selected_true in Hsel as (chosen & -> & Hne). simpl.
    destruct (truthy_string (tagsValue activity)) eqn:Htags; simpl.
    + apply truthy_string_true in Htags.
      rewrite existsb_exists. split.
      * intros (t & Ht & Hin) chosen' [= <-] _.
        apply array_includes_spec in Hin. eauto.
      * intros Hsat.
        destruct (Hsat chosen eq_refl Hne) as (_ & t & Ht & Hin).
        exists t. split; [exact Ht|]. apply array_includes_spec, Hin.
    + apply truthy_string_false in Htags. split; [discriminate|].
      intros Hsat. destruct (Hsat chosen eq_refl Hne) as (Hno & _).
      contradiction.
  - apply selected_false in Hsel. split; [|reflexivity].
    intros _ chosen Hchosen Hne.
    destruct Hsel as [Hs|Hs]; rewrite Hs in Hchosen; congruence.
Qed.

Lemma dateRange_ok_spec filters activity :
  dateRange_ok filters activity = true <->
  passes_dateRange filters activity.
Proof.
  unfold dateRange_ok, passes_dateRange.
  destruct (truthy_opt (range_start filters)) eqn:Hstart.
  - apply truthy_opt_true in Hstart as (start & -> & Hs). simpl.
    destruct (truthy_opt (dateValue activity)) eqn:Hdate.
    + apply truthy_opt_true in Hdate as (d & -> & Hd). simpl.
      destruct (time_lt (Date_getTime (VStr d))
                        (Date_getTime (VStr start))) eqn:Hlt.
      * split; [discriminate|].
        intros Hsat.
        destruct (Hsat start eq_refl Hs) as (d' & [= <-] & _ & Hge & _).
        congruence.
      * destruct (truthy_opt (range_end filters)) eqn:Hend.
        -- apply truthy_opt_true in Hend as (finish & -> & Hf). simpl.
           rewrite negb_true_iff. split.
           ++ intros Hle start' [= <-] _. exists d.
              repeat split; auto. intros finish' [= <-] _. exact Hle.
           ++ intros Hsat.
              destruct (Hsat start eq_refl Hs)
                as (d' & [= <-] & _ & _ & Hle).
              apply (Hle finish eq_refl Hf).
        -- split; [|reflexivity].
           intros _ start' [= <-] _. exists d. repeat split; auto.
           intros finish Hfin Hf.
           assert (Ht : truthy_opt (range_end filters) = true).
           { apply truthy_opt_true. eauto. }
           congruence.
    + split; [discriminate|].
      intros Hsat. destruct (Hsat start eq_refl Hs) as (d & Hd & Hne & _).
      assert (Ht : truthy_opt (dateValue activity) = true).
      { apply truthy_opt_true. eauto. }
      congruence.
  - split; [|reflexivity].
    intros _ start Hst Hne.
    assert (Ht : truthy_opt (range_start filters) = true).
    { apply truthy_opt_true. eauto. }
    congruence.
Qed.

Lemma minPoints_ok_spec filters activity :
  minPoints_ok filters activity = true <->
  satisfies_minPoints filters activity.
Proof.
  unfold minPoints_ok, satisfies_minPoints, minPoints_set.
  destruct (minPoints filters) as [m|]; simpl.
  - destruct (truthy_number m) eqn:Hm.
    + rewrite negb_true_iff. split.
      * intros Hlt m' [= <-] _. exact Hlt.
      * intros Hsat. apply (Hsat m eq_refl Hm).
    + split; [|reflexivity]. intros _ m' [= <-] Hm'. congruence.
  - split; [|reflexivity]. intros _ m' Hm'. discriminate.
Qed.

(** What a kept record satisfies, and conversely. *)
Lemma keepActivity_spec searchQuery filters activity :
  keepActivity searchQuery filters activity = true <->
  hasRequiredFields activity = true /\
  satisfies_query searchQuery activity /\
  satisfies_selection (categories filters) (categoryName activity) /\
  satisfies_selection (activities filters) (activityName activity) /\
  passes_dateRange filters activity /\
  satisfies_minPoints filters activity /\
  satisfies_tags filters activity.
Proof.
  rewrite keepActivity_true.
  rewrite search_ok_spec, dateRange_ok_spec, minPoints_ok_spec, tags_ok_spec.
  unfold categories_ok, activities_ok, hasRequiredFields.
  split.
  - intros (Hreq & Hq & Hc & Ha & Hrest).
    pose proof Hreq as Hreq'. apply andb_true_iff in Hreq' as [Hname Hcat].
    apply (selection_ok_spec _ _ Hcat) in Hc.
    apply (selection_ok_spec _ _ Hname) in Ha. tauto.
  - intros (Hreq & Hq & Hc & Ha & Hrest).
    pose proof Hreq as Hreq'. apply andb_true_iff in Hreq' as [Hname Hcat].
    apply (selection_ok_spec _ _ Hcat) in Hc.
    apply (selection_ok_spec _ _ Hname) in Ha. tauto.
Qed.

End Filtering.

Section FilterTheorems.
Context `{Engine}.

(** The filtered list is a subsequence of the input, and every record
    in it has passed every block of the callback at once: the text
    query, the three multi-selects, each through any one of its chosen
    values, the minimum, and the date block. *)
Theorem filteredActivities_sound (records : list Activity)
    (searchQuery : string) (filters : ActivityFilters) :
  sublist (filteredActivities records searchQuery filters) records
  /\ forall activity,
       In activity (filteredActivities records searchQuery filters) ->
       satisfies_query searchQuery activity
       /\ satisfies_selection (categories filters) (categoryName activity)
       /\ satisfies_selection (activities filters)
                              (activityName activity)
       /\ satisfies_tags filters activity
       /\ passes_dateRange filters activity
       /\ satisfies_minPoints filters activity.
Proof.
  split; [apply filter_sublist|].
  intros activity Hin. unfold filteredActivities in Hin.
  apply filter_In in Hin as [_ Hkeep].
  apply keepActivity_spec in Hkeep. tauto.
Qed.

(** The converse: a record of the input that has a name and a category
    and satisfies the query and every dimension is returned. *)
Lemma filteredActivities_complete (records : list Activity)
    (searchQuery : string) (filters : ActivityFilters) activity :
  In activity records ->
  hasRequiredFields activity = true ->
  satisfies_query searchQuery activity ->
  satisfies_selection (categories filters) (categoryName activity) ->
  satisfies_selection (activities filters) (activityName activity) ->
  satisfies_tags filters activity ->
  passes_dateRange filters activity ->
  satisfies_minPoints filters activity ->
  In activity (filteredActivities records searchQuery filters).
Proof.
  intros. unfold filteredActivities. apply filter_In. split; [assumption|].
  apply keepActivity_spec. tauto.
Qed.

(** With nothing to filter by, the callback only checks that the
    record has a name and a category. *)
Lemma keepActivity_no_filter (filters : ActivityFilters) activity :
  no_active_filter filters ->
  keepActivity "" filters activity = hasRequiredFields activity.
Proof.
  intros (Hc & Ha & Ht & Hd & Hm).
  apply selected_false in Hc, Ha, Ht.
  unfold keepActivity, search_ok, categories_ok, activities_ok,
    dateRange_ok, minPoints_ok, tags_ok.
  rewrite Hc, Ha, Ht, Hd, Hm. simpl.
  destruct (hasRequiredFields activity); reflexivity.
Qed.

(** C2 (as amended): with no active filter and an empty query, the
    filter returns exactly the records that have an activity name and
    a category name, in their order; so all of the list when every
    record has both. *)
Theorem filteredActivities_no_filter (records : list Activity)
    (filters : ActivityFilters) :
  no_active_filter filters ->
  filteredActivities records "" filters
    = List.filter hasRequiredFields records
  /\ (Forall (fun a => hasRequiredFields a = true) records ->
      filteredActivities records "" filters = records).
Proof.
  intros Hnone.
  assert (Heq : filteredActivities records "" filters
                = List.filter hasRequiredFields records).
  { unfold filteredActivities. apply filter_ext. intros a.
    apply keepActivity_no_filter, Hnone. }
  split; [exact Heq|].
  intros Hall. rewrite Heq. clear Heq.
  induction Hall as [|a l Ha Hl IH]; simpl; [reflexivity|].
  rewrite Ha, IH. reflexivity.
Qed.

End FilterTheorems.

(** When the three dates are valid ones, passing the date block is
    lying between the start and the end of the last day. *)
Lemma passes_dateRange_valid `{Engine} (filters : ActivityFilters)
    (activity : Activity) start finish d (ts tf td : Z) :
  range_start filters = Some start -> start <> "" ->
  range_end filters = Some finish -> finish <> "" ->
  dateValue activity = Some d ->
  Date_getTime (VStr start) = Some ts ->
  Date_getTime (VStr finish) = Some tf ->
  Date_getTime (VStr d) = Some td ->
  passes_dateRange filters activity ->
  ts <= td <= setHours_endOfDay tf.
Proof.
  intros Hs Hsne Hf Hfne Hd Hts Htf Htd Hsat.
  destruct (Hsat start Hs Hsne) as (d' & Hd' & _ & Hge & Hle).
  rewrite Hd in Hd'. injection Hd' as <-.
  specialize (Hle finish Hf Hfne).
  unfold endOfDay in Hle. rewrite Htf, Htd in Hle. rewrite Hts, Htd in Hge.
  simpl in Hge, Hle. apply Z.ltb_ge in Hge, Hle. lia.
Qed.

(** The end date is only looked at when a start date is set: a range
    with an end alone rejects nothing. *)
Lemma dateRange_end_alone `{Engine} (activity : Activity) finish :
  dateRange_ok (mkFilters None None None
                  (Some (mkDateRange None (Some finish))) None) activity
  = true.
Proof. reflexivity. Qed.

Lemma noFilters_inactive : no_active_filter noFilters.
Proof. unfold no_active_filter. simpl. auto. Qed.

(** The theorem at work: of three records the two complete ones are
    returned. *)
Lemma filteredActivities_no_filter_witness :
  filteredActivities (H := ascii_engine)
    [morningRun; uncategorised; eveningRead] "" noFilters
  = [morningRun; eveningRead].
Proof.
  destruct (filteredActivities_no_filter (H := ascii_engine)
              [morningRun; uncategorised; eveningRead] noFilters
              noFilters_inactive) as [Heq _].
  rewrite Heq. reflexivity.
Defined.

(** C2, counterexample: a record without a category is dropped although
    no filter is set and the query is empty. *)
Lemma filteredActivities_identity_counterexample :
  no_active_filter noFilters
  /\ filteredActivities (H := ascii_engine) [uncategorised] "" noFilters = []
  /\ filteredActivities (H := ascii_engine) [uncategorised] "" noFilters
     <> [uncategorised].
Proof.
  split; [exact noFilters_inactive|].
  split; [reflexivity | discriminate].
Qed.

(** The filter on the sample data: query, two categories, a tag, a date
    range and a minimum all hold of the run, and of nothing else. *)
Example filteredActivities_sample :
  filteredActivities (H := ascii_engine)
    [eveningRead; morningRun; uncategorised] "RUN" exerciseCardio
  = [morningRun].
Proof. vm_compute. reflexivity. Qed.

(** The run of the sample data has the chosen tag and category. *)
Lemma filteredActivities_sound_sample :
  satisfies_tags (H := ascii_engine) exerciseCardio morningRun
  /\ satisfies_selection (categories exerciseCardio) (categoryName morningRun).
Proof.
  destruct (filteredActivities_sound (H := ascii_engine)
              [eveningRead; morningRun; uncategorised] "RUN" exerciseCardio)
    as [_ Hsat].
  destruct (Hsat morningRun) as (_ & Hcat & _ & Htags & _).
  - vm_compute. left. reflexivity.
  - split; assumption.
Qed.

(** With a start date set, a returned record whose date is a valid one
    lies within the chosen range. *)
Lemma filteredActivities_in_range `{Engine} (records : list Activity)
    (searchQuery : string) (filters : ActivityFilters) activity d td :
  In activity (filteredActivities records searchQuery filters) ->
  truthy_opt (range_start filters) = true ->
  dateValue activity = Some d -> Date_getTime (VStr d) = Some td ->
  within_dateRange filters activity.
Proof.
  intros Hin Hstart Hd Htd.
  unfold filteredActivities in Hin. apply filter_In in Hin as [_ Hkeep].
  apply keepActivity_spec in Hkeep as (_ & _ & _ & _ & Hpass & _).
  apply truthy_opt_true in Hstart as (start & Hs & Hsne).
  destruct (Hpass start Hs Hsne) as (d' & Hd' & _ & Hge & Hle).
  rewrite Hd in Hd'. injection Hd' as <-.
  intros range Hrange. unfold range_start, range_end in *.
  rewrite Hrange in *. split.
  - intros start' ts Hs' _ Hts. exists d, td. repeat split; auto.
    rewrite Hs in Hs'. injection Hs' as <-.
    rewrite Htd, Hts in Hge. simpl in Hge. apply Z.ltb_ge in Hge. exact Hge.
  - intros finish tf Hf Hfne Htf. exists d, td. repeat split; auto.
    specialize (Hle finish Hf Hfne). unfold endOfDay in Hle.
    rewrite Htf, Htd in Hle. simpl in Hle. apply Z.ltb_ge in Hle. exact Hle.
Qed.






(** ** Sorting *)

Lemma sort_insert_perm {A} (cmp : A -> A -> option Z) x l :
  Permutation (sort_insert cmp x l) (x :: l).
Proof.
  induction l as [|y l IH]; simpl; [reflexivity|].
  destruct (comparator_result (cmp x y) <=? 0); [reflexivity|].
  rewrite IH. apply perm_swap.
Qed.

(** Whatever the comparator, the sorted array holds the same elements. *)
Lemma Array_sort_perm {A} (cmp : A -> A -> option Z) l :
  Permutation (Array_sort cmp l) l.
Proof.
  induction l as [|x l IH]; simpl; [reflexivity|].
  rewrite sort_insert_perm, IH. reflexivity.
Qed.

Section InsertionSort.
Context {A : Type} (cmp : A -> A -> option Z) (P : A -> Prop).

(** The comparator is consistent on the elements that satisfy [P]. *)
Hypothesis before_total :
  forall x y, P x -> P y -> may_precede cmp x y \/ may_precede cmp y x.
Hypothesis before_trans :
  forall x y z, P x -> P y -> P z ->
    may_precede cmp x y -> may_precede cmp y z -> may_precede cmp x z.

Lemma sort_insert_sorted x l :
  P x -> Forall P l -> StronglySorted (may_precede cmp) l ->
  StronglySorted (may_precede cmp) (sort_insert cmp x l).
Proof.
  intros Hx Hl Hs. induction Hs as [|y l Hs IH Hy]; simpl.
  - repeat constructor.
  - apply Forall_cons in Hl as [HPy HPl].
    destruct (Z.leb_spec (comparator_result (cmp x y)) 0) as [Hle|Hgt].
    + constructor; [constructor; assumption|].
      constructor; [exact Hle|].
      rewrite List.Forall_forall in Hy, HPl |- *. intros z Hz.
      apply (before_trans x y z); auto.
    + constructor; [apply IH; exact HPl|].
      assert (Hyx : may_precede cmp y x).
      { destruct (before_total x y Hx HPy) as [Hxy|Hyx]; [|exact Hyx].
        unfold may_precede in Hxy. lia. }
      rewrite List.Forall_forall in Hy |- *. intros z Hz.
      apply (Permutation_in _ (sort_insert_perm cmp x l)) in Hz.
      destruct Hz as [<-|Hz]; auto.
Qed.

(** On a consistent comparator the result is sorted. *)
Lemma Array_sort_sorted l :
  Forall P l -> StronglySorted (may_precede cmp) (Array_sort cmp l).
Proof.
  induction l as [|x l IH]; intros Hl; simpl; [constructor|].
  apply Forall_cons in Hl as [Hx Hl].
  apply sort_insert_sorted; auto.
  rewrite List.Forall_forall in Hl |- *. intros z Hz.
  apply Hl. apply (Permutation_in _ (Array_sort_perm cmp l)), Hz.
Qed.

End InsertionSort.

(** The sort is stable: it leaves alone an array that is in order. *)
Lemma Array_sort_in_order {A} (cmp : A -> A -> option Z) l :
  StronglySorted (may_precede cmp) l ->
  Array_sort cmp l = l.
Proof.
  induction 1 as [|x l Hs IH Hx]; simpl; [reflexivity|].
  rewrite IH. destruct l as [|y l]; simpl; [reflexivity|].
  apply Forall_cons in Hx as [Hxy _]. unfold may_precede in Hxy.
  destruct (Z.leb_spec (comparator_result (cmp x y)) 0); [reflexivity|lia].
Qed.


Lemma StronglySorted_weaken {A} (R R' : A -> A -> Prop) (P : A -> Prop) l :
  (forall x y, P x -> P y -> R x y -> R' x y) ->
  Forall P l -> StronglySorted R l -> StronglySorted R' l.
Proof.
  intros Himp Hl Hs. induction Hs as [|x l Hs IH Hx]; [constructor|].
  apply Forall_cons in Hl as [HPx HPl].
  constructor; [apply IH, HPl|].
  rewrite List.Forall_forall in Hx, HPl |- *. intros y Hy. auto.
Qed.

Section SortTheorems.
Context `{E : Engine}.


(** On two records with valid dates the comparator says "not after"
    exactly when they are in order. *)
Lemma compareActivities_in_order a b :
  dateKey a <> None -> dateKey b <> None ->
  may_precede compareActivities a b <-> in_order a b.
Proof.
  intros Ha Hb. unfold may_precede, compareActivities, in_order.
  destruct (dateKey a) as [da|]; [|contradiction].
  destruct (dateKey b) as [db|]; [|contradiction]. simpl.
  destruct (db - da) as [|p|p] eqn:Hd; simpl.
  - split.
    + intros Hle. exists da, db. repeat split. right. split; [lia | exact Hle].
    + intros (da' & db' & [= <-] & [= <-] & [Hlt | [_ Hle]]); [lia | exact Hle].
  - split; [lia|].
    intros (da' & db' & [= <-] & [= <-] & [Hlt | [Heq _]]); lia.
  - split.
    + intros _. exists da, db. repeat split. left. lia.
    + lia.
Qed.

Context `{!ConsistentCollation E}.

Lemma localeCompare_total s t :
  localeCompare s t <= 0 \/ localeCompare t s <= 0.
Proof. pose proof (localeCompare_swap s t). lia. Qed.

Lemma in_order_total a b :
  dateKey a <> None -> dateKey b <> None -> in_order a b \/ in_order b a.
Proof.
  intros Ha Hb. unfold in_order.
  destruct (dateKey a) as [da|]; [|contradiction].
  destruct (dateKey b) as [db|]; [|contradiction].
  destruct (Z.lt_trichotomy da db) as [Hlt|[Heq|Hgt]].
  - right. exists db, da. repeat split. left. exact Hlt.
  - destruct (localeCompare_total (timeKey a) (timeKey b)) as [Hle|Hle].
    + left. exists da, db. repeat split. right. auto.
    + right. exists db, da. repeat split. right. auto.
  - left. exists da, db. repeat split. left. exact Hgt.
Qed.

Lemma in_order_trans a b c : in_order a b -> in_order b c -> in_order a c.
Proof.
  intros (da & db & Ha & Hb & Hab) (db' & dc & Hb' & Hc & Hbc).
  rewrite Hb in Hb'. injection Hb' as <-.
  exists da, dc. repeat split; auto.
  destruct Hab as [Hab|[-> Hab]], Hbc as [Hbc|[-> Hbc]];
    [left; lia | left; lia | left; lia |].
  right. split; [reflexivity|].
  apply (localeCompare_trans _ (timeKey b)); assumption.
Qed.

(** For a consistent collation and valid dates the result is ordered
    by date, descending, and within a date by the collation. *)
Lemma sortActivities_sorted_by_collation (l : list Activity) :
  dates_valid l ->
  Permutation (sortActivities l) l
  /\ sorted_by_date_then_time (sortActivities l).
Proof.
  intros Hvalid.
  assert (Hperm : Permutation (sortActivities l) l)
    by apply Array_sort_perm.
  assert (Hvalid' : dates_valid (sortActivities l)).
  { unfold dates_valid in *. rewrite List.Forall_forall in Hvalid |- *.
    intros a Ha. apply Hvalid. apply (Permutation_in _ Hperm), Ha. }
  split; [exact Hperm|].
  unfold sorted_by_date_then_time.
  apply (StronglySorted_weaken (may_precede compareActivities)
           in_order (fun a => dateKey a <> None)).
  - intros a b Ha Hb. apply compareActivities_in_order; assumption.
  - exact Hvalid'.
  - apply (Array_sort_sorted compareActivities
             (fun a => dateKey a <> None)).
    + intros a b Ha Hb.
      rewrite !compareActivities_in_order by assumption.
      apply in_order_total; assumption.
    + intros a b c Ha Hb Hc.
      rewrite !compareActivities_in_order by assumption.
      apply in_order_trans.
    + exact Hvalid.
Qed.

End SortTheorems.



Section LexicographicSort.
Context `{E : Engine}.





End LexicographicSort.

(** Comparison by code unit is a consistent collation, and it is the
    lexicographic order. *)
Lemma ascii_engine_collation : ConsistentCollation ascii_engine.
Proof.
  split; simpl; unfold codeunit_compare.
  - intros s t. rewrite (String.compare_antisym t s).
    destruct (String.compare s t); reflexivity.
  - intros s t u Hst Htu.
    destruct (String.compare s t) eqn:Est; [| |lia];
      destruct (String.compare t u) eqn:Etu; try lia.
    + apply OrderedTypeEx.String_as_OT.cmp_eq in Est, Etu. subst.
      pose proof (proj2 (OrderedTypeEx.String_as_OT.cmp_eq u u) eq_refl) as Hr.
      unfold OrderedTypeEx.String_as_OT.cmp in Hr. rewrite Hr. lia.
    + apply OrderedTypeEx.String_as_OT.cmp_eq in Est. subst.
      rewrite Etu. lia.
    + apply OrderedTypeEx.String_as_OT.cmp_eq in Etu. subst.
      rewrite Est. lia.
    + apply OrderedTypeEx.String_as_OT.cmp_lt in Est, Etu.
      pose proof (OrderedTypeEx.String_as_OT.lt_trans _ _ _ Est Etu) as Hsu.
      apply OrderedTypeEx.String_as_OT.cmp_lt in Hsu.
      unfold OrderedTypeEx.String_as_OT.cmp in Hsu. rewrite Hsu. lia.
Qed.

Lemma ascii_engine_lexicographic (l : list Activity) :
  lexicographic_on (H := ascii_engine) l.
Proof.
  intros a b _ _. simpl. unfold codeunit_compare, lex_le.
  destruct (String.compare _ _); split; intros Hle;
    first [lia | discriminate | contradiction].
Qed.

Example sortActivities_sample :
  sortActivities (H := ascii_engine) [eveningRead; uncategorised; morningRun]
  = [uncategorised; morningRun; eveningRead].
Proof. vm_compute. reflexivity. Qed.







(** ** Chart data preparers *)

Section Charts.
Context `{Engine}.

(** The filter callback rejects exactly the logs whose target field is
    missing, undefined, null or not a number. *)
Lemma field_is_number_false property log :
  field_is_number property log = false <-> field_unusable property log.
Proof.
  unfold field_is_number, field_unusable, prop.
  destruct (log !! property) as [v|]; simpl.
  - destruct v as [| |b|n|s]; simpl;
      try (split; [intros _; auto; fail | reflexivity]).
    + destruct b; simpl; split; try discriminate;
        intros [?|[?|[?|?]]]; discriminate.
    + destruct (isNaN n) eqn:Hn; simpl.
      * split; [|reflexivity]. intros _.
        destruct n; try discriminate. auto.
      * split; [discriminate|].
        intros [?|[?|[?|Hnan]]]; try discriminate.
        rewrite Hnan in Hn. discriminate.
    + destruct (isNaN (StringToNumber s)) eqn:Hn; simpl.
      * split; [|reflexivity]. intros _.
        destruct (StringToNumber s); try discriminate. auto.
      * split; [discriminate|].
        intros [?|[?|[?|Hnan]]]; try discriminate.
        rewrite Hnan in Hn. discriminate.
  - split; [auto | reflexivity].
Qed.

(** The sleep-hours preparer is the mood preparer at [sleep_hours]. *)
Lemma prepareSleepHoursData_eq logs :
  prepareSleepHoursData logs = prepareMoodData logs "sleep_hours".
Proof. reflexivity. Qed.

(** A log whose target field is unusable leaves no trace in the
    output: the points are those of the list without it. *)
Lemma prepareMoodData_omits logs1 bad logs2 property :
  field_unusable property bad ->
  prepareMoodData (logs1 ++ bad :: logs2) property
  = prepareMoodData (logs1 ++ logs2) property.
Proof.
  intros Hbad. apply field_is_number_false in Hbad.
  unfold prepareMoodData.
  rewrite !List.filter_app. simpl. rewrite Hbad.
  destruct logs1 as [|l1 logs1]; simpl; [|reflexivity].
  destruct logs2 as [|l2 logs2]; reflexivity.
Qed.

(** One point for each usable log, and no other point. *)
Lemma prepareMoodData_points logs property :
  Permutation (prepareMoodData logs property)
    (List.map (datedPoint property)
              (List.filter (field_is_number property) logs))
  /\ length (prepareMoodData logs property)
     = length (List.filter (field_is_number property) logs).
Proof.
  assert (Hp : Permutation (prepareMoodData logs property)
                 (List.map (datedPoint property)
                    (List.filter (field_is_number property) logs))).
  { unfold prepareMoodData. destruct logs as [|l logs]; [reflexivity|].
    cbn [no_logs]. apply Permutation_map, Array_sort_perm. }
  split; [exact Hp|].
  rewrite (Permutation_length Hp). apply length_map.
Qed.

(** The scatter preparer omits a log one of whose two fields is
    missing, undefined or not a number. *)
Lemma prepareSleepMoodData_omits logs1 bad logs2 :
  (exists property,
     (property = "sleep_hours" \/ property = "mood_score") /\
     (prop property bad = VUndefined \/
      ToNumber (prop property bad) = NaN)) ->
  prepareSleepMoodData (logs1 ++ bad :: logs2)
  = prepareSleepMoodData (logs1 ++ logs2).
Proof.
  intros (property & Hwhich & Hbad).
  assert (Hrej : sleep_and_mood_are_numbers bad = false).
  { unfold sleep_and_mood_are_numbers.
    destruct Hwhich as [-> | ->], Hbad as [-> | ->]; simpl;
      rewrite ?andb_false_r; reflexivity. }
  unfold prepareSleepMoodData.
  rewrite !List.filter_app. simpl. rewrite Hrej.
  destruct logs1 as [|l1 logs1]; simpl; [|reflexivity].
  destruct logs2 as [|l2 logs2]; reflexivity.
Qed.

(** C7, at the failing input: a log whose [sleep_hours] is [null] is
    dropped by [prepareSleepHoursData], as the claim says, but kept by
    [prepareSleepMoodData], which plots it at zero hours of sleep. *)
Theorem prepareSleepMoodData_keeps_null :
  field_unusable "sleep_hours" nullSleepLog
  /\ prepareSleepHoursData [nullSleepLog] = []
  /\ prepareSleepMoodData [nullSleepLog]
     = [ mkScatterPoint (Fin 0) (Fin 7) (formatDate (VStr "2025-04-01")) ].
Proof.
  split; [right; right; left; reflexivity|].
  split; reflexivity.
Qed.

End Charts.

Example prepareMoodData_sample :
  prepareMoodData (H := ascii_engine) [nullSleepLog; fullLog] "mood_score"
  = [ mkDatedPoint (VStr "2025-03-31") (Fin 6) "March 31, 2025";
      mkDatedPoint (VStr "2025-04-01") (Fin 7) "April 1, 2025" ].
Proof. vm_compute. reflexivity. Qed.

Example prepareSleepMoodData_sample :
  prepareSleepMoodData (H := ascii_engine) [nullSleepLog; fullLog]
  = [ mkScatterPoint (Fin 0) (Fin 7) "April 1, 2025";
      mkScatterPoint (Fin (15 # 2)) (Fin 6) "March 31, 2025" ].
Proof. vm_compute. reflexivity. Qed.

(* ===================================================================== *)
(** * Further functions of the same files                                 *)
(* ===================================================================== *)

(** ** The activities API *)

(** What a read finds after a write, for a codec that reads back the
    entry and rejects the empty text. *)
Lemma getFromCache_saved {Payload} `{JsonCodec Payload}
    (storage : gmap string string) (t0 now : Z) (d : Payload) :
  JSON_parse (JSON_stringify (mkEntry t0 d)) = Some (mkEntry t0 d) ->
  JSON_parse "" = None ->
  getFromCache now (saveToCache t0 d storage)
  = if now - t0 <? 60000 then Some d else None.
Proof.
  intros Hround Hempty. unfold getFromCache, saveToCache.
  rewrite lookup_insert_eq.
  destruct (truthy_string (JSON_stringify (mkEntry t0 d))) eqn:Hne.
  - simpl. rewrite Hround. reflexivity.
  - apply truthy_string_false in Hne. rewrite Hne in Hround. congruence.
Qed.

(** Once the entry is removed, every read is a miss. *)
Lemma getFromCache_removed {Payload} `{JsonCodec Payload}
    (storage : gmap string string) (now : Z) :
  getFromCache now (delete CACHE_KEY storage) = None.
Proof. unfold getFromCache. rewrite lookup_delete_eq. reflexivity. Qed.

Section ActivitiesApi.
Context `{ActivitiesRuntime}.

Lemma testData_nonempty now : testData now <> [].
Proof. discriminate. Qed.

Lemma fetchFallback_returns later storage :
  exists data, fetchFallback later storage = Return (data, storage)
    /\ data <> []
    /\ (data = testData later \/ getFromCache later storage = Some data).
Proof.
  unfold fetchFallback.
  destruct (getFromCache later storage) as [[|x c]|]; simpl.
  - exists (testData later). auto using testData_nonempty.
  - exists (x :: c). split; [reflexivity|]. split; [discriminate | auto].
  - exists (testData later). auto using testData_nonempty.
Qed.

(** A failed request makes the inner block throw. *)
Lemma fetchFromServer_failed later fetched storage :
  fetch_failed fetched ->
  exists e, fetchFromServer later fetched storage = Throw e.
Proof.
  unfold fetch_failed, fetchFromServer.
  destruct fetched as [response|e]; simpl; [|eauto].
  intros [Hok|Htext].
  - rewrite Hok. simpl. eauto.
  - destruct (raw_ok response); simpl; [|eauto].
    destruct (raw_text response) as [text|e]; simpl; [|eauto].
    destruct Htext as [e ->]. simpl. eauto.
Qed.

(** The inner block on a 2xx response carrying a JSON array. *)
Lemma fetchFromServer_array later fetched storage items :
  fetched_array fetched items ->
  fetchFromServer later fetched storage
  = Return (items,
            if nonempty items then saveToCache later items storage
            else storage).
Proof.
  intros (response & text & -> & Hok & Htext & Hparse).
  unfold fetchFromServer. simpl. rewrite Hok, Htext. simpl.
  rewrite Hparse. reflexivity.
Qed.

(** The inner block never leaves the storage in any other state than
    the one it found or the one with the fetched array saved. *)
Lemma fetchFromServer_storage later fetched storage data storage' :
  fetchFromServer later fetched storage = Return (data, storage') ->
  storage' = storage \/
  (fetched_array fetched data /\ data <> [] /\
   storage' = saveToCache later data storage).
Proof.
  unfold fetchFromServer.
  destruct fetched as [response|e]; simpl; [|discriminate].
  destruct (raw_ok response) eqn:Hok; simpl; [|discriminate].
  destruct (raw_text response) as [text|e] eqn:Htext; simpl; [|discriminate].
  destruct (JSON_parse_text text) as [doc|e] eqn:Hparse; simpl;
    [|discriminate].
  destruct doc as [| | | |items|fields]; try (intros [= <- <-]; auto; fail).
  - destruct items as [|x items]; simpl; intros [= <- <-]; [auto|].
    right. split; [|split; [discriminate | reflexivity]].
    exists response, text. auto.
  - destruct (List.find _ fields) as [[k [| | | |items|fs]]|];
      intros [= <- <-]; auto.
Qed.

(** [fetchActivities] always returns. *)
Lemma fetchActivities_returns (forceRefresh : bool) (now later : Z)
    (fetched : Outcome RawResponse error) (storage : gmap string string) :
  exists data storage',
    fetchActivities forceRefresh now later fetched storage
    = (Return data, storage').
Proof.
  unfold fetchActivities.
  destruct (if forceRefresh then None else getFromCache now storage)
    as [cached|]; simpl; [eauto|].
  destruct (fetchFromServer later fetched storage) as [[data st]|e]; simpl;
    [eauto|].
  destruct (fetchFallback_returns later storage) as (data & -> & _).
  simpl. eauto.
Qed.

(** X1: [fetchActivities] never throws, and it writes to the cache only
    when the server answered with a non-empty array, which it then
    saves as it is; in every other case the storage is left alone. *)
Theorem fetchActivities_total_and_cache_writes (forceRefresh : bool)
    (now later : Z) (fetched : Outcome RawResponse error)
    (storage : gmap string string) :
  exists data storage',
    fetchActivities forceRefresh now later fetched storage
    = (Return data, storage')
    /\ (storage' = storage \/
        (fetched_array fetched data /\ data <> [] /\
         storage' = saveToCache later data storage)).
Proof.
  unfold fetchActivities.
  destruct (if forceRefresh then None else getFromCache now storage)
    as [cached|]; simpl; [eauto|].
  destruct (fetchFromServer later fetched storage) as [[data st]|e] eqn:Hsrv;
    simpl.
  - exists data, st. split; [reflexivity|].
    apply (fetchFromServer_storage _ _ _ _ _ Hsrv).
  - destruct (fetchFallback_returns later storage) as (data & -> & _).
    simpl. eauto.
Qed.

(** X2: when the request fails and no fresh cache was served at the
    start, the cache is read once more: if it is fresh by then and
    holds a non-empty list, that list is returned; if it is stale,
    missing or empty, the one made-up test record is returned.  Either
    way the result is not empty and the storage is untouched. *)
Theorem fetchActivities_failure_fallback (forceRefresh : bool)
    (now later : Z) (fetched : Outcome RawResponse error)
    (storage : gmap string string) :
  fetch_failed fetched ->
  forceRefresh = true \/ getFromCache now storage = None ->
  (forall cached,
     getFromCache later storage = Some cached -> cached <> [] ->
     fetchActivities forceRefresh now later fetched storage
     = (Return cached, storage))
  /\ (getFromCache later storage = None \/
      getFromCache later storage = Some [] ->
      fetchActivities forceRefresh now later fetched storage
      = (Return (testData later), storage))
  /\ (exists data,
        fetchActivities forceRefresh now later fetched storage
        = (Return data, storage) /\ data <> []).
Proof.
  intros Hfail Hmiss.
  assert (Hnone : (if forceRefresh then None else getFromCache now storage)
                  = None).
  { destruct Hmiss as [-> | Hc]; [reflexivity|].
    destruct forceRefresh; [reflexivity | exact Hc]. }
  assert (Hfall : fetchActivities forceRefresh now later fetched storage
                  = match fetchFallback later storage with
                    | Return (data, storage') => (Return data, storage')
                    | Throw e => (Return [], storage)
                    end).
  { unfold fetchActivities. rewrite Hnone.
    destruct (fetchFromServer_failed later fetched storage Hfail) as [e ->].
    simpl. destruct (fetchFallback later storage) as [[data s]|e']; reflexivity. }
  rewrite Hfall. unfold fetchFallback.
  split; [|split].
  - intros cached -> Hne. destruct cached; [contradiction | reflexivity].
  - intros [-> | ->]; reflexivity.
  - destruct (getFromCache later storage) as [[|x c]|]; simpl.
    + exists (testData later). auto using testData_nonempty.
    + exists (x :: c). split; [reflexivity | discriminate].
    + exists (testData later). auto using testData_nonempty.
Qed.

(** X3: a forced fetch that brings a non-empty array returns it and
    saves it, and for the next minute every unforced fetch returns that
    same array whatever the network does, without writing anything. *)
Theorem fetchActivities_cache_round_trip (now later : Z)
    (fetched : Outcome RawResponse error) (storage : gmap string string)
    (items : list json) :
  fetched_array fetched items -> items <> [] ->
  JSON_parse (JSON_stringify (mkEntry later items))
    = Some (mkEntry later items) ->
  JSON_parse (Payload := list json) "" = None ->
  fetchActivities true now later fetched storage
    = (Return items, saveToCache later items storage)
  /\ forall now' later' fetched',
       now' - later < CACHE_EXPIRY / 2 ->
       fetchActivities false now' later' fetched'
         (saveToCache later items storage)
       = (Return items, saveToCache later items storage).
Proof.
  intros Harr Hne Hround Hempty. split.
  - unfold fetchActivities.
    rewrite (fetchFromServer_array _ _ _ _ Harr).
    destruct items; [contradiction|]. reflexivity.
  - intros now' later' fetched' Hage. unfold fetchActivities.
    rewrite (getFromCache_saved _ _ _ _ Hround Hempty).
    rewrite CACHE_EXPIRY_half in Hage.
    replace (now' - later <? 60000) with true
      by (symmetry; apply Z.ltb_lt; exact Hage).
    reflexivity.
Qed.

(** X4: an empty array from the server is returned but does not touch
    the cache, so a list cached before is still served to unforced
    fetches while it is fresh. *)
Theorem fetchActivities_empty_keeps_cache (now later : Z)
    (fetched : Outcome RawResponse error) (storage : gmap string string)
    (cached : list json) :
  fetched_array fetched [] ->
  fetchActivities true now later fetched storage = (Return [], storage)
  /\ forall now' later' fetched',
       getFromCache now' storage = Some cached ->
       fetchActivities false now' later' fetched' storage
       = (Return cached, storage).
Proof.
  intros Harr. split.
  - unfold fetchActivities.
    rewrite (fetchFromServer_array _ _ _ _ Harr). reflexivity.
  - intros now' later' fetched' Hhit. unfold fetchActivities.
    rewrite Hhit. reflexivity.
Qed.

End ActivitiesApi.

(** An operation that succeeds at once is invoked once, and no timer is
    armed. *)
Lemma withRetry_first_success {T Err} (fn : nat -> Outcome T Err)
    (v : T) (n delay : Z) :
  fn 0%nat = Resolve v -> 1 <= n ->
  withRetry fn n delay world0 = (Return v, mkWorld 1 [Invoke]).
Proof.
  intros Hfn Hn. unfold withRetry. rewrite seqZ_cons by lia.
  simpl. unfold call. simpl. rewrite Hfn. reflexivity.
Qed.

(** An operation that fails every time is invoked as often as allowed,
    with the waits in between, and its last error is thrown. *)
Lemma withRetry_all_fail {T Err} (fn : nat -> Outcome T Err)
    (errs : nat -> Err) (n delay : Z) :
  (forall i, fn i = Reject (errs i)) -> 1 <= n ->
  withRetry (T := T) fn n delay world0
  = (Throw (Some (errs (Z.to_nat (n - 1)))),
     mkWorld (Z.to_nat n) (backoff delay (n - 1) ++ [Invoke])).
Proof.
  intros Hfail Hn. unfold withRetry, backoff.
  set (m := Z.to_nat (n - 1)).
  replace n with (Z.of_nat m + 1) at 2 by lia.
  rewrite seqZ_app by lia.
  rewrite (retry_over_failures fn n delay errs m 1 None world0)
    by (simpl; intros; first [apply Hfail | lia]).
  rewrite (seqZ_cons (1 + Z.of_nat m)) by lia.
  rewrite (seqZ_nil _ (Z.pred 1)) by lia.
  simpl. unfold call. simpl. rewrite (Hfail m).
  replace (1 + Z.of_nat m <? n) with false
    by (symmetry; apply Z.ltb_ge; lia).
  simpl. replace (n - 1) with (Z.of_nat m) by lia.
  repeat f_equal. lia.
Qed.

Section ActivitiesApiCalls.
Context `{ActivitiesRuntime}.

(** X5: wrapped in [withRetry], as [loadActivities] and
    [loadMoreActivities] call it, [fetchActivities] is invoked exactly
    once and no back-off timer is ever armed, whatever the network and
    the cache do: it never rejects, so there is nothing to retry. *)
Theorem withRetry_fetchActivities_once (forceRefresh : bool)
    (envs : nat -> FetchEnv) (maxRetries delay : Z) :
  1 <= maxRetries ->
  exists data,
    fst (fetchActivities forceRefresh (env_now (envs 0%nat))
           (env_later (envs 0%nat)) (env_fetched (envs 0%nat))
           (env_storage (envs 0%nat))) = Return data
    /\ withRetry (fetchActivities_call forceRefresh envs) maxRetries delay world0
       = (Return data, mkWorld 1 [Invoke]).
Proof.
  intros Hn.
  destruct (fetchActivities_returns forceRefresh
              (env_now (envs 0%nat)) (env_later (envs 0%nat))
              (env_fetched (envs 0%nat)) (env_storage (envs 0%nat)))
    as (data & st & Hres).
  exists data. rewrite Hres. split; [reflexivity|].
  apply withRetry_first_success; [|exact Hn].
  unfold fetchActivities_call. rewrite Hres. reflexivity.
Qed.

End ActivitiesApiCalls.

Section CreateActivity.
Context `{ActivitiesRuntime}.

Lemma missingFields_In (activity : gmap string value) field :
  In field (missingFields activity) <->
  In field requiredFields /\ truthy (prop field activity) = false.
Proof.
  unfold missingFields. rewrite filter_In, negb_true_iff. reflexivity.
Qed.

Lemma missingFields_nil (activity : gmap string value) :
  missingFields activity = [] <->
  forall field, In field requiredFields -> truthy (prop field activity) = true.
Proof.
  split.
  - intros Hnil field Hin.
    destruct (truthy (prop field activity)) eqn:Ht; [reflexivity|].
    assert (Hm : In field (missingFields activity))
      by (apply missingFields_In; auto).
    rewrite Hnil in Hm. contradiction.
  - intros Hall.
    destruct (missingFields activity) as [|f l] eqn:Hm; [reflexivity|].
    assert (Hf : In f (missingFields activity)) by (rewrite Hm; left; auto).
    apply missingFields_In in Hf as [Hin Hfalse].
    rewrite (Hall f Hin) in Hfalse. discriminate.
Qed.

Lemma afterResponse_storage activity status text storage :
  (exists created,
     afterResponse activity status text storage
     = (Return created, delete CACHE_KEY storage))
  \/ (exists e,
        afterResponse activity status text storage = (Throw e, storage)).
Proof.
  unfold afterResponse.
  destruct (JSON_parse_text text) as [data|e]; [|eauto].
  destruct ((200 <=? status) && (status <? 300)); [|eauto].
  destruct (returned_activity data); eauto.
Qed.

(** X6: an activity lacking one of the five required fields is refused
    before anything is sent: whatever the transport would do, the call
    throws an error that names exactly the fields that are missing, in
    their fixed order, and leaves the storage as it is. *)
Theorem createActivity_missing_fields (activity : gmap string value)
    (transport : Transport) (storage : gmap string string) field :
  In field requiredFields -> truthy (prop field activity) = false ->
  createActivity activity transport storage
  = (Throw (Error "Error"
              ("Missing required fields: "
               ++ join ", " (missingFields activity))), storage)
  /\ In field (missingFields activity)
  /\ sublist (missingFields activity) requiredFields
  /\ forall f, In f (missingFields activity) ->
       truthy (prop f activity) = false.
Proof.
  intros Hin Hfalse.
  assert (Hm : In field (missingFields activity))
    by (apply missingFields_In; auto).
  split.
  - unfold createActivity.
    destruct (missingFields activity); [contradiction | reflexivity].
  - split; [exact Hm|]. split; [apply filter_sublist|].
    intros f Hf. apply missingFields_In in Hf. tauto.
Qed.

(** X7: [createActivity] removes the cache entry exactly when it
    succeeds.  After a success every cache read is a miss, so the next
    unforced [fetchActivities] goes to the server like a forced one;
    after a failure the storage is as it was. *)
Theorem createActivity_invalidates_cache (activity : gmap string value)
    (transport : Transport) (storage : gmap string string) :
  (exists created,
     createActivity activity transport storage
     = (Return created, delete CACHE_KEY storage)
     /\ (forall now, getFromCache (Payload := list json) now
                       (delete CACHE_KEY storage) = None)
     /\ (forall now later fetched,
           fetchActivities false now later fetched (delete CACHE_KEY storage)
           = fetchActivities true now later fetched
               (delete CACHE_KEY storage)))
  \/ (exists e,
        createActivity activity transport storage = (Throw e, storage)).
Proof.
  assert (Hok : forall status text,
            (exists created,
               afterResponse activity status text storage
               = (Return created, delete CACHE_KEY storage)
               /\ (forall now, getFromCache (Payload := list json) now
                                 (delete CACHE_KEY storage) = None)
               /\ (forall now later fetched,
                     fetchActivities false now later fetched
                       (delete CACHE_KEY storage)
                     = fetchActivities true now later fetched
                         (delete CACHE_KEY storage)))
            \/ (exists e,
                  afterResponse activity status text storage
                  = (Throw e, storage))).
  { intros status text.
    destruct (afterResponse_storage activity status text storage)
      as [[created Hc]|Hthrow]; [left | right; exact Hthrow].
    exists created. split; [exact Hc|].
    split; [intros now; apply getFromCache_removed|].
    intros now later fetched. unfold fetchActivities.
    rewrite getFromCache_removed. reflexivity. }
  unfold createActivity.
  destruct (nonempty (missingFields activity)); [right; eauto|].
  destruct transport as [[| |status text]|[response|e]]; try (right; eauto; fail).
  - apply Hok.
  - destruct (raw_text response) as [text|e]; [apply Hok | right; eauto].
Qed.

(** Under [withRetry] with three attempts and one second of delay, an
    activity that lacks a required field is submitted three times, with
    waits of one and two seconds, before the validation error is
    thrown. *)
Lemma withRetry_createActivity_invalid (activity : gmap string value)
    (envs : nat -> Transport * gmap string string) field :
  In field requiredFields -> truthy (prop field activity) = false ->
  withRetry (createActivity_call activity envs) 3 1000 world0
  = (Throw (Some (Error "Error"
                    ("Missing required fields: "
                     ++ join ", " (missingFields activity)))),
     mkWorld 3 [Invoke; SetTimeout 1000; Invoke; SetTimeout 2000; Invoke]).
Proof.
  intros Hin Hfalse.
  assert (Hm : In field (missingFields activity))
    by (apply missingFields_In; auto).
  assert (Hcall : forall i,
            createActivity_call activity envs i
            = Reject (Error "Error"
                        ("Missing required fields: "
                         ++ join ", " (missingFields activity)))).
  { intros i. unfold createActivity_call, createActivity.
    destruct (missingFields activity); [contradiction | reflexivity]. }
  rewrite (withRetry_all_fail _ (fun _ => Error "Error"
             ("Missing required fields: "
              ++ join ", " (missingFields activity))) 3 1000 Hcall)
    by lia.
  reflexivity.
Qed.

End CreateActivity.

Example fetchActivities_sample :
  fetchActivities (H := strings_runtime) true 1000 2000 twoNames ∅
  = (Return [JStr "Morning run"; JStr "Reading"],
     saveToCache (H := activities_codec (ActivitiesRuntime := strings_runtime))
       2000 [JStr "Morning run"; JStr "Reading"] ∅).
Proof. vm_compute. reflexivity. Qed.

Lemma createActivity_missing_fields_witness :
  createActivity (H := strings_runtime) incompleteActivity
    (ViaXhr XhrTimeout) ∅
  = (Throw (Error "Error"
              "Missing required fields: Category, Start_Time, End_Time"), ∅).
Proof.
  destruct (createActivity_missing_fields (H := strings_runtime)
              incompleteActivity (ViaXhr XhrTimeout) ∅ "Category")
    as (Hthrow & _); [simpl; auto | reflexivity |].
  rewrite Hthrow. reflexivity.
Defined.

(** ** The activity list in the screen's state *)

Lemma same_id_true (a b : option Z) : same_id a b = true <-> a = b.
Proof.
  destruct a as [x|], b as [y|]; simpl; split; try discriminate; auto.
  - intros Hxy. apply Z.eqb_eq in Hxy. congruence.
  - intros [= ->]. apply Z.eqb_refl.
Qed.

Lemma same_id_false (a b : option Z) : same_id a b = false <-> a <> b.
Proof.
  rewrite <- same_id_true. destruct (same_id a b); split; congruence.
Qed.

Lemma Permutation_filter_bool {A} (f : A -> bool) (l l' : list A) :
  Permutation l l' -> Permutation (List.filter f l) (List.filter f l').
Proof.
  induction 1 as [|x l l' Hp IH|x y l|l l' l'' H1 IH1 H2 IH2]; simpl.
  - constructor.
  - destruct (f x); [constructor|]; exact IH.
  - destruct (f x), (f y); try reflexivity. apply perm_swap.
  - etransitivity; eassumption.
Qed.

Lemma filter_all_true {A} (f : A -> bool) (l : list A) :
  (forall x, In x l -> f x = true) -> List.filter f l = l.
Proof.
  induction l as [|x l IH]; intros Hall; simpl; [reflexivity|].
  rewrite (Hall x) by (left; reflexivity).
  rewrite IH; [reflexivity|]. intros y Hy. apply Hall. right. exact Hy.
Qed.

(** The running maximum never falls below where it started nor below a
    non-zero identifier it has passed. *)
Lemma maxId_fold_bounds (l : list Activity) : forall acc,
  let step := fun max act =>
    match a_activity_id act with
    | Some id => if truthy_id (Some id) && (max <? id) then id else max
    | None => max
    end in
  acc <= fold_left step l acc /\
  forall act id, In act l -> a_activity_id act = Some id -> id <> 0 ->
    id <= fold_left step l acc.
Proof.
  induction l as [|a l IH]; intros acc step; simpl.
  - split; [lia | intros act id []].
  - destruct (IH (step acc a)) as [Hge Hall]. fold step in Hge, Hall.
    assert (Hstep : acc <= step acc a).
    { unfold step. destruct (a_activity_id a) as [id|]; [|lia].
      destruct (truthy_id (Some id) && (acc <? id)) eqn:Hc; [|lia].
      apply andb_true_iff in Hc as [_ Hlt]. apply Z.ltb_lt in Hlt. lia. }
    split; [lia|].
    intros act id [->|Hin] Hid Hnz.
    + assert (Hs : id <= step acc act).
      { unfold step. rewrite Hid. simpl.
        replace (id =? 0) with false by (symmetry; apply Z.eqb_neq; exact Hnz).
        simpl. destruct (Z.ltb_spec acc id); lia. }
      lia.
    + apply (Hall act id Hin Hid Hnz).
Qed.

(** The running maximum stays below a bound that the start and every
    identifier are below, and it is the start or an identifier of the
    list. *)
Lemma maxId_fold_below (l : list Activity) (bound : Z) : forall acc,
  let step := fun max act =>
    match a_activity_id act with
    | Some id => if truthy_id (Some id) && (max <? id) then id else max
    | None => max
    end in
  acc < bound ->
  (forall act id, In act l -> a_activity_id act = Some id -> id < bound) ->
  fold_left step l acc < bound.
Proof.
  induction l as [|a l IH]; intros acc step Hacc Hall; simpl; [exact Hacc|].
  apply IH.
  - unfold step. destruct (a_activity_id a) as [id|] eqn:Hid; [|exact Hacc].
    destruct (truthy_id (Some id) && (acc <? id)); [|exact Hacc].
    apply (Hall a id); [left; reflexivity | exact Hid].
  - intros act id Hin. apply Hall. right. exact Hin.
Qed.

Lemma maxId_fold_attained (l : list Activity) : forall acc,
  let step := fun max act =>
    match a_activity_id act with
    | Some id => if truthy_id (Some id) && (max <? id) then id else max
    | None => max
    end in
  fold_left step l acc = acc \/
  exists act, In act l /\ a_activity_id act = Some (fold_left step l acc).
Proof.
  induction l as [|a l IH]; intros acc step; simpl; [left; reflexivity|].
  destruct (IH (step acc a)) as [Heq | (act & Hin & Hid)].
  - fold step in Heq. rewrite Heq. unfold step.
    destruct (a_activity_id a) as [id|] eqn:Hid; [|left; reflexivity].
    destruct (truthy_id (Some id) && (acc <? id)); [|left; reflexivity].
    right. exists a. split; [left; reflexivity | exact Hid].
  - right. exists act. split; [right; exact Hin | exact Hid].
Qed.

(** Up to 2^53 an integer is a double, and 2^53 + 1 rounds to 2^53. *)
Lemma round_to_double_exact (z : Z) :
  0 <= z <= 2 ^ 53 -> round_to_double z = z.
Proof.
  intros [Hlo Hhi]. unfold round_to_double.
  destruct (Z.eq_dec z (2 ^ 53)) as [-> | Hne]; [reflexivity|].
  replace (Z.log2 (Z.abs z) - 52 <=? 0) with true; [reflexivity|].
  symmetry. apply Z.leb_le. rewrite Z.abs_eq by exact Hlo.
  destruct (Z.eq_dec z 0) as [-> | Hz]; [simpl; lia|].
  assert (Hlog : Z.log2 z < 53) by (apply Z.log2_lt_pow2; lia).
  lia.
Qed.

(** X9: as long as every identifier of the list is below 2^53, the
    identifier [handleAddActivity] picks is the largest one of the list
    plus one (1 for a list without identifiers), is at least 1 and is
    carried by no activity of the list.  At 2^53 this ends: the sum is
    rounded back to 2^53, and the picked identifier is one the list
    already has. *)
Theorem nextActivityId_fresh (activities : list Activity) :
  ((forall act id, In act activities -> a_activity_id act = Some id ->
                   id < 2 ^ 53) ->
   nextActivityId activities = maxId activities + 1
   /\ 1 <= nextActivityId activities
   /\ forall act, In act activities ->
        a_activity_id act <> Some (nextActivityId activities))
  /\ (maxId activities = 2 ^ 53 ->
      nextActivityId activities = maxId activities
      /\ exists act, In act activities /\
           a_activity_id act = Some (nextActivityId activities)).
Proof.
  split.
  - intros Hsafe.
    destruct (maxId_fold_bounds activities 0) as [Hge Hall].
    pose proof (maxId_fold_below activities (2 ^ 53) 0 ltac:(lia) Hsafe)
      as Hlt.
    fold (maxId activities) in Hge, Hall, Hlt.
    assert (Hnext : nextActivityId activities = maxId activities + 1).
    { unfold nextActivityId. apply round_to_double_exact. lia. }
    rewrite Hnext. split; [reflexivity|]. split; [lia|].
    intros act Hin Hid.
    specialize (Hall act _ Hin Hid). lia.
  - intros Hmax.
    assert (Hnext : nextActivityId activities = maxId activities).
    { unfold nextActivityId. rewrite Hmax. reflexivity. }
    split; [exact Hnext|]. rewrite Hnext.
    destruct (maxId_fold_attained activities 0) as [Hzero | Hact].
    + fold (maxId activities) in Hzero. rewrite Hmax in Hzero. discriminate.
    + exact Hact.
Qed.

(** After the run and the reading, identifiers 1 and 2, comes 3; after
    an identifier of 2^53 comes 2^53 again. *)
Lemma nextActivityId_fresh_witness :
  nextActivityId [morningRun; eveningRead] = 3
  /\ nextActivityId [morningRun; hugeId] = 9007199254740992.
Proof.
  split.
  - destruct (nextActivityId_fresh [morningRun; eveningRead]) as [Hsafe _].
    destruct Hsafe as (Hnext & _).
    + intros act id [<- | [<- | []]] [= <-]; reflexivity.
    + rewrite Hnext. reflexivity.
  - destruct (nextActivityId_fresh [morningRun; hugeId]) as [_ Hhuge].
    destruct Hhuge as (Hnext & _); [reflexivity|].
    rewrite Hnext. reflexivity.
Defined.

Section ListState.
Context `{Engine}.

Lemma sortActivities_perm (l : list Activity) :
  Permutation (sortActivities l) l.
Proof. apply Array_sort_perm. Qed.

(** X10: the state update after an add always shows the added activity;
    it keeps every record with another identifier, holds no other
    record with the identifier of the added one, and the list grows by
    one exactly when that identifier was new. *)
Theorem addToState_upsert (addedActivity : Activity) (prev : list Activity) :
  In addedActivity (addToState addedActivity prev)
  /\ (forall a, In a prev ->
        a_activity_id a <> a_activity_id addedActivity ->
        In a (addToState addedActivity prev))
  /\ (forall b, In b (addToState addedActivity prev) ->
        a_activity_id b = a_activity_id addedActivity ->
        b = addedActivity)
  /\ length (addToState addedActivity prev)
     = (if existsb (fun a => same_id (a_activity_id a)
                                     (a_activity_id addedActivity)) prev
        then length prev else S (length prev)).
Proof.
  unfold addToState.
  set (same := fun a => same_id (a_activity_id a) (a_activity_id addedActivity)).
  destruct (existsb same prev) eqn:Hex.
  - set (updated := List.map (fun a => if same_id (a_activity_id a)
                                 (a_activity_id addedActivity)
                               then addedActivity else a) prev).
    pose proof (sortActivities_perm updated) as Hp.
    split.
    { apply (Permutation_in _ (Permutation_sym Hp)).
      apply existsb_exists in Hex as (a & Ha & Hsame).
      apply in_map_iff. exists a. unfold same in Hsame. rewrite Hsame. auto. }
    split.
    { intros a Ha Hne. apply (Permutation_in _ (Permutation_sym Hp)).
      apply in_map_iff. exists a. apply same_id_false in Hne.
      rewrite Hne. auto. }
    split.
    { intros b Hb Hid. apply (Permutation_in _ Hp) in Hb.
      apply in_map_iff in Hb as (a & Hab & Ha).
      destruct (same_id (a_activity_id a) (a_activity_id addedActivity))
        eqn:Hs; [auto|].
      subst b. apply same_id_false in Hs. contradiction. }
    rewrite (Permutation_length Hp). apply length_map.
  - pose proof (sortActivities_perm (addedActivity :: prev)) as Hp.
    split; [apply (Permutation_in _ (Permutation_sym Hp)); left; auto|].
    split.
    { intros a Ha _. apply (Permutation_in _ (Permutation_sym Hp)).
      right. exact Ha. }
    split.
    { intros b Hb Hid. apply (Permutation_in _ Hp) in Hb.
      destruct Hb as [<-|Hb]; [reflexivity|].
      exfalso.
      assert (Hs : existsb same prev = true).
      { apply existsb_exists. exists b. split; [exact Hb|].
        unfold same. apply same_id_true. exact Hid. }
      congruence. }
    rewrite (Permutation_length Hp). reflexivity.
Qed.

End ListState.

Section ListStateMore.
Context `{Engine}.

(** X11: the state update after a delete removes every record with the
    deleted identifier and nothing else, keeping the order; and adding
    an activity under a new identifier and deleting it again leaves the
    records that were there. *)
Theorem removeFromState_undoes_add (activityId : Z) (addedActivity : Activity)
    (prev : list Activity) :
  (forall b, In b (removeFromState activityId prev) <->
             In b prev /\ a_activity_id b <> Some activityId)
  /\ sublist (removeFromState activityId prev) prev
  /\ (a_activity_id addedActivity = Some activityId ->
      (forall a, In a prev -> a_activity_id a <> Some activityId) ->
      Permutation
        (removeFromState activityId (addToState addedActivity prev)) prev).
Proof.
  split.
  { intros b. unfold removeFromState.
    rewrite filter_In, negb_true_iff, same_id_false. reflexivity. }
  split; [apply filter_sublist|].
  intros Hid Hnew.
  assert (Hex : existsb (fun a => same_id (a_activity_id a)
                                    (a_activity_id addedActivity)) prev
                = false).
  { destruct (existsb _ prev) eqn:Hex; [|reflexivity].
    apply existsb_exists in Hex as (a & Ha & Hs).
    apply same_id_true in Hs. rewrite Hid in Hs.
    destruct (Hnew a Ha Hs). }
  unfold addToState. rewrite Hex. unfold removeFromState.
  etransitivity;
    [apply Permutation_filter_bool, sortActivities_perm|].
  simpl. rewrite Hid. simpl. rewrite Z.eqb_refl. simpl.
  rewrite filter_all_true; [reflexivity|].
  intros a Ha. apply negb_true_iff, same_id_false. apply Hnew, Ha.
Qed.

Lemma uniqueNewItems_In (prev newItems : list Activity) item :
  In item (uniqueNewItems prev newItems) <->
  In item newItems /\ truthy_id (a_activity_id item) = true /\
  forall a, In a prev -> a_activity_id a <> a_activity_id item.
Proof.
  unfold uniqueNewItems. rewrite filter_In, andb_true_iff, negb_true_iff.
  split.
  - intros (Hin & Ht & Hex). repeat split; auto.
    intros a Ha Hs. apply same_id_true in Hs.
    assert (existsb (fun a0 => same_id (a_activity_id a0)
                                 (a_activity_id item)) prev = true)
      by (apply existsb_exists; eauto).
    congruence.
  - intros (Hin & Ht & Hall). repeat split; auto.
    destruct (existsb _ prev) eqn:Hex; [|reflexivity].
    apply existsb_exists in Hex as (a & Ha & Hs).
    apply same_id_true in Hs. destruct (Hall a Ha Hs).
Qed.

Lemma NoDup_map_filter {A B} (f : A -> B) (p : A -> bool) (l : list A) :
  List.NoDup (List.map f l) -> List.NoDup (List.map f (List.filter p l)).
Proof.
  induction l as [|x l IH]; simpl; intros Hnd; [constructor|].
  inversion Hnd as [|y ys Hnotin Hnd']; subst.
  destruct (p x); simpl; [|apply IH, Hnd'].
  constructor; [|apply IH, Hnd'].
  intros Hin. apply Hnotin. apply in_map_iff in Hin as (z & Hz & Hzin).
  apply filter_In in Hzin as [Hzin _]. apply in_map_iff. eauto.
Qed.

Lemma firstn_In {A} (n : nat) (l : list A) x : In x (firstn n l) -> In x l.
Proof.
  intros Hin. rewrite <- (firstn_skipn n l). apply in_or_app. left. exact Hin.
Qed.

(** The records a page adds to the state. *)
Lemma mergeMore_perm (allData prev : list Activity) :
  Permutation (mergeMore allData prev)
    (prev ++ uniqueNewItems prev (firstn itemsPerPage allData)).
Proof.
  unfold mergeMore.
  destruct (firstn itemsPerPage allData) as [|x l] eqn:Hfirst.
  - unfold uniqueNewItems. simpl. rewrite app_nil_r. reflexivity.
  - cbn [nonempty negb].
    destruct (uniqueNewItems prev (x :: l)) as [|u us] eqn:Hu.
    + simpl. rewrite app_nil_r. reflexivity.
    + cbn [nonempty negb]. apply Array_sort_perm.
Qed.

(** X12: loading one more page never loses a record of the state; it
    adds at most [itemsPerPage] records, each from the page, with a
    non-zero identifier that no record of the state carries; and when
    the identifiers in the state and in the page are without
    repetition, so are those of the new state. *)
Theorem mergeMore_no_duplicates (allData prev : list Activity) :
  let added := uniqueNewItems prev (firstn itemsPerPage allData) in
  Permutation (mergeMore allData prev) (prev ++ added)
  /\ (length added <= itemsPerPage)%nat
  /\ (forall item, In item added ->
        In item allData /\ truthy_id (a_activity_id item) = true /\
        forall a, In a prev -> a_activity_id a <> a_activity_id item)
  /\ (List.NoDup (List.map a_activity_id prev) ->
      List.NoDup (List.map a_activity_id (firstn itemsPerPage allData)) ->
      List.NoDup (List.map a_activity_id (mergeMore allData prev))).
Proof.
  intros added. pose proof (mergeMore_perm allData prev) as Hp.
  fold added in Hp.
  split; [exact Hp|]. split.
  { unfold added, uniqueNewItems.
    etransitivity; [apply List.filter_length_le|].
    rewrite length_firstn. lia. }
  split.
  { intros item Hitem. apply uniqueNewItems_In in Hitem as (Hin & Ht & Hall).
    split; [|auto]. apply (firstn_In _ _ _ Hin). }
  intros Hprev Hpage.
  apply (Permutation_NoDup
           (Permutation_sym (Permutation_map a_activity_id Hp))).
  rewrite List.map_app. apply List.NoDup_app.
  - exact Hprev.
  - apply NoDup_map_filter, Hpage.
  - intros id Hid1 Hid2.
    apply in_map_iff in Hid1 as (a & Ha & Hain).
    apply in_map_iff in Hid2 as (item & Hi & Hitem).
    apply uniqueNewItems_In in Hitem as (_ & _ & Hall).
    apply (Hall a Hain). congruence.
Qed.

End ListStateMore.

(** ** The edit diff *)

Lemma changedFields_lookup (selected updated : gmap string value) k v :
  changedFields selected updated !! k = Some v <->
  updated !! k = Some v /\ k <> "activity_id" /\
  strict_eq (prop k selected) v = false.
Proof. unfold changedFields. rewrite map_lookup_filter_Some. reflexivity. Qed.

Lemma hasChanges_false (selected updated : gmap string value) :
  hasChanges selected updated = false <->
  forall k v, updated !! k = Some v -> k <> "activity_id" ->
    strict_eq (prop k selected) v = true.
Proof.
  unfold hasChanges. rewrite bool_decide_eq_false. split.
  - intros Hempty k v Hk Hne.
    destruct (strict_eq (prop k selected) v) eqn:Heq; [reflexivity|].
    exfalso. apply Hempty. intros Hnil.
    assert (Hc : changedFields selected updated !! k = Some v)
      by (apply changedFields_lookup; auto).
    rewrite Hnil, lookup_empty in Hc. discriminate.
  - intros Hall Hne. apply Hne. apply map_eq. intros k.
    rewrite lookup_empty.
    destruct (changedFields selected updated !! k) as [v|] eqn:Hc;
      [|reflexivity].
    apply changedFields_lookup in Hc as (Hk & Hid & Hneq).
    rewrite (Hall k v Hk Hid) in Hneq. discriminate.
Qed.

Lemma prop_union (m1 m2 : gmap string value) k :
  prop k (m1 ∪ m2) = match m1 !! k with Some v => v | None => prop k m2 end.
Proof.
  unfold prop. rewrite lookup_union.
  destruct (m1 !! k), (m2 !! k); reflexivity.
Qed.

Lemma hasChanges_true (selected updated : gmap string value) :
  hasChanges selected updated = true <->
  exists k v, updated !! k = Some v /\ k <> "activity_id" /\
              strict_eq (prop k selected) v = false.
Proof.
  unfold hasChanges. rewrite bool_decide_eq_true. split.
  - intros Hne. apply map_choose in Hne as (k & v & Hc).
    exists k, v. apply changedFields_lookup, Hc.
  - intros (k & v & Hc) Hnil.
    apply changedFields_lookup in Hc.
    rewrite Hnil, lookup_empty in Hc. discriminate.
Qed.

(** X13: what [handleUpdateActivity] does with an edit.  With an
    activity selected that has a truthy identifier, an update is sent
    exactly when some key of the edit other than [activity_id] holds a
    value that differs (by [!==]) from the selected activity's, and
    then it goes to that identifier with exactly the differing keys;
    no update is sent exactly when there is no such key; and nothing at
    all happens exactly when the selected activity has no truthy
    identifier, or none is selected.  The fields sent are values of the
    edit, never include [activity_id], and are enough: the selected
    activity overwritten with them reads, on every other key of the
    edit, as the edit does. *)
Theorem changedFields_patch (selected updated : gmap string value) :
  changedFields selected updated !! "activity_id" = None
  /\ (forall k v, changedFields selected updated !! k = Some v <->
        updated !! k = Some v /\ k <> "activity_id" /\
        strict_eq (prop k selected) v = false)
  /\ (forall k v, updated !! k = Some v -> k <> "activity_id" ->
        same_value (prop k (changedFields selected updated ∪ selected)) v)
  /\ (forall fields id,
        updateDecision (Some selected) updated = SendUpdate id fields <->
        id = prop "activity_id" selected /\ truthy id = true /\
        fields = changedFields selected updated /\
        exists k v, updated !! k = Some v /\ k <> "activity_id" /\
                    strict_eq (prop k selected) v = false)
  /\ (updateDecision (Some selected) updated = NoChanges <->
      truthy (prop "activity_id" selected) = true /\
      forall k v, updated !! k = Some v -> k <> "activity_id" ->
        strict_eq (prop k selected) v = true)
  /\ (updateDecision (Some selected) updated = NotSelected <->
      truthy (prop "activity_id" selected) = false)
  /\ updateDecision None updated = NotSelected.
Proof.
  split.
  { destruct (changedFields selected updated !! "activity_id") as [v|] eqn:Hc;
      [|reflexivity].
    apply changedFields_lookup in Hc as (_ & Hne & _). contradiction. }
  split.
  { intros k v. apply changedFields_lookup. }
  split.
  { intros k v Hk Hne. unfold same_value. rewrite prop_union.
    destruct (strict_eq (prop k selected) v) eqn:Heq.
    - assert (Hc : changedFields selected updated !! k = None).
      { destruct (changedFields selected updated !! k) as [w|] eqn:Hc;
          [|reflexivity].
        apply changedFields_lookup in Hc as (Hw & _ & Hneq).
        rewrite Hk in Hw. injection Hw as <-. congruence. }
      rewrite Hc. right. exact Heq.
    - assert (Hc : changedFields selected updated !! k = Some v)
        by (apply changedFields_lookup; auto).
      rewrite Hc. left. reflexivity. }
  split.
  { intros fields id. unfold updateDecision.
    destruct (truthy (prop "activity_id" selected)) eqn:Ht; simpl.
    - destruct (hasChanges selected updated) eqn:Hh.
      + split.
        * intros [= <- <-]. repeat split; auto.
          apply hasChanges_true, Hh.
        * intros (-> & _ & -> & _). reflexivity.
      + split; [discriminate|].
        intros (_ & _ & _ & Hchanged).
        apply hasChanges_true in Hchanged. congruence.
    - split; [discriminate|]. intros (-> & Hid & _). congruence. }
  split.
  { unfold updateDecision.
    destruct (truthy (prop "activity_id" selected)) eqn:Ht; simpl.
    - destruct (hasChanges selected updated) eqn:Hh.
      + split; [discriminate|]. intros [_ Hall].
        apply hasChanges_false in Hall. congruence.
      + split; [|reflexivity]. intros _. split; [reflexivity|].
        apply hasChanges_false, Hh.
    - split; [discriminate | intros [Hf _]; discriminate]. }
  split; [|reflexivity].
  unfold updateDecision.
  destruct (truthy (prop "activity_id" selected)) eqn:Ht; simpl.
  - destruct (hasChanges selected updated); split; discriminate.
  - split; reflexivity.
Qed.

(** An edit of the notes of activity 7 sends the notes, and nothing
    else, to activity 7. *)
Lemma changedFields_patch_witness :
  updateDecision
    (Some {[ "activity_id" := VNum (Fin 7); "Activity" := VStr "Run";
             "Notes" := VStr "" ]})
    {[ "activity_id" := VNum (Fin 7); "Activity" := VStr "Run";
       "Notes" := VStr "5k" ]}
  = SendUpdate (VNum (Fin 7))
      (changedFields
         {[ "activity_id" := VNum (Fin 7); "Activity" := VStr "Run";
            "Notes" := VStr "" ]}
         {[ "activity_id" := VNum (Fin 7); "Activity" := VStr "Run";
            "Notes" := VStr "5k" ]})
  /\ changedFields
       {[ "activity_id" := VNum (Fin 7); "Activity" := VStr "Run";
          "Notes" := VStr "" ]}
       {[ "activity_id" := VNum (Fin 7); "Activity" := VStr "Run";
          "Notes" := VStr "5k" ]} !! "Activity" = None.
Proof.
  destruct (changedFields_patch
              {[ "activity_id" := VNum (Fin 7); "Activity" := VStr "Run";
                 "Notes" := VStr "" ]}
              {[ "activity_id" := VNum (Fin 7); "Activity" := VStr "Run";
                 "Notes" := VStr "5k" ]})
    as (_ & Hfields & _ & Hsend & _).
  split.
  - apply Hsend. split; [reflexivity|]. split; [reflexivity|].
    split; [reflexivity|].
    exists "Notes", (VStr "5k"). split; [reflexivity|].
    split; [discriminate | reflexivity].
  - destruct (changedFields _ _ !! "Activity") as [v|] eqn:Hc; [|reflexivity].
    apply Hfields in Hc as (Hv & _ & Hneq).
    vm_compute in Hv. injection Hv as <-. discriminate Hneq.
Defined.

(** ** The filter bar *)

Lemma selection_set_same type updated prev :
  selection_of type (set_selection type updated prev) = Some updated.
Proof. destruct type; reflexivity. Qed.

Lemma selection_set_other type type' updated prev :
  type' <> type ->
  selection_of type' (set_selection type updated prev)
  = selection_of type' prev.
Proof. destruct type, type'; intros Hne; try reflexivity; contradiction. Qed.

(** X14: a tap on a chip flips whether its value is selected and
    changes nothing else: the other values of that dimension, the other
    dimensions, the date range and the minimum stay as they are.  Two
    taps on a value that was not selected give back the selection. *)
Theorem toggleSelection_flips (type : SelectionKind) (value : string)
    (prev : ActivityFilters) :
  let before := default [] (selection_of type prev) in
  let after := default [] (selection_of type (toggleSelection type value prev)) in
  (In value after <-> ~ In value before)
  /\ (forall other, other <> value -> (In other after <-> In other before))
  /\ (forall type', type' <> type ->
        selection_of type' (toggleSelection type value prev)
        = selection_of type' prev)
  /\ dateRange (toggleSelection type value prev) = dateRange prev
  /\ minPoints (toggleSelection type value prev) = minPoints prev
  /\ (~ In value before ->
      selection_of type
        (toggleSelection type value (toggleSelection type value prev))
      = Some before).
Proof.
  intros before after.
  assert (Hafter : after =
            if array_includes before value
            then List.filter (fun item => negb (String.eqb item value)) before
            else before ++ [value]).
  { unfold after, toggleSelection. rewrite selection_set_same. reflexivity. }
  split.
  { rewrite Hafter.
    destruct (array_includes before value) eqn:Hinc.
    - apply array_includes_spec in Hinc. rewrite filter_In. split.
      + intros [_ Hneq]. rewrite String.eqb_refl in Hneq. discriminate.
      + intros Hnot. contradiction.
    - assert (Hnot : ~ In value before).
      { intros Hin. apply array_includes_spec in Hin. congruence. }
      rewrite in_app_iff. simpl. tauto. }
  split.
  { intros other Hne. rewrite Hafter.
    destruct (array_includes before value).
    - rewrite filter_In, negb_true_iff, String.eqb_neq. tauto.
    - rewrite in_app_iff. simpl. split; [|tauto].
      intros [Hin|[Heq|[]]]; [exact Hin | congruence]. }
  split.
  { intros type' Hne. unfold toggleSelection.
    apply selection_set_other, Hne. }
  split; [unfold toggleSelection; destruct type; reflexivity|].
  split; [unfold toggleSelection; destruct type; reflexivity|].
  intros Hnot.
  assert (Hinc : array_includes before value = false).
  { destruct (array_includes before value) eqn:Hinc; [|reflexivity].
    apply array_includes_spec in Hinc. contradiction. }
  unfold toggleSelection at 1. rewrite selection_set_same. f_equal.
  fold after. rewrite Hafter, Hinc.
  assert (Hinc' : array_includes (before ++ [value]) value = true).
  { apply array_includes_spec, in_app_iff. simpl. auto. }
  simpl. rewrite Hinc'.
  rewrite List.filter_app. simpl. rewrite String.eqb_refl. simpl.
  rewrite app_nil_r. apply filter_all_true.
  intros x Hx. apply negb_true_iff, String.eqb_neq. congruence.
Qed.

(** A badge showing no active filter means no dimension is active. *)
Lemma activeFilterCount_zero (filters : ActivityFilters) :
  activeFilterCount filters = 0%nat -> no_active_filter filters.
Proof.
  unfold activeFilterCount, selection_length, no_active_filter, range_start.
  intros Hzero.
  destruct (categories filters) as [[|c cs]|]; simpl in Hzero; try lia;
    destruct (activities filters) as [[|a acts]|]; simpl in Hzero; try lia;
    destruct (tags filters) as [[|t ts]|]; simpl in Hzero; try lia;
    destruct (dateRange filters); simpl in Hzero; try lia;
    destruct (minPoints_set filters); simpl in Hzero; try lia;
    simpl; auto 10.
Qed.

(** X15: when the badge of the filter bar counts no active filter and
    the search box is empty, the list shows, in order, every record
    that has an activity name and a category. *)
Theorem activeFilterCount_zero_shows_all `{Engine} (records : list Activity)
    (filters : ActivityFilters) :
  activeFilterCount filters = 0%nat ->
  filteredActivities records "" filters
  = List.filter hasRequiredFields records.
Proof.
  intros Hzero. unfold filteredActivities. apply filter_ext. intros a.
  apply keepActivity_no_filter, activeFilterCount_zero, Hzero.
Qed.

(** ** The values offered to the filter bar *)

Lemma unique_after_In (l : list string) : forall seen x,
  In x (unique_after seen l) <-> In x l /\ ~ In x seen.
Proof.
  induction l as [|s l IH]; intros seen x; simpl; [tauto|].
  destruct (array_includes seen s) eqn:Hs.
  - apply array_includes_spec in Hs. rewrite IH. split.
    + tauto.
    + intros [[<-|Hin] Hnot]; [contradiction | tauto].
  - assert (Hns : ~ In s seen).
    { intros Hin. apply array_includes_spec in Hin. congruence. }
    simpl. rewrite IH. simpl. split.
    + intros [<-|[Hin Hnot]]; [tauto|]. split; [tauto|]. tauto.
    + intros [[<-|Hin] Hnot]; [tauto|].
      destruct (String.eqb_spec s x) as [->|Hne]; [tauto|]. right. tauto.
Qed.

Lemma unique_after_NoDup (l : list string) : forall seen,
  List.NoDup (unique_after seen l).
Proof.
  induction l as [|s l IH]; intros seen; simpl; [constructor|].
  destruct (array_includes seen s); [apply IH|].
  constructor; [|apply IH].
  rewrite unique_after_In. simpl. tauto.
Qed.

Lemma unique_spec (l : list string) :
  List.NoDup (unique l) /\ forall x, In x (unique l) <-> In x l.
Proof.
  split; [apply unique_after_NoDup|].
  intros x. unfold unique. rewrite unique_after_In. simpl. tauto.
Qed.

Lemma filter_Boolean_In (l : list (option string)) s :
  In s (filter_Boolean l) <-> s <> "" /\ In (Some s) l.
Proof.
  unfold filter_Boolean. rewrite <- list_elem_of_In, list_elem_of_omap.
  split.
  - intros (o & Ho & Hs). apply list_elem_of_In in Ho.
    destruct (truthy_opt o) eqn:Ht; [|discriminate]. subst o.
    simpl in Ht. apply truthy_string_true in Ht. auto.
  - intros [Hne Hin]. exists (Some s). split; [apply list_elem_of_In, Hin|].
    simpl. apply truthy_string_true in Hne. rewrite Hne. reflexivity.
Qed.

Section Offered.
Context `{Engine}.

(** The tags an item offers are its non-empty tags, if it has any. *)
Lemma itemTags_In (item : Activity) t :
  In t (itemTags item) <->
  tagsValue item <> "" /\ t <> "" /\ In t (activityTags item).
Proof.
  unfold itemTags, activityTags, tagsValue.
  destruct (truthy_opt (or_str (a_Tags item) (a_tags item))) eqn:Ht.
  - apply truthy_opt_true in Ht as (s & -> & Hs). simpl.
    apply truthy_string_true in Hs as Hs'. rewrite Hs'.
    rewrite filter_In, truthy_string_true. tauto.
  - split; [intros []|]. intros (Hne & _). exfalso. apply Hne.
    destruct (or_str (a_Tags item) (a_tags item)) as [s|]; simpl in *;
      [|reflexivity].
    rewrite Ht. reflexivity.
Qed.

(** X16: the categories offered to the filter bar are, each once, the
    non-empty category names that occur in the data; and filtering by
    an offered category alone returns every complete record of that
    category, and only records of that category. *)
Theorem availableCategories_offered (data : list Activity) (c : string) :
  List.NoDup (availableCategories data)
  /\ (In c (availableCategories data) <->
      c <> "" /\ exists a, In a data /\ categoryName a = Some c)
  /\ (forall a, In a (filteredActivities data "" (onlyCategory c)) <->
        In a data /\ hasRequiredFields a = true /\ categoryName a = Some c).
Proof.
  unfold availableCategories.
  destruct (unique_spec (filter_Boolean (List.map categoryName data)))
    as [Hnd Hin].
  split; [exact Hnd|]. split.
  { rewrite Hin, filter_Boolean_In, in_map_iff. split.
    - intros (Hne & a & Ha & Hdata). eauto.
    - intros (Hne & a & Hdata & Ha). eauto. }
  intros a. unfold filteredActivities.
  rewrite filter_In, keepActivity_spec. split.
  - intros (Hdata & Hreq & _ & Hcat & _).
    repeat split; auto.
    destruct (Hcat [c] eq_refl) as (c' & Hc' & Hname); [discriminate|].
    destruct Hc' as [<-|[]]. exact Hname.
  - intros (Hdata & Hreq & Hcat). split; [exact Hdata|].
    split; [exact Hreq|].
    split; [intros Hq; contradiction|].
    split; [intros chosen [= <-] _; exists c; simpl; auto|].
    split; [intros chosen Hc; discriminate|].
    split; [intros start Hs; discriminate|].
    split; [intros m Hm; discriminate|].
    intros chosen Hc; discriminate.
Qed.

(** X17: the tags offered to the filter bar are, each once, the
    non-empty trimmed tags that occur in the data.  Filtering by an
    offered tag alone returns every complete record that carries it,
    and whatever a non-empty tag filters out of the data carries a tag
    that was offered. *)
Theorem availableTags_offered (data : list Activity) (t : string) :
  List.NoDup (availableTags data)
  /\ (In t (availableTags data) <->
      t <> "" /\
      exists a, In a data /\ tagsValue a <> "" /\ In t (activityTags a))
  /\ (forall a, In a (filteredActivities data "" (onlyTag t)) <->
        In a data /\ hasRequiredFields a = true /\
        tagsValue a <> "" /\ In t (activityTags a))
  /\ (t <> "" ->
      forall a, In a (filteredActivities data "" (onlyTag t)) ->
        In t (availableTags data)).
Proof.
  unfold availableTags.
  destruct (unique_spec (flat_map itemTags data)) as [Hnd Hin].
  assert (Hoffered : In t (unique (flat_map itemTags data)) <->
            t <> "" /\
            exists a, In a data /\ tagsValue a <> "" /\ In t (activityTags a)).
  { rewrite Hin, in_flat_map. split.
    - intros (a & Hdata & Ht). apply itemTags_In in Ht. split; [tauto|].
      exists a. tauto.
    - intros (Hne & a & Hdata & Htags & Ht). exists a.
      split; [exact Hdata|]. apply itemTags_In. tauto. }
  assert (Hfilter : forall a, In a (filteredActivities data "" (onlyTag t)) <->
            In a data /\ hasRequiredFields a = true /\
            tagsValue a <> "" /\ In t (activityTags a)).
  { intros a. unfold filteredActivities.
    rewrite filter_In, keepActivity_spec. split.
    - intros (Hdata & Hreq & _ & _ & _ & _ & _ & Htags).
      destruct (Htags [t] eq_refl) as (Hne & t' & Ht' & Hhas);
        [discriminate|].
      destruct Ht' as [<-|[]]. tauto.
    - intros (Hdata & Hreq & Hne & Hhas). split; [exact Hdata|].
      split; [exact Hreq|].
      split; [intros Hq; contradiction|].
      split; [intros chosen Hc; discriminate|].
      split; [intros chosen Hc; discriminate|].
      split; [intros start Hs; discriminate|].
      split; [intros m Hm; discriminate|].
      intros chosen [= <-] _. split; [exact Hne|].
      exists t. simpl. auto. }
  split; [exact Hnd|]. split; [exact Hoffered|].
  split; [exact Hfilter|].
  intros Hne a Ha. apply Hoffered. apply Hfilter in Ha.
  split; [exact Hne|]. exists a. tauto.
Qed.

End Offered.

(* ===================================================================== *)
(** * Reads that check the status, and the forms                          *)
(* ===================================================================== *)

Lemma checked_json_answered (fetched : Outcome Response error) (data : json) :
  answered fetched data -> checked_json fetched = Return data.
Proof.
  intros (response & -> & Hok & Hbody). unfold checked_json. simpl.
  rewrite Hok, Hbody. reflexivity.
Qed.

Lemma checked_json_failed (fetched : Outcome Response error) :
  network_failure fetched \/ non_2xx fetched \/ parse_failure fetched ->
  exists e, checked_json fetched = Throw e.
Proof.
  unfold checked_json.
  intros [(e & ->) | [(response & -> & Hok) | (response & e & -> & Hbody)]];
    simpl.
  - eexists; reflexivity.
  - rewrite Hok. eexists; reflexivity.
  - destruct (ok response); simpl; [rewrite Hbody|]; eexists; reflexivity.
Qed.

(** X18: [fetchExerciseActivities], [getExerciseTypes] and
    [getMoodOptions] look at the status before they read the body: a
    2xx response whose body parses gives the parsed body, and a network
    failure, a status outside 2xx or a body that does not parse gives
    the fallback of the function (the empty list, the ten default
    exercise types, the ten mock mood options).  None of them throws. *)
Theorem status_checked_reads (fetched : Outcome Response error) :
  (forall data, answered fetched data ->
     fetchExerciseActivities fetched = Return data /\
     getExerciseTypes fetched = Return data /\
     getMoodOptions fetched = Return data)
  /\ (network_failure fetched \/ non_2xx fetched \/ parse_failure fetched ->
      fetchExerciseActivities fetched = Return (JArr []) /\
      getExerciseTypes fetched = Return defaultExerciseTypes /\
      getMoodOptions fetched = Return mockMoodOptions)
  /\ ((exists data, answered fetched data) \/
      network_failure fetched \/ non_2xx fetched \/ parse_failure fetched).
Proof.
  split; [|split].
  - intros data Hans.
    unfold fetchExerciseActivities, getExerciseTypes, getMoodOptions.
    rewrite (checked_json_answered _ _ Hans). simpl. auto.
  - intros Hfail. destruct (checked_json_failed _ Hfail) as (e & He).
    unfold fetchExerciseActivities, getExerciseTypes, getMoodOptions.
    rewrite He. simpl. auto.
  - destruct fetched as [response | e].
    + destruct (ok response) eqn:Hok.
      * destruct (json_body response) as [data | e] eqn:Hbody.
        -- left. exists data, response. auto.
        -- right; right; right. exists response, e. auto.
      * right; right; left. exists response. auto.
    + right; left. exists e. reflexivity.
Qed.

(** For a 500 response whose body parses the three reads give their
    fallbacks. *)
Lemma status_checked_reads_witness :
  fetchExerciseActivities serverError = Return (JArr []) /\
  getExerciseTypes serverError = Return defaultExerciseTypes /\
  getMoodOptions serverError = Return mockMoodOptions.
Proof.
  destruct (status_checked_reads serverError) as (_ & Hfail & _).
  apply Hfail. right; left. eexists. split; [reflexivity|]. reflexivity.
Defined.

Lemma getRewards_eq (fetched : Outcome Response error) :
  getRewards fetched
  = Return match fetched with
           | Resolve response =>
               match json_body response with
               | Resolve data =>
                   match field_of "rewards" data with
                   | Some r => if truthy_json r then r else JArr []
                   | None => JArr []
                   end
               | Reject _ => JArr []
               end
           | Reject _ => JArr []
           end.
Proof.
  unfold getRewards.
  destruct fetched as [response | e]; simpl; [|reflexivity].
  destruct (json_body response) as [data | e]; simpl; [|reflexivity].
  destruct data as [| b | q | s | items | fields]; simpl; try reflexivity.
  destruct (List.find _ fields) as [[k r] |]; simpl; [|reflexivity].
  destruct (truthy_json r); reflexivity.
Qed.

(** X19: [getRewards] returns the [rewards] of the parsed body whenever
    they are truthy, whatever the status of the response, and the empty
    list in every other case: a network failure, a body that does not
    parse, a document without [rewards] or with falsy ones.  So it
    never throws and never returns a falsy value. *)
Theorem getRewards_list_or_empty (fetched : Outcome Response error) :
  (forall rewards, carries_rewards fetched rewards ->
     getRewards fetched = Return rewards)
  /\ ((forall rewards, ~ carries_rewards fetched rewards) ->
      getRewards fetched = Return (JArr []))
  /\ (exists rewards,
        getRewards fetched = Return rewards /\ truthy_json rewards = true).
Proof.
  rewrite getRewards_eq. unfold carries_rewards.
  split; [|split].
  - intros rewards (response & data & -> & -> & -> & ->). reflexivity.
  - intros Hnone.
    destruct fetched as [response | e]; [|reflexivity].
    destruct (json_body response) as [data | e] eqn:Hbody; [|reflexivity].
    destruct (field_of "rewards" data) as [r |] eqn:Hfield; [|reflexivity].
    destruct (truthy_json r) eqn:Hr; [|reflexivity].
    exfalso. apply (Hnone r). exists response, data. auto.
  - eexists. split; [reflexivity|].
    destruct fetched as [response | e]; [|reflexivity].
    destruct (json_body response) as [data | e]; [|reflexivity].
    destruct (field_of "rewards" data) as [r |]; [|reflexivity].
    destruct (truthy_json r) eqn:Hr; [exact Hr | reflexivity].
Qed.

(** The rewards of a 500 response are returned. *)
Lemma getRewards_list_or_empty_witness :
  getRewards rewardsWithError = Return (JArr [JStr "Sleep in"]).
Proof.
  destruct (getRewards_list_or_empty rewardsWithError) as (Hcarried & _).
  apply Hcarried. eexists _, _.
  split; [reflexivity|]. split; [reflexivity|]. split; reflexivity.
Defined.

Section RewardForm.
Context `{E : Engine} `{P : NumberParsing}.

(** X20: The reward form calls [purchaseReward] at most once, and
    exactly when the name is not blank and the points parse to a
    positive integer; the call then carries the name and description as
    typed and the negated, hence strictly negative, cost.  Every run
    ends with at least one alert; without a request it is the one
    validation alert, and the success alert is only shown when the
    document of the server has a truthy [success]. *)
Theorem createRewardSubmit_request (name pointsCost description : string)
    (fetched : Outcome Response error) (onSuccess : Completion unit error) :
  let run := createRewardSubmit name pointsCost description fetched onSuccess in
  (forall n c d, request run = Some (n, c, d) <->
     n = name /\ d = description /\ c < 0 /\
     truthy_string (trim name) = true /\ parseInt pointsCost = Some (- c))
  /\ alerts run <> []
  /\ (request run = None -> exists text, alerts run = [("Error", JStr text)])
  /\ (forall text, In ("Success", text) (alerts run) ->
        exists result success,
          request run <> None /\
          purchaseReward fetched = Return result /\
          field_of "success" result = Some success /\
          truthy_json success = true).
Proof.
  intros run. subst run. unfold createRewardSubmit.
  destruct (truthy_string (trim name)) eqn:Hname; simpl.
  2:{ split; [|split; [|split]].
      - intros n c d. split; [discriminate | intros (_ & _ & _ & H & _); discriminate].
      - discriminate.
      - intros _. eexists; reflexivity.
      - intros text [H | []]. discriminate. }
  destruct (parseInt pointsCost) as [cost |] eqn:Hparse.
  2:{ split; [|split; [|split]].
      - intros n c d. split; [discriminate | intros (_ & _ & _ & _ & H); discriminate].
      - discriminate.
      - intros _. eexists; reflexivity.
      - intros text [H | []]. discriminate. }
  destruct (cost <=? 0) eqn:Hcost.
  { apply Z.leb_le in Hcost. split; [|split; [|split]].
    - intros n c d. split; [discriminate |].
      intros (_ & _ & Hc & _ & H). injection H as ->. lia.
    - discriminate.
    - intros _. eexists; reflexivity.
    - intros text [H | []]. discriminate. }
  apply Z.leb_gt in Hcost. simpl.
  split; [|split; [|split]].
  - intros n c d. split.
    + intros H. injection H as <- <- <-.
      repeat split; [lia | f_equal; lia].
    + intros (-> & -> & Hc & _ & H). injection H as ->.
      repeat f_equal. lia.
  - destruct (purchaseReward fetched) as [result | e]; [|discriminate].
    destruct (get_property "success" result) as [success | e]; [|discriminate].
    destruct (truthy_json (default JNull success)); discriminate.
  - discriminate.
  - intros text Hin.
    destruct (purchaseReward fetched) as [result | e] eqn:Hp.
    2:{ destruct Hin as [H | []]. discriminate. }
    destruct (get_property "success" result) as [success | e] eqn:Hs.
    2:{ destruct Hin as [H | []]. discriminate. }
    destruct (truthy_json (default JNull success)) eqn:Ht.
    2:{ destruct Hin as [H | []]. discriminate. }
    destruct success as [success |]; [|discriminate Ht].
    exists result, success. split; [discriminate|]. split; [reflexivity|].
    split; [|exact Ht].
    destruct result; simpl in Hs |- *; try discriminate; congruence.
Qed.

End RewardForm.

(** With the name [Movie night] and the points [300] the form asks for
    a reward of cost -300. *)
Lemma createRewardSubmit_request_witness :
  request (createRewardSubmit (H := ascii_engine) (H0 := decimal_parsing)
             "Movie night" "300" "Two hours" serverError (Return tt))
  = Some ("Movie night", -300, "Two hours").
Proof.
  destruct (createRewardSubmit_request (E := ascii_engine)
              (P := decimal_parsing) "Movie night" "300" "Two hours"
              serverError (Return tt)) as (Hreq & _).
  apply Hreq. repeat split; reflexivity.
Defined.

(** X21: The activity form and [createActivity] ask for the same five
    fields: an activity with one of them missing gets the form's alert
    and is not handed on, and an activity the form hands to [onSubmit]
    has none of [createActivity]'s required fields missing, has truthy
    [Points] (the typed ones, or 10), and is the typed activity in
    every other property. *)
Theorem activityFormSubmit_validation (onSubmit_given : bool)
    (activity : gmap string value) :
  (missingFields activity <> [] <->
     activityFormSubmit onSubmit_given activity
     = inl ("Missing Information", "Please fill in all required fields"))
  /\ (forall submitted,
        activityFormSubmit onSubmit_given activity = inr submitted ->
        missingFields submitted = [] /\
        truthy (prop "Points" submitted) = true /\
        (truthy (prop "Points" activity) = true ->
           prop "Points" submitted = prop "Points" activity) /\
        (truthy (prop "Points" activity) = false ->
           prop "Points" submitted = VNum (Fin 10)) /\
        forall key, key <> "Points" -> submitted !! key = activity !! key).
Proof.
  assert (Hmissing : forall a : gmap string value,
            missingFields a = [] <->
            truthy (prop "Activity" a) = true /\
            truthy (prop "Category" a) = true /\
            truthy (prop "Date" a) = true /\
            truthy (prop "Start_Time" a) = true /\
            truthy (prop "End_Time" a) = true).
  { intros a. unfold missingFields, requiredFields. simpl.
    destruct (truthy (prop "Activity" a)), (truthy (prop "Category" a)),
      (truthy (prop "Date" a)), (truthy (prop "Start_Time" a)),
      (truthy (prop "End_Time" a)); simpl; split;
      try discriminate; try tauto; intros (? & ? & ? & ? & ?); discriminate. }
  unfold activityFormSubmit.
  destruct (negb (truthy (prop "Activity" activity))
            || negb (truthy (prop "Category" activity))
            || negb (truthy (prop "Date" activity))
            || negb (truthy (prop "Start_Time" activity))
            || negb (truthy (prop "End_Time" activity))) eqn:Hcheck.
  - split; [|discriminate].
    split; [reflexivity|]. intros _ Hnil. apply Hmissing in Hnil.
    destruct Hnil as (H1 & H2 & H3 & H4 & H5).
    rewrite H1, H2, H3, H4, H5 in Hcheck. discriminate.
  - assert (Hall : missingFields activity = []).
    { apply Hmissing.
      destruct (truthy (prop "Activity" activity)),
        (truthy (prop "Category" activity)),
        (truthy (prop "Date" activity)),
        (truthy (prop "Start_Time" activity)),
        (truthy (prop "End_Time" activity)); simpl in Hcheck;
        try discriminate; auto. }
    split.
    + split; [intros Hne; contradiction|].
      destruct onSubmit_given; discriminate.
    + intros submitted Hsub.
      destruct onSubmit_given; simpl in Hsub; [|discriminate].
      injection Hsub as <-.
      assert (Hother : forall key, key <> "Points" ->
                (<["Points" := js_or (prop "Points" activity) (VNum (Fin 10))]>
                   activity : gmap string value) !! key = activity !! key).
      { intros key Hkey. apply lookup_insert_ne. congruence. }
      assert (Hpoints : prop "Points"
                (<["Points" := js_or (prop "Points" activity) (VNum (Fin 10))]>
                   activity) = js_or (prop "Points" activity) (VNum (Fin 10))).
      { unfold prop at 1. rewrite lookup_insert. reflexivity. }
      split; [|split; [|split; [|split]]].
      * apply Hmissing. apply Hmissing in Hall.
        unfold prop in *. rewrite !Hother by discriminate. exact Hall.
      * rewrite Hpoints. unfold js_or.
        destruct (truthy (prop "Points" activity)) eqn:Hp; [exact Hp | reflexivity].
      * intros Hp. rewrite Hpoints. unfold js_or. rewrite Hp. reflexivity.
      * intros Hp. rewrite Hpoints. unfold js_or. rewrite Hp. reflexivity.
      * exact Hother.
Qed.

(** The form filled in without points hands on an activity with 10
    points that [createActivity] takes. *)
Lemma activityFormSubmit_validation_witness :
  exists submitted,
    activityFormSubmit true filledForm = inr submitted /\
    missingFields submitted = [] /\
    prop "Points" submitted = VNum (Fin 10).
Proof.
  eexists. split; [reflexivity|].
  destruct (activityFormSubmit_validation true filledForm) as (_ & Hsub).
  destruct (Hsub _ eq_refl) as (Hnil & _ & _ & Hten & _).
  split; [exact Hnil | apply Hten; reflexivity].
Defined.

Section ExerciseForm.
Context `{E : Engine}.

(** X22: The exercise form submits nothing without an exercise type.
    What it submits has a number under each of the seven metrics, has 0
    under every metric whose switch is off, whatever was typed there,
    and is the typed details in every other property. *)
Theorem exerciseFormSubmit_metrics (tracking : Tracking)
    (details : gmap string value) :
  (truthy (prop "exercise_type" details) = false <->
     exerciseFormSubmit tracking details
     = inl ("Missing Information", "Please select an exercise type"))
  /\ (forall submitted,
        exerciseFormSubmit tracking details = inr submitted ->
        (forall key, In key exerciseMetrics ->
           exists n, submitted !! key = Some (VNum n)) /\
        (forall key, ~ In key exerciseMetrics ->
           submitted !! key = details !! key) /\
        submitted !! "intensity"
          = Some (VNum (ToNumber (prop "intensity" details))) /\
        (trackDistance tracking = false ->
           submitted !! "distance" = Some (VNum (Fin 0))) /\
        (trackWeight tracking = false ->
           submitted !! "weight" = Some (VNum (Fin 0))) /\
        (trackSetsReps tracking = false ->
           submitted !! "sets" = Some (VNum (Fin 0)) /\
           submitted !! "reps" = Some (VNum (Fin 0))) /\
        (trackCalories tracking = false ->
           submitted !! "calories" = Some (VNum (Fin 0))) /\
        (trackHeartRate tracking = false ->
           submitted !! "heart_rate" = Some (VNum (Fin 0)))).
Proof.
  unfold exerciseFormSubmit.
  destruct (truthy (prop "exercise_type" details)) eqn:Htype; simpl.
  2:{ split; [tauto | discriminate]. }
  split; [split; discriminate|].
  intros submitted Hsub. injection Hsub as <-.
  split; [|split; [|split; [|repeat split]]].
  - intros key Hin. unfold exerciseMetrics in Hin. simpl in Hin.
    destruct Hin as [<- | [<- | [<- | [<- | [<- | [<- | [<- | []]]]]]]];
      repeat first [ rewrite lookup_insert_eq
                   | rewrite lookup_insert_ne by discriminate ];
      try (eexists; reflexivity);
      match goal with
      | |- context [if ?b then _ else _] => destruct b; eexists; reflexivity
      end.
  - intros key Hnot. unfold exerciseMetrics in Hnot. simpl in Hnot.
    rewrite !lookup_insert_ne by (intros <-; tauto). reflexivity.
  - rewrite !lookup_insert_ne by discriminate. apply lookup_insert_eq.
  - intros ->. rewrite !lookup_insert_ne by discriminate. apply lookup_insert_eq.
  - intros ->. rewrite !lookup_insert_ne by discriminate. apply lookup_insert_eq.
  - rewrite H. rewrite !lookup_insert_ne by discriminate. apply lookup_insert_eq.
  - rewrite H. rewrite !lookup_insert_ne by discriminate. apply lookup_insert_eq.
  - intros ->. rewrite !lookup_insert_ne by discriminate. apply lookup_insert_eq.
  - intros ->. apply lookup_insert_eq.
Qed.

End ExerciseForm.

(** With nothing tracked, a typed distance is submitted as 0. *)
Lemma exerciseFormSubmit_metrics_witness :
  exists submitted,
    exerciseFormSubmit (H := ascii_engine)
      (mkTracking false false false false false) runDetails = inr submitted /\
    submitted !! "distance" = Some (VNum (Fin 0)) /\
    submitted !! "notes" = Some (VStr "easy").
Proof.
  eexists. split; [reflexivity|].
  destruct (exerciseFormSubmit_metrics (E := ascii_engine)
              (mkTracking false false false false false) runDetails)
    as (_ & Hsub).
  destruct (Hsub _ eq_refl) as (_ & Hother & _ & Hdistance & _).
  split; [apply Hdistance; reflexivity|].
  rewrite Hother; [reflexivity|].
  unfold exerciseMetrics. simpl. intuition discriminate.
Defined.

(* ===================================================================== *)
(** * Adding an activity                                                  *)
(* ===================================================================== *)

Lemma missingFields_activity_id (activity : gmap string value) (v : value) :
  missingFields (<["activity_id" := v]> activity) = missingFields activity.
Proof.
  unfold missingFields, requiredFields, prop. simpl.
  rewrite !lookup_insert_ne by discriminate. reflexivity.
Qed.

Section AddingActivity.
Context `{E : Engine} `{R : ActivitiesRuntime}.
Variable rangeError : error.

(** The date step throws exactly on a [Date] that is a string of
    another shape than year-month-day and not a valid date; otherwise
    it touches the [Date] at most. *)
Lemma formattedActivity_throws (activity : gmap string value) :
  (exists e, formattedActivity rangeError activity = Throw e) <->
  exists s, prop "Date" activity = VStr s /\
            matches_date_pattern s = false /\
            Date_getTime (VStr s) = None.
Proof.
  unfold formattedActivity. split.
  - intros [e He]. destruct (prop "Date" activity) as [| |b|n|s];
      try discriminate.
    exists s. destruct (matches_date_pattern s); simpl in He;
      [discriminate|].
    destruct (Date_getTime (VStr s)); [discriminate | auto].
  - intros (s & -> & -> & ->). simpl. eauto.
Qed.

Lemma formattedActivity_other_fields (activity formatted : gmap string value)
    field :
  formattedActivity rangeError activity = Return formatted ->
  field <> "Date" ->
  prop field formatted = prop field activity.
Proof.
  unfold formattedActivity. intros Hf Hne.
  destruct (prop "Date" activity) as [| |b|n|s];
    try (injection Hf as <-; reflexivity).
  destruct (matches_date_pattern s); simpl in Hf;
    [injection Hf as <-; reflexivity|].
  destruct (Date_getTime (VStr s)) as [t|]; [|discriminate].
  injection Hf as <-. unfold prop.
  rewrite lookup_insert_ne by congruence. reflexivity.
Qed.

(** X8: [handleAddActivity] on an activity that cannot be added.  When
    the [Date] is a string of another shape than year-month-day that is
    not a valid date (the empty string of an untouched form field, for
    one), formatting it throws before anything is submitted:
    [createActivity] is never called and the alert shows the message of
    the RangeError.  Otherwise the date step leaves every other field
    as it was, and when the formatted activity lacks a required field,
    [createActivity] is called three times, with waits of 1000 and
    2000 ms in between, and the alert names the missing fields. *)
Theorem handleAddActivity_invalid (activities : list Activity)
    (activity : gmap string value)
    (envs : nat -> Transport * gmap string string) :
  (forall s,
     prop "Date" activity = VStr s -> matches_date_pattern s = false ->
     Date_getTime (VStr s) = None ->
     handleAddActivity rangeError activities activity envs
     = Return (mkAdded ("Error", or_add_message (message rangeError))
                       None world0))
  /\ (forall formatted field,
        formattedActivity rangeError activity = Return formatted ->
        In field requiredFields -> truthy (prop field formatted) = false ->
        handleAddActivity rangeError activities activity envs
        = Return (mkAdded
                    ("Error",
                     ("Missing required fields: "
                      ++ join ", " (missingFields formatted))%string)
                    None
                    (mkWorld 3 [Invoke; SetTimeout 1000; Invoke;
                                SetTimeout 2000; Invoke])))
  /\ (forall formatted,
        formattedActivity rangeError activity = Return formatted ->
        forall field, field <> "Date" ->
          prop field formatted = prop field activity).
Proof.
  split; [|split].
  - intros s Hdate Hshape Hinvalid. unfold handleAddActivity, formattedActivity.
    rewrite Hdate, Hshape. simpl. rewrite Hinvalid. reflexivity.
  - intros formatted field Hformatted Hin Hfalse.
    unfold handleAddActivity. rewrite Hformatted.
    rewrite (withRetry_createActivity_invalid _ envs field Hin).
    + rewrite missingFields_activity_id. reflexivity.
    + unfold prop. rewrite lookup_insert_ne.
      * exact Hfalse.
      * intros <-. simpl in Hin. intuition discriminate.
  - intros formatted Hformatted field.
    apply formattedActivity_other_fields, Hformatted.
Qed.

End AddingActivity.

(** The activity without a category is submitted three times; the one
    with an empty date is not submitted at all. *)
Lemma handleAddActivity_invalid_witness :
  handleAddActivity (H := ascii_engine) (H0 := strings_runtime) invalidTime
    [morningRun; eveningRead] incompleteActivity
    (fun _ => (ViaXhr XhrTimeout, ∅))
  = Return (mkAdded
              ("Error",
               "Missing required fields: Category, Start_Time, End_Time")
              None
              (mkWorld 3 [Invoke; SetTimeout 1000; Invoke;
                          SetTimeout 2000; Invoke]))
  /\ handleAddActivity (H := ascii_engine) (H0 := strings_runtime) invalidTime
       [morningRun; eveningRead] blankDate
       (fun _ => (ViaXhr XhrTimeout, ∅))
     = Return (mkAdded ("Error", "Invalid time value") None world0).
Proof.
  split.
  - destruct (handleAddActivity_invalid (E := ascii_engine)
                (R := strings_runtime) invalidTime [morningRun; eveningRead]
                incompleteActivity (fun _ => (ViaXhr XhrTimeout, ∅)))
      as (_ & Hmissing & _).
    rewrite (Hmissing incompleteActivity "Category");
      [reflexivity | reflexivity | simpl; auto | reflexivity].
  - destruct (handleAddActivity_invalid (E := ascii_engine)
                (R := strings_runtime) invalidTime [morningRun; eveningRead]
                blankDate (fun _ => (ViaXhr XhrTimeout, ∅)))
      as (Hdate & _).
    apply (Hdate ""); reflexivity.
Defined.

(* ===================================================================== *)
(** * Deleting an activity                                                *)
(* ===================================================================== *)

Section Deleting.
Context `{R : ActivitiesRuntime}.

Lemma deleteActivity_answered (fetched : Outcome Response error) (data : json) :
  answered fetched data -> deleteActivity fetched = Return data.
Proof.
  intros (response & -> & Hok & Hbody). unfold deleteActivity. simpl.
  rewrite Hbody. simpl. rewrite Hok. reflexivity.
Qed.

Lemma deleteActivity_returns (fetched : Outcome Response error) (data : json) :
  deleteActivity fetched = Return data -> answered fetched data.
Proof.
  unfold deleteActivity. destruct fetched as [response | e]; simpl;
    [|discriminate].
  destruct (json_body response) as [body | e] eqn:Hbody; simpl;
    [|discriminate].
  destruct (ok response) eqn:Hok; simpl.
  - intros H. injection H as <-. exists response. auto.
  - destruct (get_property "message" body); simpl; discriminate.
Qed.

(** X23: [deleteActivity] returns exactly when the server answered
    with a 2xx status and a body that parses, and then returns that
    body.  A network error is thrown as it is; so is the parse error of
    the body, whatever the status, since the body is read first; and
    for a status outside 2xx with an object body the error carries the
    non-empty [message] text of that body. *)
Theorem deleteActivity_outcome (fetched : Outcome Response error) :
  (forall data, deleteActivity fetched = Return data <-> answered fetched data)
  /\ (forall e, fetched = Reject e -> deleteActivity fetched = Throw e)
  /\ (forall response e,
        fetched = Resolve response -> json_body response = Reject e ->
        deleteActivity fetched = Throw e)
  /\ (forall response fields text,
        fetched = Resolve response -> ok response = false ->
        json_body response = Resolve (JObj fields) ->
        field_of "message" (JObj fields) = Some (JStr text) -> text <> "" ->
        deleteActivity fetched = Throw (Error "Error" text)).
Proof.
  split; [|split; [|split]].
  - intros data. split;
      [apply deleteActivity_returns | apply deleteActivity_answered].
  - intros e ->. reflexivity.
  - intros response e -> Hbody. unfold deleteActivity. simpl.
    rewrite Hbody. reflexivity.
  - intros response fields text -> Hok Hbody Hmsg Htext.
    unfold deleteActivity. simpl. rewrite Hbody. simpl. rewrite Hok. simpl.
    simpl in Hmsg. rewrite Hmsg. simpl.
    rewrite (proj2 (truthy_string_true text) Htext). reflexivity.
Qed.

(** An unforced fetch with a fresh cache returns the cached list and
    asks nobody. *)
Lemma loadActivities_fetch_cached (envs : nat -> FetchEnv)
    (cached : list json) :
  getFromCache (env_now (envs 0%nat)) (env_storage (envs 0%nat))
    = Some cached ->
  loadActivities_fetch false envs = (Return cached, mkWorld 1 [Invoke]).
Proof.
  intros Hcache. unfold loadActivities_fetch.
  apply withRetry_first_success; [|lia].
  unfold fetchActivities_call, fetchActivities. rewrite Hcache. reflexivity.
Qed.

(** X24: pressing [Delete].  When the first reply is a 2xx document
    with a truthy [message], [deleteActivity] is called once, the
    success alert is shown, and the state update removes exactly the
    records with that identifier; then the list is reloaded without
    [forceRefresh], and since nothing has touched the cache, a cache
    entry that is still fresh is what the reload gets: the list as it
    was cached before the deletion, with no request to the server.
    When the first reply is a 2xx document without a truthy [message],
    nothing is shown, the list stays and nothing is reloaded; and when
    no reply is a 2xx document, [deleteActivity] is called three times,
    with waits of 1000 and 2000 ms in between, one error alert with
    the message of the last error is shown, the list stays and nothing
    is reloaded. *)
Theorem deletePressed_outcomes (activityId : Z)
    (replies : nat -> Outcome Response error) (envs : nat -> FetchEnv)
    (prev : list Activity) :
  (forall data,
     answered (replies 0%nat) data ->
     truthy_json (default JNull (field_of "message" data)) = true ->
     deletePressed activityId replies envs prev
     = Return (mkPressed [("Success", "Activity deleted successfully.")]
                 (removeFromState activityId prev)
                 (Some (loadActivities_fetch false envs))
                 (mkWorld 1 [Invoke]))
     /\ (forall a, In a (removeFromState activityId prev) <->
                   In a prev /\ a_activity_id a <> Some activityId)
     /\ (forall cached,
           getFromCache (env_now (envs 0%nat)) (env_storage (envs 0%nat))
             = Some cached ->
           loadActivities_fetch false envs
           = (Return cached, mkWorld 1 [Invoke])))
  /\ (forall data,
        answered (replies 0%nat) data ->
        truthy_json (default JNull (field_of "message" data)) = false ->
        deletePressed activityId replies envs prev
        = Return (mkPressed [] prev None (mkWorld 1 [Invoke])))
  /\ ((forall i data, ~ answered (replies i) data) ->
      exists e,
        deleteActivity (replies 2%nat) = Throw e
        /\ deletePressed activityId replies envs prev
           = Return (mkPressed [("Error", or_empty_message (message e))]
                       prev None
                       (mkWorld 3 [Invoke; SetTimeout 1000; Invoke;
                                   SetTimeout 2000; Invoke]))).
Proof.
  split; [|split].
  - intros data Hans Hmsg. split; [|split].
    + unfold deletePressed.
      rewrite (withRetry_first_success _ data) by
        first [ rewrite (deleteActivity_answered _ _ Hans); reflexivity | lia ].
      rewrite Hmsg.
      destruct data; simpl in Hmsg |- *; try discriminate; reflexivity.
    + intros a. unfold removeFromState. rewrite filter_In.
      split; intros [Hin Hid]; (split; [exact Hin|]).
      * intros Heq. rewrite Heq in Hid. simpl in Hid.
        rewrite Z.eqb_refl in Hid. discriminate.
      * destruct (a_activity_id a) as [id |]; simpl; [|reflexivity].
        destruct (id =? activityId) eqn:Heq; [|reflexivity].
        apply Z.eqb_eq in Heq. subst. contradiction.
    + apply loadActivities_fetch_cached.
  - intros data Hans Hmsg. unfold deletePressed.
    rewrite (withRetry_first_success _ data) by
      first [ rewrite (deleteActivity_answered _ _ Hans); reflexivity | lia ].
    rewrite Hmsg, andb_false_r. reflexivity.
  - intros Hnone.
    set (errs := fun i => match deleteActivity (replies i) with
                          | Throw e => e
                          | Return _ => Error "" ""
                          end).
    unfold deletePressed.
    rewrite (withRetry_all_fail _ errs) by
      first [ lia
            | intros i; unfold errs;
              destruct (deleteActivity (replies i)) as [data | e] eqn:Hd;
              [ exfalso; exact (Hnone i data (deleteActivity_returns _ _ Hd))
              | reflexivity ] ].
    exists (errs 2%nat). split; [|reflexivity].
    unfold errs.
    destruct (deleteActivity (replies 2%nat)) as [data | e] eqn:Hd;
      [|reflexivity].
    exfalso. exact (Hnone 2%nat data (deleteActivity_returns _ _ Hd)).
Qed.

End Deleting.

(** A reply [{ message: 'Row deleted' }] to the deletion of activity 1
    removes the morning run from the list for the time being; the
    reload, half a second after the list was cached, gets the cached
    two names, the morning run among them, and does not ask the
    server. *)
Lemma deletePressed_outcomes_witness :
  deletePressed (H := strings_runtime) 1 (fun _ => deleted)
                (fun _ => cachedTwoNames) [morningRun; eveningRead]
  = Return (mkPressed [("Success", "Activity deleted successfully.")]
              [eveningRead]
              (Some (Return [JStr "Morning run"; JStr "Reading"],
                     mkWorld 1 [Invoke]))
              (mkWorld 1 [Invoke])).
Proof.
  destruct (deletePressed_outcomes (R := strings_runtime) 1
              (fun _ => deleted) (fun _ => cachedTwoNames)
              [morningRun; eveningRead]) as (Hok & _).
  destruct (Hok (JObj [("message", JStr "Row deleted")]))
    as (Hpressed & _ & Hreload).
  - eexists. split; [reflexivity|]. split; reflexivity.
  - reflexivity.
  - rewrite Hpressed.
    rewrite (Hreload [JStr "Morning run"; JStr "Reading"])
      by (vm_compute; reflexivity).
    reflexivity.
Defined.

(** A 500 reply with the message [No such row]. *)
Lemma deleteActivity_outcome_witness :
  deleteActivity (H := strings_runtime)
    (Resolve (mkResponse 500 (Resolve (JObj [("message", JStr "No such row")]))))
  = Throw (Error "Error" "No such row").
Proof.
  destruct (deleteActivity_outcome (R := strings_runtime)
              (Resolve (mkResponse 500
                 (Resolve (JObj [("message", JStr "No such row")])))))
    as (_ & _ & _ & Hmsg).
  apply (Hmsg (mkResponse 500
                  (Resolve (JObj [("message", JStr "No such row")])))
               [("message", JStr "No such row")]); try reflexivity.
  discriminate.
Defined.

(* ===================================================================== *)
(** * The theorems at work                                                *)
(* ===================================================================== *)

(** Offline, a forced fetch at 2000 returns the two names cached at
    1500. *)
Lemma fetchActivities_failure_fallback_witness :
  fetchActivities (H := strings_runtime) true 1000 2000 offline
    (saveToCache (H := activities_codec (ActivitiesRuntime := strings_runtime))
       1500 [JStr "Morning run"; JStr "Reading"] ∅)
  = (Return [JStr "Morning run"; JStr "Reading"],
     saveToCache (H := activities_codec (ActivitiesRuntime := strings_runtime))
       1500 [JStr "Morning run"; JStr "Reading"] ∅).
Proof.
  destruct (fetchActivities_failure_fallback (H := strings_runtime)
              true 1000 2000 offline
              (saveToCache
                 (H := activities_codec (ActivitiesRuntime := strings_runtime))
                 1500 [JStr "Morning run"; JStr "Reading"] ∅))
    as (Hcached & _).
  - exact I.
  - left. reflexivity.
  - apply Hcached; [vm_compute; reflexivity | discriminate].
Defined.

(** The two names fetched at 2000 are served again at 3000 while the
    network is down. *)
Lemma fetchActivities_cache_round_trip_witness :
  fetchActivities (H := strings_runtime) false 3000 4000 offline
    (saveToCache (H := activities_codec (ActivitiesRuntime := strings_runtime))
       2000 [JStr "Morning run"; JStr "Reading"] ∅)
  = (Return [JStr "Morning run"; JStr "Reading"],
     saveToCache (H := activities_codec (ActivitiesRuntime := strings_runtime))
       2000 [JStr "Morning run"; JStr "Reading"] ∅).
Proof.
  destruct (fetchActivities_cache_round_trip (H := strings_runtime)
              1000 2000 twoNames ∅ [JStr "Morning run"; JStr "Reading"])
    as (_ & Hserved).
  - eexists _, _. split; [reflexivity|]. split; [reflexivity|].
    split; [reflexivity|]. vm_compute. reflexivity.
  - discriminate.
  - vm_compute. reflexivity.
  - reflexivity.
  - apply Hserved. vm_compute. reflexivity.
Defined.

(** An empty array from the server leaves an empty storage empty. *)
Lemma fetchActivities_empty_keeps_cache_witness :
  fetchActivities (H := strings_runtime) true 1000 2000 emptyArray ∅
  = (Return [], ∅).
Proof.
  destruct (fetchActivities_empty_keeps_cache (H := strings_runtime)
              1000 2000 emptyArray ∅ []) as (Hempty & _).
  - eexists _, _. split; [reflexivity|]. split; [reflexivity|].
    split; [reflexivity|]. vm_compute. reflexivity.
  - exact Hempty.
Defined.

(** Offline all the time, [fetchActivities] under [withRetry] is still
    invoked once. *)
Lemma withRetry_fetchActivities_once_witness :
  exists data,
    fst (fetchActivities (H := strings_runtime) true 1000 2000 offline ∅)
    = Return data
    /\ withRetry (fetchActivities_call (H := strings_runtime) true
                    (fun _ => mkFetchEnv 1000 2000 offline ∅)) 3 1000 world0
       = (Return data, mkWorld 1 [Invoke]).
Proof.
  apply (withRetry_fetchActivities_once (H := strings_runtime) true
           (fun _ => mkFetchEnv 1000 2000 offline ∅) 3 1000).
  lia.
Defined.

(** The activity without a category is sent three times. *)
Lemma withRetry_createActivity_invalid_sample :
  withRetry (createActivity_call (H := strings_runtime) incompleteActivity
               (fun _ => (ViaXhr XhrTimeout, ∅))) 3 1000 world0
  = (Throw (Some (Error "Error"
                    ("Missing required fields: "
                     ++ join ", " (missingFields incompleteActivity)))),
     mkWorld 3 [Invoke; SetTimeout 1000; Invoke; SetTimeout 2000; Invoke]).
Proof.
  apply (withRetry_createActivity_invalid (H := strings_runtime)
           incompleteActivity (fun _ => (ViaXhr XhrTimeout, ∅)) "Category").
  - simpl. auto.
  - reflexivity.
Qed.

(** With no filter set the list shows the two complete records of
    three. *)
Lemma activeFilterCount_zero_shows_all_witness :
  filteredActivities (H := ascii_engine)
    [morningRun; uncategorised; eveningRead] "" noFilters
  = List.filter hasRequiredFields [morningRun; uncategorised; eveningRead].
Proof.
  apply (activeFilterCount_zero_shows_all (H := ascii_engine)).
  reflexivity.
Defined.
